(** * Settings server: persistence and merge engine

    A shallow embedding of [settings_server.cpp]: the SQLite tables, the SQL
    statements the program prepares, the JSON values it receives, the
    functions [ensure_user_exists], [get_user_settings], [upsert_settings],
    [append_chat_message], [clear_chat_history], [export_user_data] and
    [import_user_data], and the handlers of the twelve endpoints, written in
    a small state monad over the committed database, the global [db_mutex],
    the clock and the outcome of every SQLite call. Strings are sequences of
    bytes: a text reaches SQLite and comes back from it as a C string, which
    ends at its first NUL byte, and [dump()] serializes well-formed UTF-8
    only. The creation of the tables ([init_db]) and the HTTP server itself
    are outside the model: the tables exist, and a handler receives the
    parsed request. *)

From stdpp Require Import base option list gmap strings relations.
From Stdlib Require Import ZArith Lia.

Local Open Scope string_scope.
Local Open Scope list_scope.
Local Open Scope Z_scope.

(** ** SQL values and tables *)

(** A TEXT column holds NULL or a string, an INTEGER column NULL or an integer:
    the program binds text to the first kind and [int] to the second only. *)
Abbreviation text := (option string).
Abbreviation integer := (option Z).

(** SQL [COALESCE(x, y)]: the first argument that is not NULL. *)
Definition COALESCE {A} (x y : option A) : option A :=
  match x with
  | Some _ => x
  | None => y
  end.

(** [s.c_str()] as a reader of C strings sees it: the bytes before the first
    NUL byte. [sqlite3_bind_text(stmt, i, s.c_str(), -1, ...)] binds this
    text, and a string made from the [const char*] of a column holds it. *)
Fixpoint c_str (s : string) : string :=
  match s with
  | "" => ""
  | String c s' => if bool_decide (c = Ascii.zero) then "" else String c (c_str s')
  end.

(** Table [users]; the primary key [user_id] is the key of the map. *)
Record users_row := {
  u_name : text;
  u_email : text;
  u_avatar_url : text;
  u_created_at : text
}.

(** Table [settings]; the primary key [user_id] is the key of the map. *)
Record settings_row := {
  s_theme_mode : text;
  s_dark_mode : integer;
  s_notifications_enabled : integer;
  s_chat_notifications : integer;
  s_update_notifications : integer;
  s_reminder_notifications : integer;
  s_language : text;
  s_biometric_lock : integer;
  s_app_version : text;
  s_updated_at : text
}.

(** Table [chat_history]; [c_id] is the [INTEGER PRIMARY KEY AUTOINCREMENT]. *)
Record chat_row := {
  c_id : Z;
  c_user_id : string;
  c_role : string;
  c_message : string;
  c_created_at : string
}.

(** The content of [luma_settings.db]. [sqlite_sequence] is the counter SQLite
    keeps for the AUTOINCREMENT column of [chat_history]. Foreign keys are
    declared but never enforced (the program does not switch them on). *)
Record database := {
  users : gmap string users_row;
  settings : gmap string settings_row;
  chat_history : list chat_row;
  sqlite_sequence : Z
}.

#[global] Instance users_row_eq_dec : EqDecision users_row.
Proof. solve_decision. Defined.
#[global] Instance settings_row_eq_dec : EqDecision settings_row.
Proof. solve_decision. Defined.
#[global] Instance chat_row_eq_dec : EqDecision chat_row.
Proof. solve_decision. Defined.

Definition set_users (f : gmap string users_row → gmap string users_row)
    (d : database) : database :=
  {| users := f (users d); settings := settings d;
     chat_history := chat_history d; sqlite_sequence := sqlite_sequence d |}.

Definition set_settings (f : gmap string settings_row → gmap string settings_row)
    (d : database) : database :=
  {| users := users d; settings := f (settings d);
     chat_history := chat_history d; sqlite_sequence := sqlite_sequence d |}.

(** ** The SQL statements of the program *)

(** [INSERT OR IGNORE INTO users(user_id, name, email, avatar_url, created_at)
    VALUES(?, ?, ?, ?, ?)] *)
Definition sql_insert_or_ignore_users (user_id : string) (r : users_row)
    (d : database) : database :=
  match users d !! user_id with
  | Some _ => d
  | None => set_users (insert user_id r) d
  end.

(** The row [ensure_user_exists] binds to that statement. *)
Definition default_user (now : text) : users_row :=
  {| u_name := Some "User Name"; u_email := Some "user@example.com";
     u_avatar_url := Some ""; u_created_at := now |}.

(** The row of [INSERT OR IGNORE INTO settings(...) VALUES(?, 'System', 0, 1,
    1, 1, 0, 'English', 0, '1.0.0', ?)]. *)
Definition default_settings (now : text) : settings_row :=
  {| s_theme_mode := Some "System"; s_dark_mode := Some 0;
     s_notifications_enabled := Some 1; s_chat_notifications := Some 1;
     s_update_notifications := Some 1; s_reminder_notifications := Some 0;
     s_language := Some "English"; s_biometric_lock := Some 0;
     s_app_version := Some "1.0.0"; s_updated_at := now |}.

Definition sql_insert_or_ignore_settings (user_id : string) (now : text)
    (d : database) : database :=
  match settings d !! user_id with
  | Some _ => d
  | None => set_settings (insert user_id (default_settings now)) d
  end.

(** [UPDATE users SET name = COALESCE(?, name), email = COALESCE(?, email),
    avatar_url = COALESCE(?, avatar_url) WHERE user_id = ?] *)
Definition sql_update_users (p_name p_email p_avatar_url : text)
    (user_id : string) (d : database) : database :=
  match users d !! user_id with
  | None => d
  | Some r =>
      set_users (insert user_id
        {| u_name := COALESCE p_name (u_name r);
           u_email := COALESCE p_email (u_email r);
           u_avatar_url := COALESCE p_avatar_url (u_avatar_url r);
           u_created_at := u_created_at r |}) d
  end.

(** [INSERT INTO settings(...) VALUES(?, ..., ?) ON CONFLICT(user_id) DO UPDATE
    SET c = COALESCE(excluded.c, settings.c), ...]; [x] is the row of bound
    parameters. *)
Definition sql_upsert_settings (user_id : string) (x : settings_row)
    (d : database) : database :=
  match settings d !! user_id with
  | None => set_settings (insert user_id x) d
  | Some r =>
      set_settings (insert user_id
        {| s_theme_mode := COALESCE (s_theme_mode x) (s_theme_mode r);
           s_dark_mode := COALESCE (s_dark_mode x) (s_dark_mode r);
           s_notifications_enabled :=
             COALESCE (s_notifications_enabled x) (s_notifications_enabled r);
           s_chat_notifications :=
             COALESCE (s_chat_notifications x) (s_chat_notifications r);
           s_update_notifications :=
             COALESCE (s_update_notifications x) (s_update_notifications r);
           s_reminder_notifications :=
             COALESCE (s_reminder_notifications x) (s_reminder_notifications r);
           s_language := COALESCE (s_language x) (s_language r);
           s_biometric_lock := COALESCE (s_biometric_lock x) (s_biometric_lock r);
           s_app_version := COALESCE (s_app_version x) (s_app_version r);
           s_updated_at := COALESCE (s_updated_at x) (s_updated_at r) |}) d
  end.

(** Largest [id] in [chat_history] (0 for the empty table). *)
Definition max_rowid (rows : list chat_row) : Z :=
  match rows with
  | [] => 0
  | r :: rows' => foldr (λ r m, Z.max (c_id r) m) (c_id r) rows'
  end.

(** The largest rowid of SQLite, the largest signed 64-bit integer. *)
Definition MAX_ROWID : Z := 2 ^ 63 - 1.

(** The largest id the table holds or ever held. *)
Definition last_rowid (d : database) : Z :=
  Z.max (sqlite_sequence d) (max_rowid (chat_history d)).

(** AUTOINCREMENT: one more than the largest id that ever existed. *)
Definition next_rowid (d : database) : Z := last_rowid d + 1.

(** No id is left for a new row: the largest rowid has been used. *)
Definition chat_history_full (d : database) : bool :=
  bool_decide (MAX_ROWID ≤ last_rowid d).

(** [INSERT INTO chat_history(user_id, role, message, created_at)
    VALUES(?, ?, ?, ?)]. Once the largest rowid has been used the statement
    fails (SQLITE_FULL) and inserts nothing. *)
Definition sql_insert_chat (user_id role message created_at : string)
    (d : database) : database :=
  if chat_history_full d then d
  else
    let i := next_rowid d in
    {| users := users d; settings := settings d;
       chat_history := chat_history d ++
         [{| c_id := i; c_user_id := user_id; c_role := role;
             c_message := message; c_created_at := created_at |}];
       sqlite_sequence := i |}.

(** [DELETE FROM chat_history WHERE user_id = ?] *)
Definition sql_delete_chat (user_id : string) (d : database) : database :=
  {| users := users d; settings := settings d;
     chat_history := filter (λ r, c_user_id r ≠ user_id) (chat_history d);
     sqlite_sequence := sqlite_sequence d |}.

(** [ORDER BY id ASC]: insertion sort on [c_id]. *)
Fixpoint insert_by_id (r : chat_row) (l : list chat_row) : list chat_row :=
  match l with
  | [] => [r]
  | x :: l' => if bool_decide (c_id r ≤ c_id x) then r :: l
               else x :: insert_by_id r l'
  end.

Definition order_by_id (l : list chat_row) : list chat_row :=
  foldr insert_by_id [] l.

(** [SELECT role, message, created_at FROM chat_history WHERE user_id = ?
    ORDER BY id ASC]: the rows in the order the cursor yields them. *)
Definition sql_select_chat (user_id : string) (d : database) : list chat_row :=
  order_by_id (filter (λ r, c_user_id r = user_id) (chat_history d)).

(** [SELECT ... FROM users u JOIN settings s ON u.user_id = s.user_id
    WHERE u.user_id = ?]: at most one row. *)
Definition sql_select_settings (user_id : string) (d : database)
    : option (users_row * settings_row) :=
  match users d !! user_id, settings d !! user_id with
  | Some u, Some s => Some (u, s)
  | _, _ => None
  end.

(** ** JSON values (nlohmann::json) *)

#[local] Unset Elimination Schemes.
Inductive json :=
| JNull
| JBool (b : bool)
| JNum (n : Z)
| JStr (s : string)
| JArr (l : list json)
| JObj (m : list (string * json)).
#[local] Set Elimination Schemes.

(** Lookup of a key among the members of an object. *)
Fixpoint members_find (k : string) (m : list (string * json)) : option json :=
  match m with
  | [] => None
  | (k', v) :: m' => if bool_decide (k' = k) then Some v else members_find k m'
  end.

(** [j.find(key)]: the member of an object; nothing for any other value. *)
Definition json_find (j : json) (k : string) : option json :=
  match j with
  | JObj m => members_find k m
  | _ => None
  end.

(** [j.contains(key)]: false for every value that is not an object. *)
Definition contains (j : json) (k : string) : bool :=
  bool_decide (is_Some (json_find j k)).

(** [j[key]] on a constant value, used after [contains] answered true. *)
Definition json_at (j : json) (k : string) : json :=
  default JNull (json_find j k).

(** [out[key] = v]: replaces the member or adds it. *)
Fixpoint members_set (k : string) (v : json) (m : list (string * json))
    : list (string * json) :=
  match m with
  | [] => [(k, v)]
  | (k', v') :: m' => if bool_decide (k' = k) then (k, v) :: m'
                      else (k', v') :: members_set k v m'
  end.

(** [payload.erase(key)] on the members of an object. *)
Definition members_erase (k : string) (m : list (string * json))
    : list (string * json) :=
  filter (λ kv, kv.1 ≠ k) m.

(** The members of an object as its [std::map] keeps them: one per key, in
    the order of the keys, which are compared byte by byte. *)
Fixpoint members_insert (k : string) (v : json) (m : list (string * json))
    : list (string * json) :=
  match m with
  | [] => [(k, v)]
  | (k', v') :: m' =>
      match String.compare k k' with
      | Lt => (k, v) :: m
      | Eq => (k, v) :: m'
      | Gt => (k', v') :: members_insert k v m'
      end
  end.

Definition members_by_key (m : list (string * json)) : list (string * json) :=
  foldr (λ kv acc, members_insert kv.1 kv.2 acc) [] m.

(** The values a range-for visits: the elements of an array, the member values
    of an object in the order of their keys, nothing for null and the value
    itself otherwise. *)
Definition json_items (j : json) : list json :=
  match j with
  | JArr l => l
  | JObj m => (members_by_key m).*2
  | JNull => []
  | _ => [j]
  end.

(** Well-formed UTF-8, as the serializer of [dump()] checks it byte by byte:
    no overlong form, no surrogate, nothing above U+10FFFF, no sequence cut
    short. *)
Inductive utf8_state :=
| U_start
| U_tail (more : nat) (lo hi : N).

Definition utf8_lead (b : N) : option utf8_state :=
  if (b <=? 0x7F)%N then Some U_start
  else if (0xC2 <=? b)%N && (b <=? 0xDF)%N then Some (U_tail 0 0x80 0xBF)
  else if (b =? 0xE0)%N then Some (U_tail 1 0xA0 0xBF)
  else if (0xE1 <=? b)%N && (b <=? 0xEC)%N then Some (U_tail 1 0x80 0xBF)
  else if (b =? 0xED)%N then Some (U_tail 1 0x80 0x9F)
  else if (0xEE <=? b)%N && (b <=? 0xEF)%N then Some (U_tail 1 0x80 0xBF)
  else if (b =? 0xF0)%N then Some (U_tail 2 0x90 0xBF)
  else if (0xF1 <=? b)%N && (b <=? 0xF3)%N then Some (U_tail 2 0x80 0xBF)
  else if (b =? 0xF4)%N then Some (U_tail 2 0x80 0x8F)
  else None.

Fixpoint utf8_from (st : utf8_state) (s : string) : bool :=
  match s with
  | "" => match st with U_start => true | U_tail _ _ _ => false end
  | String c s' =>
      let b := Ascii.N_of_ascii c in
      match st with
      | U_start =>
          match utf8_lead b with
          | Some st' => utf8_from st' s'
          | None => false
          end
      | U_tail more lo hi =>
          if (lo <=? b)%N && (b <=? hi)%N then
            utf8_from (match more with
                       | O => U_start
                       | S more' => U_tail more' 0x80 0xBF
                       end) s'
          else false
      end
  end.

Definition valid_utf8 (s : string) : bool := utf8_from U_start s.

(** [j.dump()] returns a text: every string of the value, keys included, is
    well-formed UTF-8. Otherwise it throws type_error. *)
Fixpoint dumps (j : json) : bool :=
  match j with
  | JStr s => valid_utf8 s
  | JArr l => forallb dumps l
  | JObj m => forallb (λ kv, match kv with (k, v) => valid_utf8 k && dumps v end) m
  | _ => true
  end.

(** ** The platform and the world *)

(** What [std::mutex::lock] does when the calling thread already owns the
    mutex. The C++ standard leaves it undefined; the pthread mutex of the
    documented build ([g++ -pthread]) blocks the thread forever, and an
    implementation may also let the owner through. *)
Inductive relock := Blocks | Proceeds.

(** The SQLite calls whose result can be an error. *)
Inductive api := Open | Exec | Prepare | Step.

#[global] Instance api_eq_dec : EqDecision api.
Proof. solve_decision. Defined.

(** Everything outside the program: the mutex implementation, the readings of
    the system clock as [iso_now] formats them, and for every SQLite call, by
    kind and by rank among the calls of that kind, whether it returns an
    error (out of memory, disk full, SQLITE_BUSY, a missing table, ...). *)
Record platform := {
  on_relock : relock;
  clock : nat → string;
  fails : api → nat → bool
}.

(** The state the functions share: the committed content of the database
    file, whether [db_mutex] is owned, and how many clock readings and SQLite
    calls of each kind have happened. *)
Record world := {
  disk : database;
  db_mutex : bool;
  ticks : nat;
  opens : nat;
  execs : nat;
  prepares : nat;
  steps : nat
}.

Definition set_disk (d : database) (w : world) : world :=
  {| disk := d; db_mutex := db_mutex w; ticks := ticks w; opens := opens w;
     execs := execs w; prepares := prepares w; steps := steps w |}.

Definition set_mutex (b : bool) (w : world) : world :=
  {| disk := disk w; db_mutex := b; ticks := ticks w; opens := opens w;
     execs := execs w; prepares := prepares w; steps := steps w |}.

Definition tick (w : world) : world :=
  {| disk := disk w; db_mutex := db_mutex w; ticks := S (ticks w);
     opens := opens w; execs := execs w; prepares := prepares w;
     steps := steps w |}.

Definition calls (a : api) (w : world) : nat :=
  match a with
  | Open => opens w
  | Exec => execs w
  | Prepare => prepares w
  | Step => steps w
  end.

Definition count (a : api) (w : world) : world :=
  match a with
  | Open =>
      {| disk := disk w; db_mutex := db_mutex w; ticks := ticks w;
         opens := S (opens w); execs := execs w; prepares := prepares w;
         steps := steps w |}
  | Exec =>
      {| disk := disk w; db_mutex := db_mutex w; ticks := ticks w;
         opens := opens w; execs := S (execs w); prepares := prepares w;
         steps := steps w |}
  | Prepare =>
      {| disk := disk w; db_mutex := db_mutex w; ticks := ticks w;
         opens := opens w; execs := execs w; prepares := S (prepares w);
         steps := steps w |}
  | Step =>
      {| disk := disk w; db_mutex := db_mutex w; ticks := ticks w;
         opens := opens w; execs := execs w; prepares := prepares w;
         steps := S (steps w) |}
  end.

(** ** Outcomes and the monad of the program *)

(** A call returns, leaves by a C++ exception, or never returns because the
    thread blocks on a mutex. *)
Inductive outcome (A : Type) :=
| Ret (a : A) (w : world)
| Throw (w : world)
| Hang (w : world).
Arguments Ret {A} a w.
Arguments Throw {A} w.
Arguments Hang {A} w.

Definition world_of {A} (o : outcome A) : world :=
  match o with
  | Ret _ w => w
  | Throw w => w
  | Hang w => w
  end.

Definition M (A : Type) : Type := world → outcome A.

Definition ret {A} (a : A) : M A := λ w, Ret a w.

Definition bind {A B} (m : M A) (f : A → M B) : M B :=
  λ w, match m w with
       | Ret a w' => f a w'
       | Throw w' => Throw w'
       | Hang w' => Hang w'
       end.

Notation "x <- m ;; k" := (bind m (λ x, k))
  (at level 100, m at next level, right associativity,
   format "'[v' x  <-  m  ;;  '/' k ']'").

Definition throw {A} : M A := λ w, Throw w.

(** [try { body } catch (...) { handler }] *)
Definition try_catch {A} (body handler : M A) : M A :=
  λ w, match body w with
       | Throw w' => handler w'
       | o => o
       end.

(** [j.get<std::string>()]: type_error for anything but a string. *)
Definition get_string (j : json) : M string :=
  match j with
  | JStr s => ret s
  | _ => throw
  end.

(** [j.get<bool>()]: type_error for anything but a boolean. *)
Definition get_bool (j : json) : M bool :=
  match j with
  | JBool b => ret b
  | _ => throw
  end.

(** [m.value(key, default)] with a string default: the member converted to a
    string when the object has it, the default when it does not; type_error
    when [m] is not an object or the member is not a string. *)
Definition json_value (m : json) (k : string) (dflt : string) : M string :=
  match m with
  | JObj o =>
      match members_find k o with
      | Some v => get_string v
      | None => ret dflt
      end
  | _ => throw
  end.

(** [payload[key] = v] on a value a handler builds: null becomes an object
    with the one member; type_error for a value that is neither null nor an
    object. *)
Definition json_set (k : string) (v : json) (payload : json) : M json :=
  match payload with
  | JNull => ret (JObj [(k, v)])
  | JObj m => ret (JObj (members_set k v m))
  | _ => throw
  end.

(** [payload.erase(key)]: type_error for anything but an object. *)
Definition json_erase (k : string) (payload : json) : M json :=
  match payload with
  | JObj m => ret (JObj (members_erase k m))
  | _ => throw
  end.

(** [if (j.contains(k)) payload[k] = j[k];] *)
Definition copy_if_contains (j : json) (k : string) (payload : json) : M json :=
  if contains j k then json_set k (json_at j k) payload else ret payload.

(** The body of an error response. *)
Definition error_json (msg : string) : json := JObj [("error", JStr msg)].

(** [res.set_content(j.dump(), "application/json")]: the response carries the
    serialization of [j], which stands here for it; [dump()] throws when a
    string of [j] is not well-formed UTF-8. *)
Definition dump (j : json) : M json :=
  if dumps j then ret j else throw.

(** ** The mutex, the clock and the SQLite interface *)

Section Program.

Variable p : platform.

(** [iso_now()]: one reading of the clock. *)
Definition iso_now : M string :=
  λ w, Ret (clock p (ticks w)) (tick w).

(** [db_mutex.lock()] *)
Definition lock : M unit :=
  λ w, if db_mutex w then
         match on_relock p with
         | Blocks => Hang w
         | Proceeds => Ret () w
         end
       else Ret () (set_mutex true w).

(** [std::lock_guard<std::mutex> lock(db_mutex)] for the rest of the scope
    [body]: locks on entry, unlocks when the scope is left, by return or by
    exception. *)
Definition lock_guard {A} (body : M A) : M A :=
  λ w, match lock w with
       | Ret _ w1 =>
           match body w1 with
           | Ret a w2 => Ret a (set_mutex false w2)
           | Throw w2 => Throw (set_mutex false w2)
           | Hang w2 => Hang w2
           end
       | Throw w1 => Throw w1
       | Hang w1 => Hang w1
       end.

(** One SQLite call of kind [a]: counts it and tells whether it succeeded. *)
Definition sqlite_ok (a : api) : M bool :=
  λ w, Ret (negb (fails p a (calls a w))) (count a w).

(** A connection ([sqlite3*]): in autocommit mode, inside a transaction that
    has not touched the database yet ([BEGIN] is deferred), or inside a
    transaction with its uncommitted view of the database. *)
Inductive sqlite3 :=
| Autocommit
| Begun
| Dirty (d : database).

(** [sqlite3_open(DB_FILE, &db)]: the connection, or nothing on error. *)
Definition sqlite3_open : M (option sqlite3) :=
  ok <- sqlite_ok Open;;
  ret (if ok then Some Autocommit else None).

(** [exec_sql(db, "BEGIN TRANSACTION;")]; the result is not looked at. *)
Definition exec_begin (db : sqlite3) : M sqlite3 :=
  ok <- sqlite_ok Exec;;
  ret (if ok then match db with Autocommit => Begun | _ => db end else db).

(** [exec_sql(db, "COMMIT;")]; the result is not looked at. *)
Definition exec_commit (db : sqlite3) : M sqlite3 :=
  ok <- sqlite_ok Exec;;
  if ok then
    match db with
    | Dirty d => λ w, Ret Autocommit (set_disk d w)
    | _ => ret Autocommit
    end
  else ret db.

(** [sqlite3_prepare_v2(db, sql, -1, &stmt, 0) == SQLITE_OK] *)
Definition sqlite3_prepare_v2 : M bool := sqlite_ok Prepare.

(** [sqlite3_step(stmt)] for a statement that writes; the result is not
    looked at. In autocommit mode the change is committed at once. *)
Definition sqlite3_step (stmt : database → database) (db : sqlite3) : M sqlite3 :=
  ok <- sqlite_ok Step;;
  if ok then
    match db with
    | Autocommit => λ w, Ret Autocommit (set_disk (stmt (disk w)) w)
    | Begun => λ w, Ret (Dirty (stmt (disk w))) w
    | Dirty d => ret (Dirty (stmt d))
    end
  else ret db.

(** [sqlite3_step(stmt)] for the INSERT into [chat_history]; the result is
    not looked at. When the table is full the statement fails by itself with
    SQLITE_FULL, and that error ends the transaction of the connection: what
    the transaction has written is rolled back and the connection is in
    autocommit mode again, so that the statements that follow are committed
    one by one. *)
Definition sqlite3_step_insert (stmt : database → database) (db : sqlite3)
    : M sqlite3 :=
  ok <- sqlite_ok Step;;
  if ok then
    match db with
    | Autocommit => λ w, Ret Autocommit (set_disk (stmt (disk w)) w)
    | Begun => λ w, Ret (if chat_history_full (disk w) then Autocommit
                         else Dirty (stmt (disk w))) w
    | Dirty d => ret (if chat_history_full d then Autocommit else Dirty (stmt d))
    end
  else ret db.

(** The database a connection reads. *)
Definition view (db : sqlite3) (w : world) : database :=
  match db with
  | Dirty d => d
  | _ => disk w
  end.

(** The cursor of a SELECT: [sqlite3_step(stmt) == SQLITE_ROW] once per row,
    until a call returns something else (the end of the rows or an error). *)
Fixpoint sqlite3_fetch {R} (rows : list R) : M (list R) :=
  ok <- sqlite_ok Step;;
  match rows with
  | [] => ret []
  | r :: rows' => if ok then (l <- sqlite3_fetch rows';; ret (r :: l)) else ret []
  end.

(** [sqlite3_close(db)]: an open transaction is rolled back. *)
Definition sqlite3_close (db : sqlite3) : M unit := ret ().

(** [sqlite3_step(stmt) == SQLITE_ROW] for a SELECT of at most one row. *)
Definition sqlite3_step_row {R} (q : database → option R) (db : sqlite3)
    : M (option R) :=
  ok <- sqlite_ok Step;;
  if ok then λ w, Ret (q (view db w)) w else ret None.

(** [while (sqlite3_step(stmt) == SQLITE_ROW)] over the rows of a SELECT. *)
Definition sqlite3_step_rows {R} (q : database → list R) (db : sqlite3)
    : M (list R) :=
  λ w, sqlite3_fetch (q (view db w)) w.

(** [reinterpret_cast<const char*>(sqlite3_column_text(stmt, i))] assigned to
    a JSON value: the string ends at the first NUL byte of the text, and a
    null pointer (the column is NULL) does not make a string. *)
Definition column_text (c : text) : M json :=
  match c with
  | Some s => ret (JStr (c_str s))
  | None => throw
  end.

(** [sqlite3_column_int(stmt, i)]: the stored 64-bit integer cut to the 32
    bits of an [int]. *)
Definition sqlite3_column_int (n : Z) : Z := (n + 2 ^ 31) mod 2 ^ 32 - 2 ^ 31.

(** [sqlite3_column_int(stmt, i) != 0]: NULL reads as 0. *)
Definition column_bool (c : integer) : json :=
  JBool (bool_decide (sqlite3_column_int (default 0 c) ≠ 0)).

(** ** The functions of the program *)

(** [ensure_user_exists]: default rows in [users] and [settings]. *)
Definition ensure_user_exists (user_id : string) : M unit :=
  lock_guard (
    db <- sqlite3_open;;
    match db with
    | None => ret ()
    | Some db =>
        db <- exec_begin db;;
        ok <- sqlite3_prepare_v2;;
        db <- (if ok then
                 now <- iso_now;;
                 sqlite3_step (sql_insert_or_ignore_users (c_str user_id)
                   (default_user (Some (c_str now)))) db
               else ret db);;
        ok <- sqlite3_prepare_v2;;
        db <- (if ok then
                 now <- iso_now;;
                 sqlite3_step (sql_insert_or_ignore_settings (c_str user_id)
                   (Some (c_str now))) db
               else ret db);;
        db <- exec_commit db;;
        sqlite3_close db
    end).

(** [get_user_settings]: the joined row as a JSON object, null without one.
    Column 0 of the row is the key the statement selected it by. *)
Definition get_user_settings (user_id : string) : M json :=
  lock_guard (
    _ <- ensure_user_exists user_id;;
    db <- sqlite3_open;;
    match db with
    | None => ret JNull
    | Some db =>
        ok <- sqlite3_prepare_v2;;
        out <- (if ok then
                  row <- sqlite3_step_row (sql_select_settings (c_str user_id)) db;;
                  match row with
                  | Some (u, s) =>
                      user_id <- column_text (Some (c_str user_id));;
                      name <- column_text (u_name u);;
                      email <- column_text (u_email u);;
                      avatar_url <- column_text (u_avatar_url u);;
                      theme_mode <- column_text (s_theme_mode s);;
                      language <- column_text (s_language s);;
                      app_version <- column_text (s_app_version s);;
                      updated_at <- column_text (s_updated_at s);;
                      ret (JObj [
                        ("user_id", user_id);
                        ("name", name);
                        ("email", email);
                        ("avatar_url", avatar_url);
                        ("theme_mode", theme_mode);
                        ("dark_mode", column_bool (s_dark_mode s));
                        ("notifications_enabled",
                           column_bool (s_notifications_enabled s));
                        ("chat_notifications", column_bool (s_chat_notifications s));
                        ("update_notifications",
                           column_bool (s_update_notifications s));
                        ("reminder_notifications",
                           column_bool (s_reminder_notifications s));
                        ("language", language);
                        ("biometric_lock", column_bool (s_biometric_lock s));
                        ("app_version", app_version);
                        ("updated_at", updated_at)])
                  | None => ret JNull
                  end
                else ret JNull);;
        _ <- sqlite3_close db;;
        ret out
    end).

(** [j.contains(k) ? j[k].get<std::string>() : ""] *)
Definition string_or_empty (j : json) (k : string) : M string :=
  if contains j k then get_string (json_at j k) else ret "".

(** [j.contains(k) ? (j[k].get<bool>() ? 1 : 0) : -1] *)
Definition int_or_minus_one (j : json) (k : string) : M Z :=
  if contains j k then b <- get_bool (json_at j k);; ret (if b then 1 else 0)
  else ret (-1).

(** [if (!s.empty()) sqlite3_bind_text(..., s.c_str(), -1, ...) else
    sqlite3_bind_null(...)] *)
Definition bind_text_unless_empty (s : string) : text :=
  if bool_decide (s = "") then None else Some (c_str s).

(** [if (n != -1) sqlite3_bind_int(...) else sqlite3_bind_null(...)] *)
Definition bind_int_unless_minus_one (n : Z) : integer :=
  if bool_decide (n = -1) then None else Some n.

(** [if (j.contains(k)) sqlite3_bind_text(...,
    j[k].get<std::string>().c_str(), -1, ...) else sqlite3_bind_null(...)] *)
Definition bind_text_if_contains (j : json) (k : string) : M text :=
  if contains j k then s <- get_string (json_at j k);; ret (Some (c_str s))
  else ret None.

(** [upsert_settings]: partial update of the profile and settings of a user. *)
Definition upsert_settings (user_id : string) (j : json) : M bool :=
  lock_guard (
    _ <- ensure_user_exists user_id;;
    db <- sqlite3_open;;
    match db with
    | None => ret false
    | Some db =>
        db <- exec_begin db;;
        db <- (if contains j "name" || contains j "email"
                  || contains j "avatar_url" then
                 ok <- sqlite3_prepare_v2;;
                 if ok then
                   name <- bind_text_if_contains j "name";;
                   email <- bind_text_if_contains j "email";;
                   avatar_url <- bind_text_if_contains j "avatar_url";;
                   sqlite3_step
                     (sql_update_users name email avatar_url (c_str user_id)) db
                 else ret db
               else ret db);;
        theme_mode <- string_or_empty j "theme_mode";;
        dark_mode <- int_or_minus_one j "dark_mode";;
        notifications_enabled <- int_or_minus_one j "notifications_enabled";;
        chat_notifications <- int_or_minus_one j "chat_notifications";;
        update_notifications <- int_or_minus_one j "update_notifications";;
        reminder_notifications <- int_or_minus_one j "reminder_notifications";;
        language <- string_or_empty j "language";;
        biometric_lock <- int_or_minus_one j "biometric_lock";;
        app_version <- string_or_empty j "app_version";;
        ok <- sqlite3_prepare_v2;;
        db <- (if ok then
                 now <- iso_now;;
                 sqlite3_step (sql_upsert_settings (c_str user_id)
                   {| s_theme_mode := bind_text_unless_empty theme_mode;
                      s_dark_mode := bind_int_unless_minus_one dark_mode;
                      s_notifications_enabled :=
                        bind_int_unless_minus_one notifications_enabled;
                      s_chat_notifications :=
                        bind_int_unless_minus_one chat_notifications;
                      s_update_notifications :=
                        bind_int_unless_minus_one update_notifications;
                      s_reminder_notifications :=
                        bind_int_unless_minus_one reminder_notifications;
                      s_language := bind_text_unless_empty language;
                      s_biometric_lock := bind_int_unless_minus_one biometric_lock;
                      s_app_version := bind_text_unless_empty app_version;
                      s_updated_at := Some (c_str now) |}) db
               else ret db);;
        db <- exec_commit db;;
        _ <- sqlite3_close db;;
        ret true
    end).

(** [append_chat_message] *)
Definition append_chat_message (user_id role message : string) : M bool :=
  lock_guard (
    _ <- ensure_user_exists user_id;;
    db <- sqlite3_open;;
    match db with
    | None => ret false
    | Some db =>
        ok <- sqlite3_prepare_v2;;
        db <- (if ok then
                 now <- iso_now;;
                 sqlite3_step_insert (sql_insert_chat (c_str user_id)
                   (c_str role) (c_str message) (c_str now)) db
               else ret db);;
        _ <- sqlite3_close db;;
        ret true
    end).

(** [clear_chat_history] *)
Definition clear_chat_history (user_id : string) : M bool :=
  lock_guard (
    db <- sqlite3_open;;
    match db with
    | None => ret false
    | Some db =>
        ok <- sqlite3_prepare_v2;;
        db <- (if ok then sqlite3_step (sql_delete_chat (c_str user_id)) db
               else ret db);;
        _ <- sqlite3_close db;;
        ret true
    end).

(** One element of the exported [chat_history] array: the three columns of
    a row as strings made from their [const char*]. *)
Definition chat_json (r : chat_row) : json :=
  JObj [("role", JStr (c_str (c_role r)));
        ("message", JStr (c_str (c_message r)));
        ("created_at", JStr (c_str (c_created_at r)))].

(** [export_user_data]: settings and chat history of a user as JSON. The lock
    is taken after [get_user_settings] has returned. *)
Definition export_user_data (user_id : string) : M json :=
  now <- iso_now;;
  s <- get_user_settings user_id;;
  let out := [("exported_at", JStr now); ("settings", s)] in
  lock_guard (
    db <- sqlite3_open;;
    match db with
    | None => ret (JObj out)
    | Some db =>
        ok <- sqlite3_prepare_v2;;
        out <- (if ok then
                  rows <- sqlite3_step_rows (sql_select_chat (c_str user_id)) db;;
                  ret (members_set "chat_history" (JArr (chat_json <$> rows)) out)
                else ret out);;
        _ <- sqlite3_close db;;
        ret (JObj out)
    end).

(** The loop [for (auto& m : payload["chat_history"])] of [import_user_data]. *)
Fixpoint import_messages (user_id : string) (ms : list json) (db : sqlite3)
    : M sqlite3 :=
  match ms with
  | [] => ret db
  | m :: ms' =>
      role <- json_value m "role" "user";;
      message <- json_value m "message" "";;
      now <- iso_now;;
      created_at <- json_value m "created_at" now;;
      db <- sqlite3_step_insert (sql_insert_chat (c_str user_id) (c_str role)
              (c_str message) (c_str created_at)) db;;
      import_messages user_id ms' db
  end.

(** [import_user_data]: merge the settings of the payload and insert its chat
    history, after wiping the stored history when [replace] is set. *)
Definition import_user_data (user_id : string) (payload : json) (replace : bool)
    : M bool :=
  lock_guard (
    _ <- ensure_user_exists user_id;;
    db <- sqlite3_open;;
    match db with
    | None => ret false
    | Some db =>
        db <- exec_begin db;;
        _ <- (if contains payload "settings" then
                upsert_settings user_id (json_at payload "settings")
              else ret true);;
        db <- (if contains payload "chat_history" then
                 db <- (if replace then
                          ok <- sqlite3_prepare_v2;;
                          if ok then
                            sqlite3_step (sql_delete_chat (c_str user_id)) db
                          else ret db
                        else ret db);;
                 ok <- sqlite3_prepare_v2;;
                 if ok then
                   import_messages user_id
                     (json_items (json_at payload "chat_history")) db
                 else ret db
               else ret db);;
        db <- exec_commit db;;
        _ <- sqlite3_close db;;
        ret true
    end).

(** The payload the [POST /theme] handler builds from the requested mode. *)
Definition theme_payload (mode : string) : json :=
  JObj [("theme_mode", JStr mode);
        ("dark_mode", JBool (bool_decide (mode = "Dark")))].

(** The handler of [POST /theme] on the parsed request body; the result is
    the HTTP status of the response. *)
Definition post_theme (j : json) : M Z :=
  try_catch (
    if negb (contains j "user_id") || negb (contains j "theme_mode") then ret 400
    else
      user_id <- get_string (json_at j "user_id");;
      mode <- get_string (json_at j "theme_mode");;
      _ <- upsert_settings user_id (theme_payload mode);;
      ret 200)
  (ret 400).

(** The handler of [GET /health]: no lock and no SQLite call. Its [dump()]
    does not throw: the two strings are a literal and the text [strftime]
    wrote, both ASCII. *)
Definition get_health : M (Z * json) :=
  now <- iso_now;;
  ret (200, JObj [("status", JStr "ok"); ("time", JStr now)]).

(** The handler of [GET /settings] on the value of the query parameter
    [user_id], empty when the request has none; the result is the HTTP status
    and the JSON value the response carries. The handler catches nothing. *)
Definition get_settings (user_id : string) : M (Z * json) :=
  if bool_decide (user_id = "") then ret (400, error_json "user_id required")
  else
    s <- get_user_settings user_id;;
    body <- dump s;;
    ret (200, body).

(** The handler of [POST /settings] on the parsed request body: the update is
    the member [settings] of the body, or the body itself without one, and in
    both cases without its key [user_id]. *)
Definition post_settings (j : json) : M Z :=
  try_catch (
    if negb (contains j "user_id") then ret 400
    else
      user_id <- get_string (json_at j "user_id");;
      payload <- json_erase "user_id" (default j (json_find j "settings"));;
      _ <- upsert_settings user_id payload;;
      ret 200)
  (ret 400).

(** The handler of [POST /profile]. *)
Definition post_profile (j : json) : M Z :=
  try_catch (
    if negb (contains j "user_id") then ret 400
    else
      user_id <- get_string (json_at j "user_id");;
      payload <- copy_if_contains j "name" JNull;;
      payload <- copy_if_contains j "email" payload;;
      payload <- copy_if_contains j "avatar_url" payload;;
      _ <- upsert_settings user_id payload;;
      ret 200)
  (ret 400).

(** The handler of [POST /notifications]. *)
Definition post_notifications (j : json) : M Z :=
  try_catch (
    if negb (contains j "user_id") then ret 400
    else
      user_id <- get_string (json_at j "user_id");;
      payload <- copy_if_contains j "notifications_enabled" JNull;;
      payload <- copy_if_contains j "chat_notifications" payload;;
      payload <- copy_if_contains j "update_notifications" payload;;
      payload <- copy_if_contains j "reminder_notifications" payload;;
      _ <- upsert_settings user_id payload;;
      ret 200)
  (ret 400).

(** The payload the [POST /security/biometric] handler builds. *)
Definition biometric_payload (enabled : bool) : json :=
  JObj [("biometric_lock", JBool enabled)].

(** The handler of [POST /security/biometric]. *)
Definition post_security_biometric (j : json) : M Z :=
  try_catch (
    if negb (contains j "user_id") || negb (contains j "enabled") then ret 400
    else
      user_id <- get_string (json_at j "user_id");;
      enabled <- get_bool (json_at j "enabled");;
      _ <- upsert_settings user_id (biometric_payload enabled);;
      ret 200)
  (ret 400).

(** The handler of [POST /history]: the three members are converted to
    strings before [append_chat_message] is entered. *)
Definition post_history (j : json) : M Z :=
  try_catch (
    if negb (contains j "user_id") || negb (contains j "role")
       || negb (contains j "message") then ret 400
    else
      user_id <- get_string (json_at j "user_id");;
      role <- get_string (json_at j "role");;
      message <- get_string (json_at j "message");;
      _ <- append_chat_message user_id role message;;
      ret 200)
  (ret 400).

(** The handler of [POST /history/clear]. *)
Definition post_history_clear (j : json) : M Z :=
  try_catch (
    if negb (contains j "user_id") then ret 400
    else
      user_id <- get_string (json_at j "user_id");;
      _ <- clear_chat_history user_id;;
      ret 200)
  (ret 400).

(** The handler of [GET /history/export]; it catches nothing. *)
Definition get_history_export (user_id : string) : M (Z * json) :=
  if bool_decide (user_id = "") then ret (400, error_json "user_id required")
  else
    out <- export_user_data user_id;;
    body <- dump out;;
    ret (200, body).

(** [!q.empty() && (q == "1" || q == "true")] on the query parameter
    [replace]. *)
Definition replace_param (q : string) : bool :=
  negb (bool_decide (q = ""))
  && (bool_decide (q = "1") || bool_decide (q = "true")).

(** The handler of [POST /history/import] on the query parameter [replace]
    and the parsed body; the whole body is the payload of the import. *)
Definition post_history_import (q : string) (j : json) : M Z :=
  try_catch (
    if negb (contains j "user_id") then ret 400
    else
      user_id <- get_string (json_at j "user_id");;
      _ <- import_user_data user_id j (replace_param q);;
      ret 200)
  (ret 400).

(** The handler of [GET /history]: the member [chat_history] of the export,
    null when the export has none. *)
Definition get_history (user_id : string) : M (Z * json) :=
  if bool_decide (user_id = "") then ret (400, error_json "user_id required")
  else
    data <- export_user_data user_id;;
    body <- dump (json_at data "chat_history");;
    ret (200, body).

End Program.

(** ** Reading the stored record of a user *)

(** The fields a settings or profile update recognises. *)
Inductive field :=
| F_theme_mode | F_dark_mode | F_notifications_enabled | F_chat_notifications
| F_update_notifications | F_reminder_notifications | F_language
| F_biometric_lock | F_app_version
| F_name | F_email | F_avatar_url.

(** The JSON key and column name of a field. *)
Definition field_name (f : field) : string :=
  match f with
  | F_theme_mode => "theme_mode"
  | F_dark_mode => "dark_mode"
  | F_notifications_enabled => "notifications_enabled"
  | F_chat_notifications => "chat_notifications"
  | F_update_notifications => "update_notifications"
  | F_reminder_notifications => "reminder_notifications"
  | F_language => "language"
  | F_biometric_lock => "biometric_lock"
  | F_app_version => "app_version"
  | F_name => "name"
  | F_email => "email"
  | F_avatar_url => "avatar_url"
  end.

(** The content of a cell, whatever the type of its column. *)
Inductive value :=
| VNull
| VInt (n : Z)
| VText (s : string).

Definition of_text (c : text) : value :=
  match c with
  | Some s => VText s
  | None => VNull
  end.

Definition of_integer (c : integer) : value :=
  match c with
  | Some n => VInt n
  | None => VNull
  end.

(** The cell of field [f] in the row of [user_id], when the row exists. *)
Definition stored (d : database) (user_id : string) (f : field) : option value :=
  match f with
  | F_theme_mode => of_text ∘ s_theme_mode <$> settings d !! user_id
  | F_dark_mode => of_integer ∘ s_dark_mode <$> settings d !! user_id
  | F_notifications_enabled =>
      of_integer ∘ s_notifications_enabled <$> settings d !! user_id
  | F_chat_notifications =>
      of_integer ∘ s_chat_notifications <$> settings d !! user_id
  | F_update_notifications =>
      of_integer ∘ s_update_notifications <$> settings d !! user_id
  | F_reminder_notifications =>
      of_integer ∘ s_reminder_notifications <$> settings d !! user_id
  | F_language => of_text ∘ s_language <$> settings d !! user_id
  | F_biometric_lock => of_integer ∘ s_biometric_lock <$> settings d !! user_id
  | F_app_version => of_text ∘ s_app_version <$> settings d !! user_id
  | F_name => of_text ∘ u_name <$> users d !! user_id
  | F_email => of_text ∘ u_email <$> users d !! user_id
  | F_avatar_url => of_text ∘ u_avatar_url <$> users d !! user_id
  end.

(** The parameters [upsert_settings] binds for the update [j] whenever it
    reaches the statement: the text of a profile key, the text of a settings
    key unless the string is empty, 0 or 1 for a boolean key, and NULL
    otherwise. A text is bound up to its first NUL byte. *)
Definition profile_param (j : json) (k : string) : text :=
  match json_find j k with
  | Some (JStr s) => Some (c_str s)
  | _ => None
  end.

Definition text_param (j : json) (k : string) : text :=
  match json_find j k with
  | Some (JStr s) => bind_text_unless_empty s
  | _ => None
  end.

Definition int_param (j : json) (k : string) : integer :=
  match json_find j k with
  | Some (JBool b) => Some (if b then 1 else 0)
  | _ => None
  end.

Definition settings_params (j : json) (now : string) : settings_row :=
  {| s_theme_mode := text_param j "theme_mode";
     s_dark_mode := int_param j "dark_mode";
     s_notifications_enabled := int_param j "notifications_enabled";
     s_chat_notifications := int_param j "chat_notifications";
     s_update_notifications := int_param j "update_notifications";
     s_reminder_notifications := int_param j "reminder_notifications";
     s_language := text_param j "language";
     s_biometric_lock := int_param j "biometric_lock";
     s_app_version := text_param j "app_version";
     s_updated_at := Some now |}.

(** The parameter bound for field [f]; NULL makes COALESCE keep the cell. *)
Definition bound (j : json) (f : field) : value :=
  match f with
  | F_theme_mode | F_language | F_app_version =>
      of_text (text_param j (field_name f))
  | F_name | F_email | F_avatar_url => of_text (profile_param j (field_name f))
  | _ => of_integer (int_param j (field_name f))
  end.

(** ** The merge that [upsert_settings] performs

    Where the call gets through the lock and no SQLite call fails, an update
    whose recognised keys have the JSON type the function reads is merged as
    follows into the rows with key [user_id], the text the statements are
    given as the name of the user. *)

Definition is_boolean (f : field) : bool :=
  match f with
  | F_dark_mode | F_notifications_enabled | F_chat_notifications
  | F_update_notifications | F_reminder_notifications | F_biometric_lock => true
  | _ => false
  end.

(** A recognised key holds a boolean for a boolean field, a string otherwise. *)
Definition well_typed_at (j : json) (f : field) : bool :=
  match json_find j (field_name f) with
  | None => true
  | Some (JBool _) => is_boolean f
  | Some (JStr _) => negb (is_boolean f)
  | Some _ => false
  end.

Definition well_typed (j : json) : Prop := ∀ f, well_typed_at j f = true.

(** The profile UPDATE runs only when the update has one of its keys. *)
Definition has_profile_key (j : json) : bool :=
  contains j "name" || contains j "email" || contains j "avatar_url".

Definition merge (user_id : string) (j : json) (now : string) (d : database)
    : database :=
  sql_upsert_settings user_id (settings_params j now)
    (if has_profile_key j then
       sql_update_users (profile_param j "name") (profile_param j "email")
         (profile_param j "avatar_url") user_id d
     else d).

(** COALESCE on the content of cells. *)
Definition value_or (x old : value) : value :=
  match x with
  | VNull => old
  | _ => x
  end.

(** ** What an import inserts *)

(** The member [k] of a message as [m.value(k, dflt)] reads it; nothing when
    the member is not a string. *)
Definition member_or (o : list (string * json)) (k dflt : string)
    : option string :=
  match members_find k o with
  | Some (JStr s) => Some s
  | Some _ => None
  | None => Some dflt
  end.

(** Role, message and creation time the loop binds for the message [m] read
    at time [now]; nothing when a reader throws. *)
Definition message_fields (m : json) (now : string)
    : option (string * string * string) :=
  match m with
  | JObj o =>
      match member_or o "role" "user", member_or o "message" "",
            member_or o "created_at" now with
      | Some r, Some t, Some c => Some (r, t, c)
      | _, _, _ => None
      end
  | _ => None
  end.

(** The fields of all messages, the first read at clock reading [t]. *)
Fixpoint imported (c : nat → string) (t : nat) (ms : list json)
    : option (list (string * string * string)) :=
  match ms with
  | [] => Some []
  | m :: ms' =>
      match message_fields m (c t), imported c (S t) ms' with
      | Some f, Some fs => Some (f :: fs)
      | _, _ => None
      end
  end.



(** The clock reading at which the loop of an import reads its first time. *)
Definition import_start (payload : json) (w : world) : nat :=
  if contains payload "settings" then 5 + ticks w else 2 + ticks w.

(** ** What the claims observe *)

Definition result_of {A} (o : outcome A) : option A :=
  match o with
  | Ret a _ => Some a
  | _ => None
  end.

(** What an export shows of the chat history of the rows with key
    [user_id]: role and message, in order. *)
Definition history (user_id : string) (d : database) : list (string * string) :=
  (λ r, (c_str (c_role r), c_str (c_message r))) <$> sql_select_chat user_id d.

(** Every chat message belongs to a user of table [users], as the foreign key
    of [chat_history] declares. *)
Definition referential (d : database) : Prop :=
  ∀ r, r ∈ chat_history d → is_Some (users d !! c_user_id r).

(** The table [chat_history] has room for [n] more rows: the [n] ids above
    the largest id it ever held, and above 0, do not pass [MAX_ROWID]. *)
Definition room (n : nat) (d : database) : Prop :=
  Z.max 0 (last_rowid d) + Z.of_nat n ≤ MAX_ROWID.

(** Both rows of the user exist. *)
Definition has_rows (user_id : string) (d : database) : Prop :=
  is_Some (users d !! user_id) ∧ is_Some (settings d !! user_id).

(** No text column of the joined row is NULL. *)
Definition no_null_text (u : users_row) (s : settings_row) : Prop :=
  is_Some (u_name u) ∧ is_Some (u_email u) ∧ is_Some (u_avatar_url u)
  ∧ is_Some (s_theme_mode s) ∧ is_Some (s_language s)
  ∧ is_Some (s_app_version s) ∧ is_Some (s_updated_at s).

(** The object [get_user_settings] builds from the joined row of a user;
    nothing when a text column is NULL, which no string can be made of. *)
Definition settings_json (user_id : string) (u : users_row) (s : settings_row)
    : option json :=
  match u_name u, u_email u, u_avatar_url u, s_theme_mode s, s_language s,
        s_app_version s, s_updated_at s with
  | Some name, Some email, Some avatar_url, Some theme_mode, Some language,
    Some app_version, Some updated_at =>
      Some (JObj [
        ("user_id", JStr (c_str user_id));
        ("name", JStr (c_str name));
        ("email", JStr (c_str email));
        ("avatar_url", JStr (c_str avatar_url));
        ("theme_mode", JStr (c_str theme_mode));
        ("dark_mode", column_bool (s_dark_mode s));
        ("notifications_enabled", column_bool (s_notifications_enabled s));
        ("chat_notifications", column_bool (s_chat_notifications s));
        ("update_notifications", column_bool (s_update_notifications s));
        ("reminder_notifications", column_bool (s_reminder_notifications s));
        ("language", JStr (c_str language));
        ("biometric_lock", column_bool (s_biometric_lock s));
        ("app_version", JStr (c_str app_version));
        ("updated_at", JStr (c_str updated_at))])
  | _, _, _, _, _, _, _ => None
  end.

(** The object [get_user_settings] returns for a user it has just
    provisioned. *)
Definition default_json (user_id updated_at : string) : json :=
  JObj [("user_id", JStr user_id);
        ("name", JStr "User Name");
        ("email", JStr "user@example.com");
        ("avatar_url", JStr "");
        ("theme_mode", JStr "System");
        ("dark_mode", JBool false);
        ("notifications_enabled", JBool true);
        ("chat_notifications", JBool true);
        ("update_notifications", JBool true);
        ("reminder_notifications", JBool false);
        ("language", JStr "English");
        ("biometric_lock", JBool false);
        ("app_version", JStr "1.0.0");
        ("updated_at", JStr updated_at)].

(** How [get_user_settings] shows a cell: a text as the string that ends at
    its first NUL byte, an integer as the boolean "not zero" of its low 32
    bits, and NULL in an integer column as false. *)
Definition shown (v : value) : json :=
  match v with
  | VText s => JStr (c_str s)
  | VInt n => JBool (bool_decide (sqlite3_column_int n ≠ 0))
  | VNull => JBool false
  end.




(** The three columns of a chat row that an export shows, as they are
    stored. *)
Definition row_fields (r : chat_row) : string * string * string :=
  (c_role r, c_message r, c_created_at r).


(** ** The write operations *)

Inductive write_op :=
| Upsert (user_id : string) (j : json)
| Append (user_id role message : string)
| Clear (user_id : string)
| Import (user_id : string) (payload : json) (replace : bool).

Definition run_write (p : platform) (op : write_op) : M bool :=
  match op with
  | Upsert user_id j => upsert_settings p user_id j
  | Append user_id role message => append_chat_message p user_id role message
  | Clear user_id => clear_chat_history p user_id
  | Import user_id payload replace => import_user_data p user_id payload replace
  end.

Definition op_user (op : write_op) : string :=
  match op with
  | Upsert user_id _ | Append user_id _ _ | Clear user_id
  | Import user_id _ _ => user_id
  end.

(** The operations that call [ensure_user_exists] before they open their own
    connection. *)
Definition provisions (op : write_op) : bool :=
  match op with
  | Clear _ => false
  | _ => true
  end.

(** The rank, among the calls of [sqlite3_open], of the one that opens the
    connection of the operation itself. *)
Definition own_open (op : write_op) (w : world) : nat :=
  if provisions op then S (opens w) else opens w.


(** ** The endpoints

    A request as its handler sees it: the query parameters it reads, and the
    parsed body. The authorization hook that runs first and [json::parse]
    belong to the libraries and are not part of the model. *)

Inductive request :=
| GET_health
| GET_settings (user_id : string)
| POST_settings (body : json)
| POST_profile (body : json)
| POST_notifications (body : json)
| POST_theme (body : json)
| POST_security_biometric (body : json)
| POST_history (body : json)
| POST_history_clear (body : json)
| GET_history_export (user_id : string)
| POST_history_import (replace : string) (body : json)
| GET_history (user_id : string).

(** The status of a response that also carries a value. *)
Definition status_of (m : M (Z * json)) : M Z :=
  r <- m;; ret r.1.

(** The HTTP status a request is answered with. *)
Definition handle (p : platform) (r : request) : M Z :=
  match r with
  | GET_health => status_of (get_health p)
  | GET_settings user_id => status_of (get_settings p user_id)
  | POST_settings body => post_settings p body
  | POST_profile body => post_profile p body
  | POST_notifications body => post_notifications p body
  | POST_theme body => post_theme p body
  | POST_security_biometric body => post_security_biometric p body
  | POST_history body => post_history p body
  | POST_history_clear body => post_history_clear p body
  | GET_history_export user_id => status_of (get_history_export p user_id)
  | POST_history_import replace body => post_history_import p replace body
  | GET_history user_id => status_of (get_history p user_id)
  end.

(** The body has a string member [user_id]. *)
Definition has_user_id (j : json) : bool :=
  match json_find j "user_id" with
  | Some (JStr _) => true
  | _ => false
  end.

(** The request names a user: a query parameter [user_id] that is not empty
    for a GET request, a string member [user_id] of the body for a POST
    request. [GET /health] needs none. *)
Definition names_user (r : request) : bool :=
  match r with
  | GET_health => true
  | GET_settings user_id | GET_history_export user_id | GET_history user_id =>
      negb (bool_decide (user_id = ""))
  | POST_settings body | POST_profile body | POST_notifications body
  | POST_theme body | POST_security_biometric body | POST_history body
  | POST_history_clear body | POST_history_import _ body => has_user_id body
  end.

(** The fields an endpoint is meant to write. *)
Definition may_change (r : request) (f : field) : bool :=
  match r with
  | POST_settings _ | POST_history_import _ _ => true
  | POST_profile _ =>
      match f with
      | F_name | F_email | F_avatar_url => true
      | _ => false
      end
  | POST_notifications _ =>
      match f with
      | F_notifications_enabled | F_chat_notifications
      | F_update_notifications | F_reminder_notifications => true
      | _ => false
      end
  | POST_theme _ =>
      match f with
      | F_theme_mode | F_dark_mode => true
      | _ => false
      end
  | POST_security_biometric _ =>
      match f with
      | F_biometric_lock => true
      | _ => false
      end
  | _ => false
  end.

(** The value has no member outside the keys [ks]. *)
Definition only_keys (ks : list string) (j : json) : Prop :=
  ∀ k, k ∉ ks → json_find j k = None.

(** Everything the database holds for one user: the row in [users], the row
    in [settings] and the chat history in the order of an export. *)
Definition user_data (u : string) (d : database)
    : option users_row * option settings_row * list chat_row :=
  (users d !! u, settings d !! u, sql_select_chat u d).

(** Database [d] is [d0] with, at most, default rows added for [user_id]: the
    chat history and its counter are the same, and so is every row of
    [users] and [settings] that [d0] has or that belongs to another user. *)
Definition only_provisioned (user_id : string) (d0 d : database) : Prop :=
  chat_history d = chat_history d0
  ∧ sqlite_sequence d = sqlite_sequence d0
  ∧ (∀ u, u ≠ user_id ∨ is_Some (users d0 !! u) → users d !! u = users d0 !! u)
  ∧ (∀ u, u ≠ user_id ∨ is_Some (settings d0 !! u) →
       settings d !! u = settings d0 !! u).

(** ** Concurrent callers

    Every operation holds [db_mutex] from its first statement to its last, so
    the calls of several threads run one at a time: a waiting call starts
    when the mutex is free and runs until it returns, throws or blocks for
    ever. A call that blocks keeps the mutex, and no other call ever starts. *)

Record system := {
  shared : world;
  waiting : list write_op
}.

Inductive sched (p : platform) : system → system → Prop :=
| sched_call ops1 op ops2 w :
    db_mutex w = false →
    sched p {| shared := w; waiting := ops1 ++ op :: ops2 |}
            {| shared := world_of (run_write p op w);
               waiting := ops1 ++ ops2 |}.

(** ** Platforms and worlds *)

(** A platform on which no SQLite call fails. *)
Definition fault_free (r : relock) (c : nat → string) : platform :=
  {| on_relock := r; clock := c; fails := λ _ _, false |}.

(** A clock that always shows the same instant. *)
Definition example_clock : nat → string := λ _, "2025-01-01T00:00:00Z".

(** A platform on which one call fails: the [n]-th of kind [a]. *)
Definition one_failure (r : relock) (a : api) (n : nat) : platform :=
  {| on_relock := r; clock := example_clock;
     fails := λ a' n', bool_decide (a' = a ∧ n' = n) |}.

(** A world in which nothing has happened yet. *)
Definition world_with (d : database) : world :=
  {| disk := d; db_mutex := false; ticks := 0; opens := 0; execs := 0;
     prepares := 0; steps := 0 |}.

(** What a call of [ensure_user_exists] that meets no error commits, for the
    texts it binds. *)
Definition provision (user_id : string) (t1 t2 : string) (d : database)
    : database :=
  sql_insert_or_ignore_settings user_id (Some t2)
    (sql_insert_or_ignore_users user_id (default_user (Some t1)) d).

(** The world such a call of [ensure_user_exists(user_id)] leaves. *)
Definition provisioned (c : nat → string) (user_id : string) (w : world)
    : world :=
  {| disk := provision (c_str user_id) (c_str (c (ticks w)))
               (c_str (c (S (ticks w)))) (disk w);
     db_mutex := false;
     ticks := S (S (ticks w));
     opens := S (opens w);
     execs := S (S (execs w));
     prepares := S (S (prepares w));
     steps := S (S (steps w)) |}.

(** ** A stored user

    User [u1] with the settings the claims speak about changed from their
    defaults (French, dark theme) and a chat history of two messages. *)

Definition example_settings : settings_row :=
  {| s_theme_mode := Some "Dark"; s_dark_mode := Some 1;
     s_notifications_enabled := Some 1; s_chat_notifications := Some 1;
     s_update_notifications := Some 1; s_reminder_notifications := Some 0;
     s_language := Some "French"; s_biometric_lock := Some 0;
     s_app_version := Some "1.0.0";
     s_updated_at := Some "2024-12-31T23:59:59Z" |}.

Definition message_A : chat_row :=
  {| c_id := 1; c_user_id := "u1"; c_role := "user"; c_message := "A";
     c_created_at := "2024-12-31T23:00:00Z" |}.

Definition message_B : chat_row :=
  {| c_id := 2; c_user_id := "u1"; c_role := "bot"; c_message := "B";
     c_created_at := "2024-12-31T23:00:01Z" |}.

Definition example_db : database :=
  {| users := {[ "u1" := default_user (Some "2024-12-31T22:00:00Z") ]};
     settings := {[ "u1" := example_settings ]};
     chat_history := [message_A; message_B];
     sqlite_sequence := 2 |}.

Definition message_C : json := JObj [("role", JStr "user"); ("message", JStr "C")].
Definition message_D : json := JObj [("role", JStr "bot"); ("message", JStr "D")].

(** A [user_id] with a NUL byte, as the escape [\u0000] in a JSON body or
    [%00] in a query string gives it: [u1], the NUL byte, [x]. *)
Definition nul_id : string := "u1" +:+ String Ascii.zero "x".

(** ** A program logic for the monad *)

(** [hoare P m Q X]: from a world in [P], [m] returns [a] in a world in [Q a],
    or throws or hangs in a world in [X]. *)
Definition hoare {A} (P : world → Prop) (m : M A) (Q : A → world → Prop)
    (X : world → Prop) : Prop :=
  ∀ w, P w → match m w with
             | Ret a w' => Q a w'
             | Throw w' => X w'
             | Hang w' => X w'
             end.

(** A predicate that does not look at the mutex. *)
Definition mutex_blind (P : world → Prop) : Prop :=
  ∀ w b, P w → P (set_mutex b w).

Class Stable (J : world → Prop) (I : database → Prop) : Prop := {
  stable_mutex : mutex_blind J;
  stable_tick : ∀ w, J w → J (tick w);
  stable_count : ∀ a w, a ≠ Open → J w → J (count a w);
  stable_commit : ∀ w d, J w → I d → J (set_disk d w);
  stable_view : ∀ w, J w → I (disk w)
}.

Class StableOpen (J : world → Prop) : Prop :=
  stable_open : ∀ w, J w → J (count Open w).

Definition inv (J : world → Prop) {A} (m : M A) (φ : A → Prop) : Prop :=
  hoare J m (λ a w, J w ∧ φ a) J.

(** The uncommitted view of a connection satisfies [I]. *)
Definition conn_ok (I : database → Prop) (db : sqlite3) : Prop :=
  match db with
  | Dirty d => I d
  | _ => True
  end.

(** [answers m Q T]: in every world [m] returns a result in [Q], or throws,
    and then [T] holds; it never blocks. *)
Definition answers {A} (m : M A) (Q : A → Prop) (T : Prop) : Prop :=
  ∀ w, match m w with
       | Ret a _ => Q a
       | Throw _ => T
       | Hang _ => False
       end.

(** * Theory *)

(** ** C strings *)

Lemma c_str_idemp s : c_str (c_str s) = c_str s.
Proof.
  induction s as [|a s IH]; [done|]. simpl.
  case_bool_decide as Ha; [done|]. simpl.
  by rewrite (bool_decide_eq_false_2 _ Ha), IH.
Qed.

(** ** Rules of the program logic *)

Lemma hoare_ret {A} (a : A) (P : world → Prop) Q X :
  (∀ w, P w → Q a w) → hoare P (ret a) Q X.
Proof. intros H w Hw. apply H, Hw. Qed.

Lemma hoare_throw {A} (P : world → Prop) (Q : A → world → Prop) X :
  (∀ w, P w → X w) → hoare P throw Q X.
Proof. intros H w Hw. apply H, Hw. Qed.

Lemma hoare_bind {A B} (m : M A) (f : A → M B) P Q R X :
  hoare P m Q X → (∀ a, hoare (Q a) (f a) R X) → hoare P (bind m f) R X.
Proof.
  intros Hm Hf w Hw. unfold bind. specialize (Hm w Hw).
  destruct (m w) as [a w'| |]; [by apply Hf|done..].
Qed.

Lemma hoare_conseq {A} (m : M A) (P P' : world → Prop) (Q Q' : A → world → Prop)
    (X X' : world → Prop) :
  hoare P' m Q' X' → (∀ w, P w → P' w) → (∀ a w, Q' a w → Q a w) →
  (∀ w, X' w → X w) → hoare P m Q X.
Proof.
  intros Hm HP HQ HX w Hw. specialize (Hm w (HP w Hw)).
  destruct (m w); auto.
Qed.

Lemma hoare_pure {A} (m : M A) (φ : Prop) (P : world → Prop) Q X :
  (φ → hoare P m Q X) → hoare (λ w, φ ∧ P w) m Q X.
Proof. intros H w [Hφ Hw]. by apply H. Qed.

Lemma hoare_try_catch {A} (body handler : M A) P Q X Y :
  hoare P body Q Y → hoare Y handler Q X → (∀ w, Y w → X w) →
  hoare P (try_catch body handler) Q X.
Proof.
  intros Hb Hh HY w Hw. unfold try_catch. specialize (Hb w Hw).
  destruct (body w); [done| by apply Hh | by apply HY].
Qed.

Lemma hoare_lock_guard p {A} (body : M A) (P : world → Prop) Q X :
  mutex_blind P → (∀ a, mutex_blind (Q a)) → mutex_blind X →
  (∀ w, P w → X w) →
  hoare P body Q X → hoare P (lock_guard p body) Q X.
Proof.
  intros HP HQ HX HPX Hb w Hw. unfold lock_guard, lock.
  destruct (db_mutex w).
  - destruct (on_relock p); [by apply HPX|].
    specialize (Hb w Hw). destruct (body w); [by apply HQ|by apply HX|done].
  - specialize (Hb _ (HP w true Hw)).
    destruct (body (set_mutex true w)); [by apply HQ|by apply HX|done].
Qed.

(** ** Invariants of the world

    [J] is an invariant of the world that no clock reading, no SQLite call
    and no lock operation disturbs, and [I] a property of a database that the
    statements of interest preserve, so that a connection may commit its
    view. [inv J m φ] says that [m] keeps [J] however it ends, and returns a
    result in [φ]. *)

Section Invariant.

Context (p : platform) (J : world → Prop) (I : database → Prop).
Context `{!Stable J I}.

Lemma inv_ret {A} (a : A) (φ : A → Prop) : φ a → inv J (ret a) φ.
Proof. intros H'. by apply hoare_ret. Qed.

Lemma inv_throw {A} (φ : A → Prop) : inv J throw φ.
Proof. by apply hoare_throw. Qed.

Lemma inv_bind {A B} (m : M A) (f : A → M B) (φ : A → Prop) (ψ : B → Prop) :
  inv J m φ → (∀ a, φ a → inv J (f a) ψ) → inv J (bind m f) ψ.
Proof.
  intros Hm Hf. eapply hoare_bind; [exact Hm|].
  intros a w [Hw Ha]. by apply Hf.
Qed.

Lemma inv_mono {A} (m : M A) (φ ψ : A → Prop) :
  inv J m φ → (∀ a, φ a → ψ a) → inv J m ψ.
Proof.
  intros Hm H'. eapply hoare_conseq; [exact Hm|done| |done].
  intros a w [??]. auto.
Qed.

Lemma inv_lock_guard {A} (body : M A) (φ : A → Prop) :
  inv J body φ → inv J (lock_guard p body) φ.
Proof.
  intros H'. apply hoare_lock_guard; [apply stable_mutex| |apply stable_mutex|done|done].
  intros a w b [??]. split; [by apply stable_mutex|done].
Qed.

Lemma inv_try_catch {A} (body handler : M A) (φ : A → Prop) :
  inv J body φ → inv J handler φ → inv J (try_catch body handler) φ.
Proof. intros Hb Hh. by eapply hoare_try_catch. Qed.

Lemma inv_iso_now : inv J (iso_now p) (λ _, True).
Proof. intros w Hw. simpl. split; [by apply stable_tick|done]. Qed.

Lemma inv_sqlite_ok a : a ≠ Open → inv J (sqlite_ok p a) (λ _, True).
Proof. intros Ha w Hw. simpl. split; [by apply stable_count|done]. Qed.

Lemma inv_sqlite3_prepare_v2 : inv J (sqlite3_prepare_v2 p) (λ _, True).
Proof. by apply inv_sqlite_ok. Qed.

Lemma inv_sqlite3_open `{!StableOpen J} :
  inv J (sqlite3_open p) (from_option (conn_ok I) True).
Proof.
  intros w Hw. unfold sqlite3_open, bind, sqlite_ok, ret.
  split; [by apply stable_open|]. by destruct (negb _).
Qed.

Lemma inv_exec_begin db : conn_ok I db → inv J (exec_begin p db) (conn_ok I).
Proof.
  intros Hdb w Hw. unfold exec_begin, bind, sqlite_ok, ret.
  split; [by apply stable_count|]. destruct (negb _); [by destruct db|done].
Qed.

Lemma inv_exec_commit db : conn_ok I db → inv J (exec_commit p db) (conn_ok I).
Proof.
  intros Hdb w Hw. unfold exec_commit, bind, sqlite_ok, ret.
  assert (J (count Exec w)) as Hc by by apply stable_count.
  destruct (negb _); [|done].
  destruct db; (split; [|done]); [done..|].
  by apply stable_commit.
Qed.

Lemma inv_sqlite3_step stmt db :
  (∀ d, I d → I (stmt d)) → conn_ok I db →
  inv J (sqlite3_step p stmt db) (conn_ok I).
Proof.
  intros Hs Hdb w Hw. unfold sqlite3_step, bind, sqlite_ok, ret.
  assert (J (count Step w)) as Hc by by apply stable_count.
  pose proof (stable_view _ Hc) as Hv.
  destruct (negb _); [|done].
  destruct db; (split; [|by simpl; auto]); [|done..].
  apply stable_commit; auto.
Qed.

Lemma inv_sqlite3_step_insert stmt db :
  (∀ d, I d → I (stmt d)) → conn_ok I db →
  inv J (sqlite3_step_insert p stmt db) (conn_ok I).
Proof.
  intros Hs Hdb w Hw. unfold sqlite3_step_insert, bind, sqlite_ok, ret.
  assert (J (count Step w)) as Hc by by apply stable_count.
  pose proof (stable_view _ Hc) as Hv.
  destruct (negb _); [|done].
  destruct db; [split; [|done]|split; [done|]..].
  - apply stable_commit; auto.
  - destruct (chat_history_full _); simpl; auto.
  - destruct (chat_history_full _); simpl; auto.
Qed.

Lemma inv_sqlite3_close db : inv J (sqlite3_close db) (λ _, True).
Proof. by apply inv_ret. Qed.

Lemma inv_sqlite3_step_row {R} (q : database → option R) db :
  inv J (sqlite3_step_row p q db) (λ _, True).
Proof.
  intros w Hw. unfold sqlite3_step_row, bind, sqlite_ok, ret.
  assert (J (count Step w)) as Hc by by apply stable_count.
  by destruct (negb _).
Qed.

Lemma inv_sqlite3_fetch {R} (rows : list R) :
  inv J (sqlite3_fetch p rows) (λ _, True).
Proof.
  induction rows as [|r rows IH]; simpl.
  - eapply inv_bind; [by apply inv_sqlite_ok|]. intros _ _. by apply inv_ret.
  - eapply inv_bind; [by apply inv_sqlite_ok|]. intros [] _; [|by apply inv_ret].
    eapply inv_bind; [exact IH|]. intros l _. by apply inv_ret.
Qed.

Lemma inv_sqlite3_step_rows {R} (q : database → list R) db :
  inv J (sqlite3_step_rows p q db) (λ _, True).
Proof. intros w Hw. unfold sqlite3_step_rows. by apply inv_sqlite3_fetch. Qed.

Lemma inv_get_string j (φ : string → Prop) :
  (∀ s, j = JStr s → φ s) → inv J (get_string j) φ.
Proof. intros H'. destruct j; try apply inv_throw. by apply inv_ret, H'. Qed.

Lemma inv_get_bool j (φ : bool → Prop) :
  (∀ b, j = JBool b → φ b) → inv J (get_bool j) φ.
Proof. intros H'. destruct j; try apply inv_throw. by apply inv_ret, H'. Qed.

Lemma inv_json_value m k dflt : inv J (json_value m k dflt) (λ _, True).
Proof.
  destruct m; try apply inv_throw. simpl.
  destruct (members_find k m); [by apply inv_get_string|by apply inv_ret].
Qed.

Lemma inv_column_text c : inv J (column_text c) (λ _, True).
Proof. destruct c; [by apply inv_ret|apply inv_throw]. Qed.

Lemma inv_dump j : inv J (dump j) (λ _, True).
Proof. unfold dump. destruct (dumps j); [by apply inv_ret|apply inv_throw]. Qed.

End Invariant.

(** The profile UPDATE with three NULL parameters rewrites the row as it is. *)
Lemma sql_update_users_null user_id d :
  sql_update_users None None None user_id d = d.
Proof.
  unfold sql_update_users. destruct (users d !! user_id) as [r|] eqn:E; [|done].
  destruct d as [us ss ch sq], r; simpl in *. unfold set_users; simpl.
  by rewrite insert_id.
Qed.

(** What the JSON readers of [upsert_settings] return. *)
Lemma contains_true j k :
  contains j k = true → json_find j k = Some (json_at j k).
Proof.
  unfold contains, json_at. intros [v ->]%bool_decide_eq_true. done.
Qed.

Lemma contains_false j k : contains j k = false → json_find j k = None.
Proof.
  unfold contains. intros H%bool_decide_eq_false.
  destruct (json_find j k); [|done]. destruct H. eauto.
Qed.

Lemma inv_bind_text_if_contains J j k :
  inv J (bind_text_if_contains j k) (λ r, r = profile_param j k).
Proof.
  unfold bind_text_if_contains, profile_param.
  destruct (contains j k) eqn:E.
  - rewrite (contains_true _ _ E).
    eapply (inv_bind _ _ _ (λ s, json_at j k = JStr s));
      [by apply inv_get_string|].
    intros s ->. by apply inv_ret.
  - rewrite (contains_false _ _ E). by apply inv_ret.
Qed.

Lemma inv_string_or_empty J j k :
  inv J (string_or_empty j k)
    (λ s, bind_text_unless_empty s = text_param j k).
Proof.
  unfold string_or_empty, text_param.
  destruct (contains j k) eqn:E.
  - rewrite (contains_true _ _ E). apply inv_get_string. by intros s ->.
  - rewrite (contains_false _ _ E). by apply inv_ret.
Qed.

Lemma inv_int_or_minus_one J j k :
  inv J (int_or_minus_one j k)
    (λ n, bind_int_unless_minus_one n = int_param j k).
Proof.
  unfold int_or_minus_one, int_param.
  destruct (contains j k) eqn:E.
  - rewrite (contains_true _ _ E).
    eapply (inv_bind _ _ _ (λ b, json_at j k = JBool b));
      [by apply inv_get_bool|].
    intros b ->. apply inv_ret. by destruct b.
  - rewrite (contains_false _ _ E). by apply inv_ret.
Qed.

(** One step of a proof of [inv J m φ] along the structure of [m]; [I] is the
    database property the connections carry. *)
Ltac inv_step I :=
  lazymatch goal with
  | |- inv _ (ret _) _ => apply inv_ret
  | |- inv _ throw _ => apply inv_throw
  | |- inv _ (lock_guard _ _) _ => eapply (inv_lock_guard _ _ I)
  | |- inv _ (try_catch _ _) _ => apply inv_try_catch
  | |- inv _ (bind (iso_now _) _) _ =>
      eapply inv_bind; [eapply (inv_iso_now _ _ I)|intros ? _]
  | |- inv _ (bind (sqlite3_prepare_v2 _) _) _ =>
      eapply inv_bind; [eapply (inv_sqlite3_prepare_v2 _ _ I)|intros ? _]
  | |- inv _ (bind (sqlite3_close _) _) _ =>
      eapply inv_bind; [eapply inv_sqlite3_close|intros ? _]
  | |- inv _ (bind (sqlite3_open _) _) _ =>
      eapply inv_bind;
        [eapply (inv_sqlite3_open _ _ I)|intros [?|] ?; simpl in *]
  | |- inv _ (bind (exec_begin _ _) _) _ =>
      eapply inv_bind; [eapply (inv_exec_begin _ _ I); by eauto|intros ? ?]
  | |- inv _ (bind (exec_commit _ _) _) _ =>
      eapply inv_bind; [eapply (inv_exec_commit _ _ I); by eauto|intros ? ?]
  | |- inv _ (bind (json_value _ _ _) _) _ =>
      eapply inv_bind; [eapply inv_json_value|intros ? _]
  | |- inv _ (bind (column_text _) _) _ =>
      eapply inv_bind; [eapply inv_column_text|intros ? _]
  | |- inv _ (bind (dump _) _) _ =>
      eapply inv_bind; [eapply inv_dump|intros ? _]
  | |- inv _ (bind (sqlite3_step_row _ _ _) _) _ =>
      eapply inv_bind; [eapply (inv_sqlite3_step_row _ _ I)|intros ? _]
  | |- inv _ (bind (sqlite3_step_rows _ _ _) _) _ =>
      eapply inv_bind; [eapply (inv_sqlite3_step_rows _ _ I)|intros ? _]
  | |- inv _ (bind (bind_text_if_contains _ _) _) _ =>
      eapply inv_bind; [eapply inv_bind_text_if_contains|intros ? ?; cbv beta in *]
  | |- inv _ (bind (string_or_empty _ _) _) _ =>
      eapply inv_bind; [eapply inv_string_or_empty|intros ? ?; cbv beta in *]
  | |- inv _ (bind (int_or_minus_one _ _) _) _ =>
      eapply inv_bind; [eapply inv_int_or_minus_one|intros ? ?; cbv beta in *]
  | |- inv _ (bind (get_string _) _) _ =>
      eapply (inv_bind _ _ _ (λ _, True));
        [by eapply inv_get_string|intros ? _]
  | |- inv _ (sqlite3_step _ _ _) _ =>
      eapply (inv_sqlite3_step _ _ I); [|by eauto]
  | |- inv _ (sqlite3_step_insert _ _ _) _ =>
      eapply (inv_sqlite3_step_insert _ _ I); [|by eauto]
  | |- inv _ (sqlite3_close _) _ => eapply inv_sqlite3_close
  | |- inv _ (@bind sqlite3 _ _ _) _ =>
      eapply (inv_bind _ _ _ (conn_ok I)); [|intros ? ?]
  | |- inv _ (bind _ _) _ =>
      eapply (inv_bind _ _ _ (λ _, True)); [|intros ? _]
  | |- inv _ (if ?b then _ else _) _ => destruct b
  | |- inv _ (match ?o with Some _ => _ | None => _ end) _ => destruct o
  end.

Section Functions.

Context (p : platform) (J : world → Prop) (I : database → Prop).
Context `{!Stable J I} `{!StableOpen J}.

Lemma ensure_user_exists_inv user_id :
  (∀ r d, I d → I (sql_insert_or_ignore_users (c_str user_id) r d)) →
  (∀ t d, I d → I (sql_insert_or_ignore_settings (c_str user_id) t d)) →
  inv J (ensure_user_exists p user_id) (λ _, True).
Proof.
  intros HU HS. unfold ensure_user_exists.
  repeat (inv_step I; eauto).
Qed.

Lemma upsert_settings_inv user_id j :
  (∀ r d, I d → I (sql_insert_or_ignore_users (c_str user_id) r d)) →
  (∀ t d, I d → I (sql_insert_or_ignore_settings (c_str user_id) t d)) →
  (∀ d, I d → I (sql_update_users (profile_param j "name")
                   (profile_param j "email") (profile_param j "avatar_url")
                   (c_str user_id) d)) →
  (∀ now d, I d → I (sql_upsert_settings (c_str user_id) (settings_params j now) d)) →
  inv J (upsert_settings p user_id j) (λ _, True).
Proof.
  intros HU0 HS0 HU HS. unfold upsert_settings.
  pose proof (ensure_user_exists_inv user_id HU0 HS0).
  repeat (inv_step I; eauto).
  - subst. exact HU.
  - intros d Hd.
    repeat match goal with
           | H : _ = text_param _ _ |- _ => rewrite H; clear H
           | H : _ = int_param _ _ |- _ => rewrite H; clear H
           end.
    by apply (HS _ d).
Qed.

Lemma append_chat_message_inv user_id role message :
  (∀ r d, I d → I (sql_insert_or_ignore_users (c_str user_id) r d)) →
  (∀ t d, I d → I (sql_insert_or_ignore_settings (c_str user_id) t d)) →
  (∀ t d, I d → I (sql_insert_chat (c_str user_id) (c_str role) (c_str message) t d)) →
  inv J (append_chat_message p user_id role message) (λ _, True).
Proof.
  intros HU0 HS0 HC. unfold append_chat_message.
  pose proof (ensure_user_exists_inv user_id HU0 HS0).
  repeat (inv_step I; eauto).
Qed.

Lemma clear_chat_history_inv user_id :
  (∀ d, I d → I (sql_delete_chat (c_str user_id) d)) →
  inv J (clear_chat_history p user_id) (λ _, True).
Proof.
  intros HD. unfold clear_chat_history.
  repeat (inv_step I; eauto).
Qed.

Lemma import_messages_inv user_id ms db :
  (∀ r m t d, I d → I (sql_insert_chat (c_str user_id) r m t d)) →
  conn_ok I db →
  inv J (import_messages p user_id ms db) (conn_ok I).
Proof.
  intros HC. revert db. induction ms as [|m ms IH]; intros db Hdb; simpl.
  - by apply inv_ret.
  - repeat (inv_step I; eauto).
Qed.

Lemma import_user_data_inv user_id payload replace :
  (∀ r d, I d → I (sql_insert_or_ignore_users (c_str user_id) r d)) →
  (∀ t d, I d → I (sql_insert_or_ignore_settings (c_str user_id) t d)) →
  (∀ d, I d → I (sql_update_users
                   (profile_param (json_at payload "settings") "name")
                   (profile_param (json_at payload "settings") "email")
                   (profile_param (json_at payload "settings") "avatar_url")
                   (c_str user_id) d)) →
  (∀ now d, I d → I (sql_upsert_settings (c_str user_id)
                       (settings_params (json_at payload "settings") now) d)) →
  (∀ d, I d → I (sql_delete_chat (c_str user_id) d)) →
  (∀ r m t d, I d → I (sql_insert_chat (c_str user_id) r m t d)) →
  inv J (import_user_data p user_id payload replace) (λ _, True).
Proof.
  intros HU0 HS0 HU HS HD HC. unfold import_user_data.
  pose proof (ensure_user_exists_inv user_id HU0 HS0).
  pose proof (upsert_settings_inv user_id _ HU0 HS0 HU HS).
  pose proof (λ ms db, import_messages_inv user_id ms db HC).
  repeat (inv_step I; eauto).
Qed.

Lemma get_user_settings_inv user_id :
  (∀ r d, I d → I (sql_insert_or_ignore_users (c_str user_id) r d)) →
  (∀ t d, I d → I (sql_insert_or_ignore_settings (c_str user_id) t d)) →
  inv J (get_user_settings p user_id) (λ _, True).
Proof.
  intros HU0 HS0. unfold get_user_settings.
  pose proof (ensure_user_exists_inv user_id HU0 HS0).
  repeat (first [inv_step I
                |lazymatch goal with
                 | |- inv _ (match ?x with (_, _) => _ end) _ => destruct x
                 end]; eauto).
Qed.

Lemma export_user_data_inv user_id :
  (∀ r d, I d → I (sql_insert_or_ignore_users (c_str user_id) r d)) →
  (∀ t d, I d → I (sql_insert_or_ignore_settings (c_str user_id) t d)) →
  inv J (export_user_data p user_id) (λ _, True).
Proof.
  intros HU0 HS0. unfold export_user_data.
  pose proof (get_user_settings_inv user_id HU0 HS0).
  repeat (inv_step I; eauto).
Qed.

Lemma post_theme_inv j :
  (∀ u r d, I d → I (sql_insert_or_ignore_users u r d)) →
  (∀ u t d, I d → I (sql_insert_or_ignore_settings u t d)) →
  (∀ u m now d, I d →
     I (sql_upsert_settings u (settings_params (theme_payload m) now) d)) →
  inv J (post_theme p j) (λ _, True).
Proof.
  intros HU0 HS0 HS. unfold post_theme.
  assert (∀ u m, inv J (upsert_settings p u (theme_payload m)) (λ _, True)).
  { intros u m. apply upsert_settings_inv; eauto.
    intros d Hd. by rewrite (sql_update_users_null (c_str u) d : sql_update_users
      (profile_param (theme_payload m) "name")
      (profile_param (theme_payload m) "email")
      (profile_param (theme_payload m) "avatar_url") (c_str u) d = d). }
  repeat (inv_step I; eauto).
Qed.

End Functions.

(** ** Properties of the committed database *)

(** A property of the committed database is an invariant of the world. *)
#[global] Instance disk_stable (I : database → Prop) :
  Stable (λ w, I (disk w)) I.
Proof. by split; [intros w b ?|intros w ?|intros [] w ??|intros w d ??|intros w ?]. Qed.

#[global] Instance disk_stable_open (I : database → Prop) :
  StableOpen (λ w, I (disk w)).
Proof. by intros w ?. Qed.

(** From an invariant to the world an outcome leaves. *)
Lemma inv_world_of (J : world → Prop) {A} (m : M A) (φ : A → Prop) w :
  inv J m φ → J w → J (world_of (m w)).
Proof.
  intros Hm Hw. specialize (Hm w Hw). destruct (m w); simpl; tauto.
Qed.

(** *** What each statement does to the stored fields of a user *)

Ltac stored_cases u u' E :=
  let Hv := fresh "Hv" in
  intros Hv; simpl in *;
  first
    [ done
    | destruct (decide (u' = u)) as [->|];
      [ rewrite E in Hv; simpl in Hv;
        first [done|rewrite lookup_insert_eq; simpl; congruence]
      | by rewrite lookup_insert_ne ] ].

Lemma stored_insert_or_ignore_users d u u' r f v :
  stored d u f = Some v →
  stored (sql_insert_or_ignore_users u' r d) u f = Some v.
Proof.
  unfold sql_insert_or_ignore_users.
  destruct (users d !! u') eqn:E; [done|].
  destruct f; stored_cases u u' E.
Qed.

Lemma stored_insert_or_ignore_settings d u u' t f v :
  stored d u f = Some v →
  stored (sql_insert_or_ignore_settings u' t d) u f = Some v.
Proof.
  unfold sql_insert_or_ignore_settings.
  destruct (settings d !! u') eqn:E; [done|].
  destruct f; stored_cases u u' E.
Qed.

(** The INSERT into [chat_history] touches no other table. *)
Lemma sql_insert_chat_users u r m t d : users (sql_insert_chat u r m t d) = users d.
Proof. unfold sql_insert_chat. by destruct (chat_history_full d). Qed.

Lemma sql_insert_chat_settings u r m t d :
  settings (sql_insert_chat u r m t d) = settings d.
Proof. unfold sql_insert_chat. by destruct (chat_history_full d). Qed.

Lemma stored_insert_chat d u u' r m t f :
  stored (sql_insert_chat u' r m t d) u f = stored d u f.
Proof.
  destruct f; cbn [stored];
    by rewrite ?sql_insert_chat_users, ?sql_insert_chat_settings.
Qed.

Lemma stored_delete_chat d u u' f :
  stored (sql_delete_chat u' d) u f = stored d u f.
Proof. by destruct f. Qed.

#[local] Arguments text_param : simpl never.
#[local] Arguments int_param : simpl never.
#[local] Arguments profile_param : simpl never.

Ltac unbound_case Hb :=
  lazymatch type of Hb with
  | of_text ?x = VNull => destruct x; [discriminate Hb|]
  | of_integer ?x = VNull => destruct x; [discriminate Hb|]
  end.

(** The profile UPDATE keeps every cell whose parameter is NULL. *)
Lemma stored_update_users j d u u' f v :
  bound j f = VNull →
  stored d u f = Some v →
  stored (sql_update_users (profile_param j "name") (profile_param j "email")
            (profile_param j "avatar_url") u' d) u f = Some v.
Proof.
  unfold sql_update_users, bound. intros Hb.
  destruct (users d !! u') as [r|] eqn:E; [|done].
  destruct f; simpl in *; try unbound_case Hb; stored_cases u u' E.
Qed.

(** The settings upsert keeps every cell whose parameter is NULL. *)
Lemma stored_upsert_settings j now d u u' f v :
  bound j f = VNull →
  stored d u f = Some v →
  stored (sql_upsert_settings u' (settings_params j now) d) u f = Some v.
Proof.
  unfold sql_upsert_settings, bound. intros Hb.
  destruct (settings d !! u') as [r|] eqn:E.
  - destruct f; simpl in *; try unbound_case Hb; stored_cases u u' E.
  - destruct f; stored_cases u u' E.
Qed.

(** *** Frame of [upsert_settings] *)

(** Whatever the platform does, a field for which [upsert_settings] binds
    NULL keeps its stored cell. *)
Lemma upsert_settings_keeps_unbound p user_id j w u f v :
  bound j f = VNull →
  stored (disk w) u f = Some v →
  stored (disk (world_of (upsert_settings p user_id j w))) u f = Some v.
Proof.
  intros Hb Hv. set (I := λ d, stored d u f = Some v).
  apply (inv_world_of (λ w, I (disk w)) _ (λ _, True)); [|done].
  apply (@upsert_settings_inv p _ I (disk_stable I) (disk_stable_open I)).
  - intros r d. apply stored_insert_or_ignore_users.
  - intros t d. apply stored_insert_or_ignore_settings.
  - intros d. by apply stored_update_users.
  - intros now d. by apply stored_upsert_settings.
Qed.

(** A field whose key the update does not contain is bound to NULL. *)
Lemma bound_absent j f : contains j (field_name f) = false → bound j f = VNull.
Proof.
  intros H%contains_false. unfold bound, text_param, profile_param, int_param.
  rewrite H. by destruct f.
Qed.

(** C1. For every platform, world, user and update [j], a recognised settings
    or profile field whose key [j] does not contain keeps the cell it had
    before the call to [upsert_settings], however the call ends: only the
    fields present in the update (and [updated_at]) may change. This holds
    for the row of every user [u], the one the call names included. *)
Theorem upsert_settings_preserves_absent_fields p user_id j w u f v :
  contains j (field_name f) = false →
  stored (disk w) u f = Some v →
  stored (disk (world_of (upsert_settings p user_id j w))) u f = Some v.
Proof. intros Hc. apply upsert_settings_keeps_unbound, bound_absent, Hc. Qed.

(** ** The lock taken twice *)

(** Wherever the thread already owns [db_mutex], or the mutex lets its owner
    through, a call of [ensure_user_exists] that meets no error returns, with
    the default rows committed and the mutex released. *)
Lemma ensure_user_exists_fault_free r c user_id w :
  db_mutex w = false ∨ r = Proceeds →
  ensure_user_exists (fault_free r c) user_id w
  = Ret () (provisioned c user_id w).
Proof.
  intros H. destruct w as [d m t o e q s]. simpl in H.
  destruct m; [destruct H as [H| ->]; [done|]|]; reflexivity.
Qed.

(** On a platform whose mutex blocks its owner, [ensure_user_exists] called
    with the mutex held never returns and changes nothing. *)
Lemma ensure_user_exists_blocks p user_id w :
  on_relock p = Blocks → db_mutex w = true →
  ensure_user_exists p user_id w = Hang w.
Proof.
  intros Hp Hm. unfold ensure_user_exists, lock_guard, lock.
  by rewrite Hm, Hp.
Qed.

(** A function that takes the lock and then calls [ensure_user_exists] never
    returns there: the thread blocks on the mutex it owns, before any SQLite
    call, and the mutex stays locked. *)
Lemma lock_guard_ensure_blocks p {A} user_id (k : unit → M A) w :
  on_relock p = Blocks →
  lock_guard p (bind (ensure_user_exists p user_id) k) w
  = Hang (set_mutex true w).
Proof.
  intros Hp. unfold lock_guard at 1. unfold lock at 1.
  destruct (db_mutex w) eqn:Hm.
  - rewrite Hp. by destruct w; simpl in *; subst.
  - unfold bind at 1. by rewrite ensure_user_exists_blocks.
Qed.

Lemma upsert_settings_blocks p user_id j w :
  on_relock p = Blocks →
  upsert_settings p user_id j w = Hang (set_mutex true w).
Proof. apply (lock_guard_ensure_blocks p user_id). Qed.

Lemma append_chat_message_blocks p user_id role message w :
  on_relock p = Blocks →
  append_chat_message p user_id role message w = Hang (set_mutex true w).
Proof. apply (lock_guard_ensure_blocks p user_id). Qed.

Lemma import_user_data_blocks p user_id payload replace w :
  on_relock p = Blocks →
  import_user_data p user_id payload replace w = Hang (set_mutex true w).
Proof. apply (lock_guard_ensure_blocks p user_id). Qed.

Lemma get_user_settings_blocks p user_id w :
  on_relock p = Blocks →
  get_user_settings p user_id w = Hang (set_mutex true w).
Proof. apply (lock_guard_ensure_blocks p user_id). Qed.

Lemma export_user_data_blocks p user_id w :
  on_relock p = Blocks →
  export_user_data p user_id w = Hang (set_mutex true (tick w)).
Proof.
  intros Hp. unfold export_user_data, bind at 1, iso_now.
  unfold bind at 1. by rewrite get_user_settings_blocks.
Qed.

(** ** The claims on the stored user *)

(** The witness of C1: the example of the specification. With [language]
    stored as French, the update [{dark_mode: true}] leaves it French. *)
Lemma upsert_settings_preserves_absent_fields_witness :
  contains (JObj [("dark_mode", JBool true)]) (field_name F_language) = false
  ∧ stored (disk (world_with example_db)) "u1" F_language
    = Some (VText "French")
  ∧ stored (disk (world_of (upsert_settings (fault_free Proceeds example_clock)
      "u1" (JObj [("dark_mode", JBool true)]) (world_with example_db))))
      "u1" F_language = Some (VText "French").
Proof.
  split; [reflexivity|]. split; [reflexivity|].
  apply upsert_settings_preserves_absent_fields; reflexivity.
Defined.

(** *** Empty strings *)

(** An empty string for a text field of the settings is bound as NULL. *)
Lemma bound_empty_text j f :
  f = F_theme_mode ∨ f = F_language ∨ f = F_app_version →
  json_find j (field_name f) = Some (JStr "") →
  bound j f = VNull.
Proof.
  unfold bound, text_param. by intros [->|[->| ->]]; simpl; intros ->.
Qed.

(** Whatever the platform does, [upsert_settings] never replaces the stored
    text of a settings field by an empty string the update supplies. *)
Lemma upsert_settings_keeps_empty_text p user_id j w f v :
  f = F_theme_mode ∨ f = F_language ∨ f = F_app_version →
  json_find j (field_name f) = Some (JStr "") →
  stored (disk w) user_id f = Some v →
  stored (disk (world_of (upsert_settings p user_id j w))) user_id f = Some v.
Proof. intros Hf Hj. by apply upsert_settings_keeps_unbound, bound_empty_text. Qed.

(** C2 (fails on the code). An update that supplies the empty string for
    [theme_mode], [language] and [app_version] returns true where the call
    gets through the lock, and the three cells still hold Dark, French and
    1.0.0: the empty string is treated as an omitted key. *)
Theorem upsert_settings_empty_text_not_stored :
  let j := JObj [("theme_mode", JStr ""); ("language", JStr "");
                 ("app_version", JStr "")] in
  let o := upsert_settings (fault_free Proceeds example_clock) "u1" j
             (world_with example_db) in
  result_of o = Some true
  ∧ stored (disk (world_of o)) "u1" F_theme_mode = Some (VText "Dark")
  ∧ stored (disk (world_of o)) "u1" F_language = Some (VText "French")
  ∧ stored (disk (world_of o)) "u1" F_app_version = Some (VText "1.0.0").
Proof. vm_compute. done. Qed.

(** The sibling path of the same function stores an empty profile text. *)
Example upsert_settings_empty_name_stored :
  let o := upsert_settings (fault_free Proceeds example_clock) "u1"
             (JObj [("name", JStr "")]) (world_with example_db) in
  result_of o = Some true
  ∧ stored (disk (world_of o)) "u1" F_name = Some (VText "").
Proof. vm_compute. done. Qed.

(** *** Explicit false *)

(** C3 (fails on the code). On the documented build the mutex blocks its
    owner: [upsert_settings] with [{notifications_enabled: false}] never
    returns, and the cell that held 1 still holds 1. *)
Theorem upsert_settings_false_never_stored :
  let j := JObj [("notifications_enabled", JBool false)] in
  let o := upsert_settings (fault_free Blocks example_clock) "u1" j
             (world_with example_db) in
  o = Hang (set_mutex true (world_with example_db))
  ∧ stored (disk (world_with example_db)) "u1" F_notifications_enabled
    = Some (VInt 1)
  ∧ stored (disk (world_of o)) "u1" F_notifications_enabled = Some (VInt 1).
Proof. vm_compute. done. Qed.

(** Where the mutex lets its owner through, the statement itself stores the
    explicit false. *)
Example upsert_settings_false_stored_if_reentrant :
  let o := upsert_settings (fault_free Proceeds example_clock) "u1"
             (JObj [("notifications_enabled", JBool false)])
             (world_with example_db) in
  result_of o = Some true
  ∧ stored (disk (world_of o)) "u1" F_notifications_enabled = Some (VInt 0).
Proof. vm_compute. done. Qed.

(** *** The theme handler *)

(** C7 (fails on the code). [POST /theme] with the empty string as theme
    answers 200 where the call gets through the lock, and the stored theme is
    still Dark, not the given value, while [dark_mode] has become 0. *)
Theorem post_theme_empty_not_stored :
  let body := JObj [("user_id", JStr "u1"); ("theme_mode", JStr "")] in
  let o := post_theme (fault_free Proceeds example_clock) body
             (world_with example_db) in
  result_of o = Some 200
  ∧ stored (disk (world_of o)) "u1" F_theme_mode = Some (VText "Dark")
  ∧ stored (disk (world_of o)) "u1" F_dark_mode = Some (VInt 0).
Proof. vm_compute. done. Qed.

(** On the documented build the handler never answers at all. *)
Example post_theme_blocks :
  let body := JObj [("user_id", JStr "u1"); ("theme_mode", JStr "Light")] in
  let o := post_theme (fault_free Blocks example_clock) body
             (world_with example_db) in
  o = Hang (set_mutex true (world_with example_db))
  ∧ stored (disk (world_of o)) "u1" F_theme_mode = Some (VText "Dark").
Proof. vm_compute. done. Qed.

(** *** Import *)

(** C6 (fails on the code). On the documented build [import_user_data] never
    returns, with or without [replace], and the stored history is still A, B:
    neither C alone nor A, B, C. *)
Theorem import_user_data_never_imports replace :
  let payload := JObj [("chat_history", JArr [message_C])] in
  let o := import_user_data (fault_free Blocks example_clock) "u1" payload
             replace (world_with example_db) in
  o = Hang (set_mutex true (world_with example_db))
  ∧ history "u1" (disk (world_of o)) = [("user", "A"); ("bot", "B")].
Proof. by destruct replace; vm_compute. Qed.

(** Where the mutex lets its owner through, the two modes do what the
    specification says. *)
Example import_user_data_if_reentrant :
  let p := fault_free Proceeds example_clock in
  let payload := JObj [("chat_history", JArr [message_C])] in
  history "u1" (disk (world_of
    (import_user_data p "u1" payload true (world_with example_db))))
  = [("user", "C")]
  ∧ history "u1" (disk (world_of
      (import_user_data p "u1" payload false (world_with example_db))))
    = [("user", "A"); ("bot", "B"); ("user", "C")].
Proof. vm_compute. done. Qed.

(** C4 (fails on the code). The import of a payload with settings and two
    messages is not one atomic unit. When the insertion of the second message
    fails, the call returns true with the language changed and the first
    message stored; when the final COMMIT fails, no message is stored and
    the language is changed all the same: [upsert_settings] has committed it
    on a connection of its own. *)
Theorem import_user_data_not_atomic :
  let payload := JObj [("settings", JObj [("language", JStr "German")]);
                       ("chat_history", JArr [message_C; message_D])] in
  let o1 := import_user_data (one_failure Proceeds Step 6) "u1" payload false
              (world_with example_db) in
  let o2 := import_user_data (one_failure Proceeds Exec 7) "u1" payload false
              (world_with example_db) in
  (result_of o1 = Some true
   ∧ stored (disk (world_of o1)) "u1" F_language = Some (VText "German")
   ∧ history "u1" (disk (world_of o1))
     = [("user", "A"); ("bot", "B"); ("user", "C")])
  ∧ (result_of o2 = Some true
     ∧ stored (disk (world_of o2)) "u1" F_language = Some (VText "German")
     ∧ history "u1" (disk (world_of o2)) = [("user", "A"); ("bot", "B")]).
Proof. vm_compute. done. Qed.

(** ** The write operations and what they return *)

#[global] Instance opens_stable n : Stable (λ w, opens w = n) (λ _, True).
Proof. by split; [intros w b ?|intros w ?|intros [] w ??|intros w d ??|intros w ?]. Qed.

#[global] Instance true_stable : Stable (λ _, True) (λ _, True).
Proof. by split. Qed.

#[global] Instance true_stable_open : StableOpen (λ _, True).
Proof. by intros w ?. Qed.

Lemma inv_hoare (J : world → Prop) {A} (m : M A) (φ : A → Prop)
    (P : world → Prop) (Q : A → world → Prop) (X : world → Prop) :
  inv J m φ → (∀ w, P w → J w) → (∀ a w, J w → φ a → Q a w) →
  (∀ w, J w → X w) → hoare P m Q X.
Proof.
  intros Hm HP HQ HX. eapply hoare_conseq; [exact Hm|done| |done].
  intros a w [??]. by apply HQ.
Qed.

Lemma hoare_pure_r {A} (m : M A) (φ : Prop) (P : world → Prop) Q X :
  (φ → hoare P m Q X) → hoare (λ w, P w ∧ φ) m Q X.
Proof. intros H w [Hw Hφ]. by apply H. Qed.

Ltac blind := by unfold mutex_blind; intros; simpl in *; auto.

Section Opens.

Variable p : platform.

(** [sqlite3_open] consumes one rank and fails when the platform says so. *)
Lemma sqlite3_open_spec n X :
  hoare (λ w, opens w = n) (sqlite3_open p)
    (λ o w, opens w = S n
            ∧ o = if fails p Open n then None else Some Autocommit) X.
Proof.
  intros w Hw. unfold sqlite3_open, bind, sqlite_ok, ret. simpl.
  rewrite Hw. by destruct (fails p Open n).
Qed.

(** [ensure_user_exists] opens exactly one connection. *)
Lemma ensure_user_exists_opens user_id n :
  hoare (λ w, opens w = n) (ensure_user_exists p user_id)
    (λ _ w, opens w = S n) (λ _, True).
Proof.
  unfold ensure_user_exists. apply hoare_lock_guard; [blind..|].
  eapply hoare_bind; [apply sqlite3_open_spec|]. intros o.
  apply hoare_pure_r. intros ->.
  destruct (fails p Open n); [by apply hoare_ret|].
  apply (inv_hoare (λ w, opens w = S n) _ (λ _, True)); [|done..].
  repeat (inv_step (λ _ : database, True); eauto).
Qed.

(** Once its own connection is open, nothing makes an operation return
    false. *)
Lemma write_result_after_open op n :
  hoare (λ w, opens w = n) (run_write p op)
    (λ b _, b = negb (fails p Open (if provisions op then S n else n)))
    (λ _, True).
Proof.
  assert (∀ u j, inv (λ _, True) (upsert_settings p u j) (λ _, True)) as Hup.
  { intros u j. apply (upsert_settings_inv p (λ _, True) (λ _, True)); auto. }
  assert (∀ u ms db, inv (λ _, True) (import_messages p u ms db)
                       (conn_ok (λ _, True))) as Him.
  { intros u ms db.
    apply (import_messages_inv p (λ _, True) (λ _, True)); [auto|by destruct db]. }
  destruct op as [u j|u r m|u|u j r]; simpl;
    unfold upsert_settings, append_chat_message, clear_chat_history,
      import_user_data;
    (apply hoare_lock_guard; [blind..|]);
    try (eapply hoare_bind; [apply ensure_user_exists_opens|intros []]);
    (eapply hoare_bind; [apply sqlite3_open_spec|intros o]);
    apply hoare_pure_r; intros ->;
    (destruct (fails p Open _); [by apply hoare_ret|]);
    (apply (inv_hoare (λ _, True) _ (λ b, b = true)); [|by auto..]);
    repeat (inv_step (λ _ : database, True); eauto);
    by simpl.
Qed.

End Opens.

(** C8, amended. Whenever a write operation returns, it returns false exactly
    when the call of [sqlite3_open] for its own connection failed; a failure
    of [ensure_user_exists], of a BEGIN or COMMIT, of a prepare or of a step
    never shows in the result. *)
Theorem write_result_is_own_open p op w b w' :
  run_write p op w = Ret b w' →
  b = negb (fails p Open (own_open op w)).
Proof.
  intros H. pose proof (write_result_after_open p op (opens w) w eq_refl) as Hh.
  by rewrite H in Hh.
Qed.

(** The witness of C8, amended: the second call of [sqlite3_open] in an
    [upsert_settings] is the one for its own connection; when it fails the
    call returns false. *)
Lemma write_result_is_own_open_witness :
  let p := one_failure Proceeds Open 1 in
  let op := Upsert "u1" (JObj [("dark_mode", JBool true)]) in
  result_of (run_write p op (world_with example_db)) = Some false
  ∧ false = negb (fails p Open (own_open op (world_with example_db))).
Proof.
  split; [reflexivity|].
  eapply (write_result_is_own_open (one_failure Proceeds Open 1)
            (Upsert "u1" (JObj [("dark_mode", JBool true)]))
            (world_with example_db)).
  vm_compute. reflexivity.
Defined.

(** C8 as stated fails. A prepare that fails in [clear_chat_history] is not
    reported: the call returns true and the history is still there. An open
    that fails inside the [ensure_user_exists] of [upsert_settings] is not
    reported either: the call returns true. *)
Lemma storage_failure_returns_true :
  let p1 := one_failure Blocks Prepare 0 in
  let o1 := clear_chat_history p1 "u1" (world_with example_db) in
  let p2 := one_failure Proceeds Open 0 in
  let o2 := upsert_settings p2 "u1" (JObj [("dark_mode", JBool false)])
              (world_with example_db) in
  (fails p1 Prepare 0 = true ∧ result_of o1 = Some true
   ∧ history "u1" (disk (world_of o1)) = [("user", "A"); ("bot", "B")])
  ∧ (fails p2 Open 0 = true ∧ result_of o2 = Some true).
Proof. vm_compute. done. Qed.

(** ** Provisioning *)




(** After provisioning both rows of the user exist. *)
Lemma provision_users user_id t1 t2 d :
  is_Some (users (provision user_id t1 t2 d) !! user_id).
Proof.
  unfold provision.
  set (d' := sql_insert_or_ignore_users user_id (default_user (Some t1)) d).
  assert (is_Some (users d' !! user_id)) as Hu.
  { unfold d', sql_insert_or_ignore_users.
    destruct (users d !! user_id) eqn:E; [by rewrite E|].
    simpl. rewrite lookup_insert_eq. eauto. }
  unfold sql_insert_or_ignore_settings. by destruct (settings d' !! user_id).
Qed.

Lemma provision_settings user_id t1 t2 d :
  is_Some (settings (provision user_id t1 t2 d) !! user_id).
Proof.
  unfold provision.
  set (d' := sql_insert_or_ignore_users user_id (default_user (Some t1)) d).
  unfold sql_insert_or_ignore_settings.
  destruct (settings d' !! user_id) eqn:E; [by rewrite E|].
  simpl. rewrite lookup_insert_eq. eauto.
Qed.









(** ** Operations that provision and the one that does not *)

Lemma sql_delete_chat_no_rows user_id d :
  referential d → users d !! user_id = None → sql_delete_chat user_id d = d.
Proof.
  intros Hr Hu. unfold sql_delete_chat. destruct d as [us ss ch sq].
  simpl in *. f_equal. unfold referential in Hr. simpl in Hr.
  induction ch as [|r ch IH]; [done|].
  rewrite filter_cons_True.
  - f_equal. apply IH. intros r' Hr'. apply Hr. by right.
  - intros Heq. destruct (Hr r) as [u Hu']; [by left|]. congruence.
Qed.

(** No statement of the program removes a row of [users] or [settings]. *)
Lemma has_rows_insert_or_ignore_users u u' r d :
  has_rows u d → has_rows u (sql_insert_or_ignore_users u' r d).
Proof.
  unfold has_rows, sql_insert_or_ignore_users.
  destruct (users d !! u') eqn:E; [done|]. simpl. intros [Hu Hs].
  split; [|done]. destruct (decide (u' = u)) as [->|];
    [rewrite lookup_insert_eq; eauto|by rewrite lookup_insert_ne].
Qed.

Lemma has_rows_insert_or_ignore_settings u u' t d :
  has_rows u d → has_rows u (sql_insert_or_ignore_settings u' t d).
Proof.
  unfold has_rows, sql_insert_or_ignore_settings.
  destruct (settings d !! u') eqn:E; [done|]. simpl. intros [Hu Hs].
  split; [done|]. destruct (decide (u' = u)) as [->|];
    [rewrite lookup_insert_eq; eauto|by rewrite lookup_insert_ne].
Qed.

Lemma has_rows_update_users u u' n e a d :
  has_rows u d → has_rows u (sql_update_users n e a u' d).
Proof.
  unfold has_rows, sql_update_users.
  destruct (users d !! u') eqn:E; [|done]. simpl. intros [Hu Hs].
  split; [|done]. destruct (decide (u' = u)) as [->|];
    [rewrite lookup_insert_eq; eauto|by rewrite lookup_insert_ne].
Qed.

Lemma has_rows_upsert_settings u u' x d :
  has_rows u d → has_rows u (sql_upsert_settings u' x d).
Proof.
  unfold has_rows, sql_upsert_settings.
  destruct (settings d !! u') eqn:E; simpl; intros [Hu Hs];
    (split; [done|]); (destruct (decide (u' = u)) as [->|];
    [rewrite lookup_insert_eq; eauto|by rewrite lookup_insert_ne]).
Qed.

Lemma has_rows_insert_chat u u' r m t d :
  has_rows u d → has_rows u (sql_insert_chat u' r m t d).
Proof.
  unfold has_rows. by rewrite sql_insert_chat_users, sql_insert_chat_settings.
Qed.

Lemma has_rows_provision u c w : has_rows (c_str u) (disk (provisioned c u w)).
Proof. split; [apply provision_users|apply provision_settings]. Qed.

(** On a platform without errors whose mutex lets its owner through, a
    function that takes the lock and calls [ensure_user_exists] continues in
    the provisioned world. *)
Lemma lock_guard_ensure_fault_free c user_id {A} (k : unit → M A) w :
  db_mutex w = false →
  lock_guard (fault_free Proceeds c)
    (bind (ensure_user_exists (fault_free Proceeds c) user_id) k) w
  = match k () (provisioned c user_id w) with
    | Ret a w' => Ret a (set_mutex false w')
    | Throw w' => Throw (set_mutex false w')
    | Hang w' => Hang w'
    end.
Proof.
  intros Hm. unfold lock_guard at 1. unfold lock at 1. rewrite Hm.
  unfold bind at 1. by rewrite ensure_user_exists_fault_free by auto.
Qed.

Lemma after_provisioning (J : world → Prop) c user_id {A} (k : unit → M A)
    (φ : A → Prop) w :
  db_mutex w = false → mutex_blind J →
  inv J (k ()) φ → J (provisioned c user_id w) →
  J (world_of (lock_guard (fault_free Proceeds c)
       (bind (ensure_user_exists (fault_free Proceeds c) user_id) k) w)).
Proof.
  intros Hm HJ Hk Hw. rewrite lock_guard_ensure_fault_free by done.
  specialize (Hk _ Hw). destruct (k () _); simpl; [apply HJ; tauto|by apply HJ|done].
Qed.

(** Every write operation but [clear_chat_history] leaves the rows of its
    user in place, however it ends. *)
Lemma run_write_provisions c op w :
  provisions op = true → db_mutex w = false →
  has_rows (c_str (op_user op))
    (disk (world_of (run_write (fault_free Proceeds c) op w))).
Proof.
  intros Hop Hm. set (p := fault_free Proceeds c).
  set (I := has_rows (c_str (op_user op))).
  assert (∀ u j, inv (λ w, I (disk w)) (upsert_settings p u j) (λ _, True))
    as Hup.
  { intros u j.
    apply (@upsert_settings_inv p _ I (disk_stable I) (disk_stable_open I));
      intros; first [by apply has_rows_insert_or_ignore_users
                    |by apply has_rows_insert_or_ignore_settings
                    |by apply has_rows_update_users
                    |by apply has_rows_upsert_settings]. }
  assert (∀ u ms db, conn_ok I db →
            inv (λ w, I (disk w)) (import_messages p u ms db) (conn_ok I))
    as Him.
  { intros u ms db.
    apply (@import_messages_inv p _ I (disk_stable I)).
    intros. by apply has_rows_insert_chat. }
  destruct op as [u j|u r m|u|u j r]; [| |done|]; simpl in *;
    apply (after_provisioning (λ w, I (disk w)) c u _ (λ _, True));
    try done; try apply has_rows_provision; try blind;
    repeat (inv_step I; eauto); try done;
    try (intros; by apply has_rows_insert_chat).
  - intros d. apply has_rows_update_users.
  - intros d. apply has_rows_upsert_settings.
Qed.

(** [clear_chat_history] never writes to [users] or [settings], whatever the
    database holds and whatever fails. *)
Lemma clear_chat_history_keeps_tables p user_id w :
  users (disk (world_of (clear_chat_history p user_id w))) = users (disk w)
  ∧ settings (disk (world_of (clear_chat_history p user_id w)))
    = settings (disk w).
Proof.
  set (I := λ d, users d = users (disk w) ∧ settings d = settings (disk w)).
  apply (inv_world_of (λ w, I (disk w)) _ (λ _, True)); [|done].
  by apply (@clear_chat_history_inv p _ I (disk_stable I) (disk_stable_open I)).
Qed.

(** C10, amended. [clear_chat_history] does not provision: on every platform,
    for every [user_id] and whatever the database holds, it leaves the tables
    [users] and [settings] as they are, so it creates no row; for a
    [user_id] that, up to its first NUL byte, has no users row and no
    settings row, in a database whose chat messages all belong to users, it
    deletes nothing, and the database is as before. Every other write
    operation, where it gets through the lock and meets no error, leaves
    both rows of its user in place. *)
Theorem clear_chat_history_does_not_provision p c user_id w op :
  (users (disk (world_of (clear_chat_history p user_id w))) = users (disk w)
   ∧ settings (disk (world_of (clear_chat_history p user_id w)))
     = settings (disk w))
  ∧ (referential (disk w) →
     users (disk w) !! c_str user_id = None →
     settings (disk w) !! c_str user_id = None →
     disk (world_of (clear_chat_history p user_id w)) = disk w)
  ∧ (provisions op = false ↔ ∃ u, op = Clear u)
  ∧ (provisions op = true → db_mutex w = false →
     has_rows (c_str (op_user op))
       (disk (world_of (run_write (fault_free Proceeds c) op w)))).
Proof.
  split; [|split; [|split]].
  - apply clear_chat_history_keeps_tables.
  - intros Hr Hu Hs. set (I := λ d, d = disk w).
    apply (inv_world_of (λ w, I (disk w)) _ (λ _, True)); [|done].
    apply (@clear_chat_history_inv p _ I (disk_stable I) (disk_stable_open I)).
    intros d ->. by apply sql_delete_chat_no_rows.
  - destruct op; simpl; split; try done; try (intros [? [=]]); eauto.
  - apply run_write_provisions.
Qed.

Lemma referential_example_db : referential example_db.
Proof.
  intros r Hr. simpl in Hr.
  apply elem_of_cons in Hr as [->|Hr]; [by eexists|].
  apply elem_of_cons in Hr as [->|Hr]; [by eexists|].
  by apply elem_of_nil in Hr.
Qed.

(** The witness of C10, amended: user [ghost] has no rows in the example
    database. *)
Lemma clear_chat_history_does_not_provision_witness :
  disk (world_of (clear_chat_history (fault_free Blocks example_clock) "ghost"
          (world_with example_db))) = example_db
  ∧ has_rows "ghost" (disk (world_of
      (run_write (fault_free Proceeds example_clock)
         (Append "ghost" "user" "hello") (world_with example_db)))).
Proof.
  pose proof (clear_chat_history_does_not_provision
    (fault_free Blocks example_clock) example_clock "ghost"
    (world_with example_db) (Append "ghost" "user" "hello"))
    as (_ & H1 & _ & H3).
  split; [by apply H1; [apply referential_example_db|..]|by apply H3].
Defined.

(** C10 as stated fails. A [user_id] with a NUL byte has no row of its own,
    and [clear_chat_history] deletes the history of the user that its text up
    to the NUL byte names: on the documented build the history of [u1] is
    gone. And a user can have messages without rows: when the open inside
    [ensure_user_exists] fails, [append_chat_message] stores the message of a
    user that has no rows, and [clear_chat_history] deletes it. *)
Lemma clear_chat_history_deletes_without_rows :
  let o1 := clear_chat_history (fault_free Blocks example_clock) nul_id
              (world_with example_db) in
  let p := one_failure Proceeds Open 0 in
  let w2 := world_of (append_chat_message p "ghost" "user" "hello"
                        (world_with example_db)) in
  let o2 := clear_chat_history p "ghost" w2 in
  (users example_db !! nul_id = None ∧ settings example_db !! nul_id = None
   ∧ result_of o1 = Some true
   ∧ history "u1" example_db = [("user", "A"); ("bot", "B")]
   ∧ history "u1" (disk (world_of o1)) = [])
  ∧ (users (disk w2) !! "ghost" = None ∧ settings (disk w2) !! "ghost" = None
     ∧ history "ghost" (disk w2) = [("user", "hello")]
     ∧ result_of o2 = Some true
     ∧ history "ghost" (disk (world_of o2)) = []).
Proof. vm_compute. done. Qed.

(** ** Concurrent callers *)

Lemma run_write_blocks p op w :
  on_relock p = Blocks → provisions op = true →
  run_write p op w = Hang (set_mutex true w).
Proof.
  intros Hp Hop. destruct op; [| |done|]; simpl.
  - by apply upsert_settings_blocks.
  - by apply append_chat_message_blocks.
  - by apply import_user_data_blocks.
Qed.

(** Where the mutex blocks its owner, the first call that is scheduled blocks
    with the mutex held, having written nothing. *)
Lemma sched_blocks p s s' :
  on_relock p = Blocks →
  Forall (λ op, provisions op = true) (waiting s) →
  sched p s s' →
  disk (shared s') = disk (shared s) ∧ db_mutex (shared s') = true
  ∧ length (waiting s) = S (length (waiting s')).
Proof.
  intros Hp Hall Hs. destruct Hs as [ops1 op ops2 w Hm]. simpl in *.
  apply Forall_app in Hall as [_ Hall]. apply Forall_cons in Hall as [Hop _].
  rewrite run_write_blocks by done. simpl.
  repeat split. rewrite !length_app. simpl. lia.
Qed.

Lemma sched_stuck p s s' : db_mutex (shared s) = true → ¬ sched p s s'.
Proof. intros Hm Hs. destruct Hs. simpl in Hm. congruence. Qed.

(** So every schedule is at most one step long and changes nothing. *)
Lemma sched_blocks_rtc p s s' :
  on_relock p = Blocks →
  Forall (λ op, provisions op = true) (waiting s) →
  rtc (sched p) s s' →
  disk (shared s') = disk (shared s)
  ∧ (waiting s ≠ [] → waiting s' ≠ []
     ∨ length (waiting s) = 1%nat ∧ db_mutex (shared s') = true).
Proof.
  intros Hp Hall Hrtc.
  apply rtc_inv in Hrtc as [<-|(s1 & H1 & Hrtc)]; [by auto|].
  destruct (sched_blocks p s s1 Hp Hall H1) as (Hd & Hm & Hl).
  apply rtc_inv in Hrtc as [<-|(s2 & H2 & _)];
    [|by destruct (sched_stuck p s1 s2 Hm)].
  split; [done|]. intros _.
  destruct (waiting s1) eqn:E; [right|by left]. simpl in Hl. by rewrite Hl.
Qed.

(** C9 (fails on the code). Two threads call [upsert_settings] for user [u1]
    with disjoint fields, [language] and [dark_mode], on the documented
    build. Whatever the schedule, neither update is ever stored, and one of
    the calls never even starts. *)
Theorem concurrent_upserts_never_applied s' :
  rtc (sched (fault_free Blocks example_clock))
    {| shared := world_with example_db;
       waiting := [Upsert "u1" (JObj [("language", JStr "German")]);
                   Upsert "u1" (JObj [("dark_mode", JBool false)])] |} s' →
  stored (disk (shared s')) "u1" F_language = Some (VText "French")
  ∧ stored (disk (shared s')) "u1" F_dark_mode = Some (VInt 1)
  ∧ waiting s' ≠ [].
Proof.
  intros H. apply sched_blocks_rtc in H as [Hd Hw]; [|done|].
  - rewrite Hd. repeat split. destruct Hw as [Hw|[Hw _]]; done.
  - by repeat constructor.
Qed.

(** The witness of C9: the schedule that starts the second call first. *)
Lemma concurrent_upserts_never_applied_witness :
  let s' := {| shared := set_mutex true (world_with example_db);
               waiting := [Upsert "u1" (JObj [("language", JStr "German")])] |} in
  stored (disk (shared s')) "u1" F_language = Some (VText "French")
  ∧ stored (disk (shared s')) "u1" F_dark_mode = Some (VInt 1)
  ∧ waiting s' ≠ [].
Proof.
  apply concurrent_upserts_never_applied.
  apply rtc_once.
  exact (sched_call (fault_free Blocks example_clock)
           [Upsert "u1" (JObj [("language", JStr "German")])]
           (Upsert "u1" (JObj [("dark_mode", JBool false)])) []
           (world_with example_db) eq_refl).
Defined.

(** ** [upsert_settings] refines [merge] *)

Lemma bind_text_if_contains_typed j f w :
  well_typed_at j f = true → is_boolean f = false →
  bind_text_if_contains j (field_name f) w
  = Ret (profile_param j (field_name f)) w.
Proof.
  unfold well_typed_at, bind_text_if_contains, profile_param, contains, json_at.
  intros Ht Hf. rewrite Hf in Ht.
  by destruct (json_find j (field_name f)) as [[]|].
Qed.

Lemma string_or_empty_typed j f w :
  well_typed_at j f = true → is_boolean f = false →
  ∃ s, string_or_empty j (field_name f) w = Ret s w
       ∧ bind_text_unless_empty s = text_param j (field_name f).
Proof.
  unfold well_typed_at, string_or_empty, text_param, contains, json_at.
  intros Ht Hf. rewrite Hf in Ht.
  destruct (json_find j (field_name f)) as [[]|]; try done; by eexists.
Qed.

Lemma int_or_minus_one_typed j f w :
  well_typed_at j f = true → is_boolean f = true →
  ∃ n, int_or_minus_one j (field_name f) w = Ret n w
       ∧ bind_int_unless_minus_one n = int_param j (field_name f).
Proof.
  unfold well_typed_at, int_or_minus_one, int_param, contains, json_at.
  intros Ht Hf. rewrite Hf in Ht.
  destruct (json_find j (field_name f)) as [[| b | | | |]|]; try done;
    [destruct b|]; by eexists.
Qed.

Ltac run_reader Hj :=
  unfold bind at 1;
  lazymatch goal with
  | |- context [string_or_empty ?j ?k ?w] =>
      let f := lazymatch k with
               | "theme_mode" => constr:(F_theme_mode)
               | "language" => constr:(F_language)
               | "app_version" => constr:(F_app_version)
               end in
      let s := fresh "s" in let E := fresh "E" in let H := fresh "Hp" in
      destruct (string_or_empty_typed j f w (Hj f) eq_refl) as (s & E & H);
      cbn [field_name] in E, H; rewrite E; clear E
  | |- context [int_or_minus_one ?j ?k ?w] =>
      let f := lazymatch k with
               | "dark_mode" => constr:(F_dark_mode)
               | "notifications_enabled" => constr:(F_notifications_enabled)
               | "chat_notifications" => constr:(F_chat_notifications)
               | "update_notifications" => constr:(F_update_notifications)
               | "reminder_notifications" => constr:(F_reminder_notifications)
               | "biometric_lock" => constr:(F_biometric_lock)
               end in
      let s := fresh "n" in let E := fresh "E" in let H := fresh "Hp" in
      destruct (int_or_minus_one_typed j f w (Hj f) eq_refl) as (s & E & H);
      cbn [field_name] in E, H; rewrite E; clear E
  | |- context [bind_text_if_contains ?j ?k ?w] =>
      let f := lazymatch k with
               | "name" => constr:(F_name)
               | "email" => constr:(F_email)
               | "avatar_url" => constr:(F_avatar_url)
               end in
      let E := fresh "E" in
      pose proof (bind_text_if_contains_typed j f w (Hj f) eq_refl) as E;
      cbn [field_name] in E; rewrite E; clear E
  end.

(** The SQLite calls on a platform without errors. *)
Ltac run_ok :=
  progress cbn [sqlite3_open exec_begin exec_commit sqlite3_prepare_v2
                sqlite3_step sqlite3_close iso_now sqlite_ok fault_free fails
                negb ret bind].

(** Runs a sequence of calls and readers to its end. *)
Ltac run Hj := repeat first [run_ok | run_reader Hj | unfold bind at 1].

(** [upsert_settings] refines [merge]: the call returns true and commits the
    merge of the update into the provisioned database. *)
Theorem upsert_settings_merges c user_id j w :
  db_mutex w = false → well_typed j →
  ∃ w', upsert_settings (fault_free Proceeds c) user_id j w = Ret true w'
        ∧ disk w' = merge (c_str user_id) j (c_str (c (S (S (ticks w)))))
                      (disk (provisioned c user_id w))
        ∧ ticks w' = S (S (S (ticks w))) ∧ db_mutex w' = false.
Proof.
  intros Hm Hj. unfold upsert_settings.
  rewrite lock_guard_ensure_fault_free by done.
  generalize (eq_refl : ticks (provisioned c user_id w) = S (S (ticks w))).
  generalize (provisioned c user_id w). intros w1 Ht.
  repeat (unfold bind at 1; run_ok).
  unfold merge, has_profile_key.
  destruct (contains j "name" || contains j "email" || contains j "avatar_url");
    run Hj; (eexists; split; [reflexivity|]);
    cbn [disk set_disk set_mutex count tick ticks db_mutex fault_free clock];
    repeat match goal with
           | H : _ = text_param _ _ |- _ => rewrite H; clear H
           | H : _ = int_param _ _ |- _ => rewrite H; clear H
           end;
    by rewrite Ht.
Qed.

Lemma of_text_COALESCE x y :
  of_text (COALESCE x y) = value_or (of_text x) (of_text y).
Proof. by destruct x. Qed.

Lemma of_integer_COALESCE x y :
  of_integer (COALESCE x y) = value_or (of_integer x) (of_integer y).
Proof. by destruct x. Qed.

Lemma profile_param_absent j k : contains j k = false → profile_param j k = None.
Proof. intros H%contains_false. unfold profile_param. by rewrite H. Qed.

(** Field by field, [merge] stores the bound parameter, or keeps the cell
    when the parameter is NULL. *)
Lemma stored_merge user_id j now d f :
  has_rows user_id d →
  stored (merge user_id j now d) user_id f
  = value_or (bound j f) <$> stored d user_id f.
Proof.
  intros [[u Hu] [s Hs]]. unfold merge, has_profile_key.
  set (d1 := if contains j "name" || contains j "email"
                || contains j "avatar_url"
             then sql_update_users (profile_param j "name")
                    (profile_param j "email") (profile_param j "avatar_url")
                    user_id d
             else d).
  assert (settings d1 = settings d) as Hs1.
  { unfold d1, sql_update_users. destruct (_ || _); [|done]. by rewrite Hu. }
  assert (users d1 !! user_id
          = Some {| u_name := COALESCE (profile_param j "name") (u_name u);
                    u_email := COALESCE (profile_param j "email") (u_email u);
                    u_avatar_url :=
                      COALESCE (profile_param j "avatar_url") (u_avatar_url u);
                    u_created_at := u_created_at u |}) as Hu1.
  { unfold d1, sql_update_users.
    destruct (contains j "name") eqn:E1; simpl;
      [rewrite Hu; simpl; by rewrite lookup_insert_eq|].
    destruct (contains j "email") eqn:E2; simpl;
      [rewrite Hu; simpl; by rewrite lookup_insert_eq|].
    destruct (contains j "avatar_url") eqn:E3; simpl;
      [rewrite Hu; simpl; by rewrite lookup_insert_eq|].
    rewrite !profile_param_absent by done. rewrite Hu. by destruct u. }
  unfold sql_upsert_settings. rewrite Hs1, Hs.
  destruct f; unfold stored, bound; simpl;
    rewrite ?Hs, ?Hu, ?Hu1, ?lookup_insert_eq; simpl;
    by rewrite ?of_text_COALESCE, ?of_integer_COALESCE.
Qed.

Lemma upsert_settings_cell c user_id j w f :
  db_mutex w = false → well_typed j →
  stored (disk (world_of (upsert_settings (fault_free Proceeds c) user_id j w)))
    (c_str user_id) f
  = value_or (bound j f)
      <$> stored (disk (provisioned c user_id w)) (c_str user_id) f.
Proof.
  intros Hm Hj. destruct (upsert_settings_merges c user_id j w Hm Hj)
    as (w' & -> & Hd & _). simpl. rewrite Hd.
  apply stored_merge, has_rows_provision.
Qed.


(** An explicit boolean is stored as 0 or 1 (the positive side of C3). *)
Corollary upsert_settings_stores_boolean c user_id j w f b :
  db_mutex w = false → well_typed j → is_boolean f = true →
  json_find j (field_name f) = Some (JBool b) →
  stored (disk (world_of (upsert_settings (fault_free Proceeds c) user_id j w)))
    (c_str user_id) f = Some (VInt (if b then 1 else 0)).
Proof.
  intros Hm Hj Hf Hb.
  rewrite (upsert_settings_cell c user_id j w f Hm Hj).
  destruct (has_rows_provision user_id c w) as [_ [s Hs]].
  destruct f; try done; unfold bound, int_param, stored;
    cbn [field_name] in *; by rewrite Hb, Hs.
Qed.

(** A text that is not empty is stored, up to its first NUL byte (the
    positive side of C2). *)
Corollary upsert_settings_stores_text c user_id j w f s :
  db_mutex w = false → well_typed j →
  f = F_theme_mode ∨ f = F_language ∨ f = F_app_version →
  json_find j (field_name f) = Some (JStr s) → s ≠ "" →
  stored (disk (world_of (upsert_settings (fault_free Proceeds c) user_id j w)))
    (c_str user_id) f = Some (VText (c_str s)).
Proof.
  intros Hm Hj Hf Hb Hne.
  rewrite (upsert_settings_cell c user_id j w f Hm Hj).
  destruct (has_rows_provision user_id c w) as [_ [r Hr]].
  destruct Hf as [->|[->| ->]];
    unfold bound, text_param, bind_text_unless_empty, stored;
    cbn [field_name] in *; rewrite Hb, Hr; simpl;
    by rewrite bool_decide_eq_false_2.
Qed.

Lemma contains_find j k v : json_find j k = Some v → contains j k = true.
Proof. unfold contains. intros ->. by apply bool_decide_eq_true_2. Qed.

Lemma json_at_find j k v : json_find j k = Some v → json_at j k = v.
Proof. unfold json_at. by intros ->. Qed.



(** ** The order of the chat history *)

Lemma foldr_max_ge rows b :
  b ≤ foldr (λ r m, Z.max (c_id r) m) b rows
  ∧ ∀ r, r ∈ rows → c_id r ≤ foldr (λ r m, Z.max (c_id r) m) b rows.
Proof.
  induction rows as [|x rows [IH1 IH2]]; simpl.
  - split; [lia|]. by intros r ?%elem_of_nil.
  - split; [lia|]. intros r [->|H]%elem_of_cons; [lia|].
    specialize (IH2 r H). lia.
Qed.

Lemma foldr_max_le rows b M :
  b ≤ M → (∀ r, r ∈ rows → c_id r ≤ M) →
  foldr (λ r m, Z.max (c_id r) m) b rows ≤ M.
Proof.
  intros Hb. induction rows as [|x rows IH]; intros Hr; simpl; [done|].
  pose proof (Hr x (list_elem_of_here _ _)).
  assert (foldr (λ r m, Z.max (c_id r) m) b rows ≤ M)
    by (apply IH; intros r Hin; apply Hr; by right).
  lia.
Qed.

Lemma max_rowid_ge rows r : r ∈ rows → c_id r ≤ max_rowid rows.
Proof.
  destruct rows as [|x rows]; [by intros ?%elem_of_nil|].
  destruct (foldr_max_ge rows (c_id x)) as [H1 H2].
  intros [->|H]%elem_of_cons; simpl; [done|by apply H2].
Qed.

Lemma max_rowid_le rows M :
  (rows = [] → 0 ≤ M) → (∀ r, r ∈ rows → c_id r ≤ M) → max_rowid rows ≤ M.
Proof.
  intros HM Hr. destruct rows as [|x rows]; [by apply HM|]. simpl.
  apply foldr_max_le; [apply Hr; by left|]. intros r Hin. apply Hr. by right.
Qed.

Lemma insert_by_id_snoc a l r :
  c_id a ≤ c_id r → insert_by_id a (l ++ [r]) = insert_by_id a l ++ [r].
Proof.
  intros Har. induction l as [|x l IH]; simpl.
  - by rewrite bool_decide_eq_true_2.
  - destruct (bool_decide (c_id a ≤ c_id x)); [done|]. by rewrite IH.
Qed.

(** A row with the largest id comes last in [ORDER BY id]. *)
Lemma order_by_id_snoc l r :
  (∀ x, x ∈ l → c_id x ≤ c_id r) →
  order_by_id (l ++ [r]) = order_by_id l ++ [r].
Proof.
  unfold order_by_id. induction l as [|a l IH]; intros Hl; [done|].
  simpl. rewrite IH by (intros x Hx; apply Hl; by right).
  apply insert_by_id_snoc, Hl. by left.
Qed.

(** The INSERT into a table that is full does nothing. *)
Lemma sql_insert_chat_full u role message created_at d :
  MAX_ROWID ≤ last_rowid d → sql_insert_chat u role message created_at d = d.
Proof.
  intros H. unfold sql_insert_chat, chat_history_full.
  by rewrite bool_decide_eq_true_2.
Qed.

(** The INSERT into a table that has room. *)
Lemma sql_insert_chat_room u role message created_at d :
  last_rowid d < MAX_ROWID →
  sql_insert_chat u role message created_at d
  = {| users := users d; settings := settings d;
       chat_history := chat_history d ++
         [{| c_id := next_rowid d; c_user_id := u; c_role := role;
             c_message := message; c_created_at := created_at |}];
       sqlite_sequence := next_rowid d |}.
Proof.
  intros H. unfold sql_insert_chat, chat_history_full.
  rewrite bool_decide_eq_false_2; [done|lia].
Qed.

Lemma chat_history_full_room n d : room (S n) d → chat_history_full d = false.
Proof.
  unfold room, chat_history_full. intros H. apply bool_decide_eq_false_2. lia.
Qed.

Lemma chat_history_full_lt d :
  last_rowid d < MAX_ROWID → chat_history_full d = false.
Proof. unfold chat_history_full. intros H. apply bool_decide_eq_false_2. lia. Qed.

Lemma room_S n d : room (S n) d → last_rowid d < MAX_ROWID ∧ room n d.
Proof. unfold room. lia. Qed.

Lemma room_insert n u role message created_at d :
  room (S n) d → room n (sql_insert_chat u role message created_at d).
Proof.
  intros Hr. pose proof (room_S _ _ Hr) as [Hlt _].
  rewrite sql_insert_chat_room by done.
  revert Hr. unfold room, last_rowid, next_rowid, last_rowid.
  cbn [chat_history sqlite_sequence]. intros Hr.
  assert (max_rowid (chat_history d ++
            [{| c_id := Z.max (sqlite_sequence d) (max_rowid (chat_history d)) + 1;
                c_user_id := u; c_role := role; c_message := message;
                c_created_at := created_at |}])
          ≤ Z.max (sqlite_sequence d) (max_rowid (chat_history d)) + 1) as Hmax.
  { apply max_rowid_le; [by intros ?%app_eq_nil%proj2|].
    intros r [Hin| ->%list_elem_of_singleton]%elem_of_app; cbn [c_id]; [|lia].
    pose proof (max_rowid_ge _ _ Hin). lia. }
  unfold room, last_rowid in *. lia.
Qed.

Lemma room_delete n u d : room n d → room n (sql_delete_chat u d).
Proof.
  unfold room, last_rowid, sql_delete_chat. cbn [chat_history sqlite_sequence].
  intros Hr.
  assert (max_rowid (filter (λ r, c_user_id r ≠ u) (chat_history d))
          ≤ Z.max 0 (max_rowid (chat_history d))) as Hmax.
  { apply max_rowid_le; [lia|]. intros r [_ Hin]%list_elem_of_filter.
    pose proof (max_rowid_ge _ _ Hin). lia. }
  lia.
Qed.

(** The inserted message is the last of the history of its user, and no
    other history changes. *)
Lemma sql_select_chat_insert u u' role message created_at d :
  last_rowid d < MAX_ROWID →
  sql_select_chat u (sql_insert_chat u' role message created_at d)
  = sql_select_chat u d
    ++ (if bool_decide (u' = u) then
          [{| c_id := next_rowid d; c_user_id := u'; c_role := role;
              c_message := message; c_created_at := created_at |}]
        else []).
Proof.
  intros Hlt. rewrite sql_insert_chat_room by done.
  unfold sql_select_chat. cbn [chat_history]. rewrite filter_app.
  case_bool_decide as Hu.
  - rewrite filter_cons_True by done. rewrite filter_nil.
    apply order_by_id_snoc. intros x [_ Hx]%list_elem_of_filter.
    pose proof (max_rowid_ge _ _ Hx) as Hmax. cbn [c_id].
    unfold next_rowid, last_rowid. clear -Hmax. lia.
  - rewrite filter_cons_False by done. by rewrite filter_nil, !app_nil_r.
Qed.

Lemma sql_select_chat_delete u d : sql_select_chat u (sql_delete_chat u d) = [].
Proof.
  unfold sql_select_chat, sql_delete_chat. simpl.
  induction (chat_history d) as [|x l IH]; [done|].
  destruct (decide (c_user_id x = u)) as [Hx|Hx].
  - by rewrite filter_cons_False by (by intros ?).
  - rewrite filter_cons_True by done. by rewrite filter_cons_False.
Qed.

Lemma chat_history_provision u t1 t2 d :
  chat_history (provision u t1 t2 d) = chat_history d
  ∧ sqlite_sequence (provision u t1 t2 d) = sqlite_sequence d.
Proof.
  unfold provision, sql_insert_or_ignore_settings, sql_insert_or_ignore_users.
  destruct (users d !! u); simpl; by destruct (settings _ !! u).
Qed.

Lemma chat_history_provisioned c u w :
  chat_history (disk (provisioned c u w)) = chat_history (disk w)
  ∧ sqlite_sequence (disk (provisioned c u w)) = sqlite_sequence (disk w).
Proof. apply chat_history_provision. Qed.

Lemma chat_history_merge u j now d :
  chat_history (merge u j now d) = chat_history d
  ∧ sqlite_sequence (merge u j now d) = sqlite_sequence d.
Proof.
  unfold merge, sql_upsert_settings, sql_update_users.
  destruct (has_profile_key j); [destruct (users d !! u)|]; simpl;
    by destruct (settings _ !! u).
Qed.

(** The history of a user and the room of the table are read off
    [chat_history] and its counter. *)
Lemma sql_select_chat_ext u d d' :
  chat_history d = chat_history d' → sql_select_chat u d = sql_select_chat u d'.
Proof. unfold sql_select_chat. by intros ->. Qed.

Lemma room_ext n d d' :
  chat_history d = chat_history d' → sqlite_sequence d = sqlite_sequence d' →
  room n d' → room n d.
Proof. unfold room, last_rowid. by intros -> ->. Qed.

Lemma json_value_member o k dflt w :
  json_value (JObj o) k dflt w
  = match member_or o k dflt with
    | Some s => Ret s w
    | None => Throw w
    end.
Proof.
  unfold json_value, member_or.
  by destruct (members_find k o) as [[]|].
Qed.




Lemma well_typed_null : well_typed JNull.
Proof. by intros f. Qed.



(** ** What an export shows *)

Lemma sqlite3_fetch_fault_free r c {R} (rows : list R) w :
  ∃ w', sqlite3_fetch (fault_free r c) rows w = Ret rows w'
        ∧ disk w' = disk w ∧ db_mutex w' = db_mutex w.
Proof.
  revert w. induction rows as [|x rows IH]; intros w; simpl.
  - by eexists.
  - unfold bind at 1. cbn [sqlite_ok fault_free fails negb].
    destruct (IH (count Step w)) as (w' & E & Hd & Hm).
    unfold bind at 1. rewrite E. by eexists.
Qed.

(** X20. Where the calls get through the lock and no SQLite call fails, and
    the rows of the user hold no NULL text, [export_user_data] returns an
    object with the members [exported_at], the time of the call, [settings]
    and [chat_history], the stored history of the user ordered by id, each
    text up to its first NUL byte. The user is the one [user_id] names up to
    its first NUL byte. *)
Theorem export_user_data_history c user_id w u s :
  db_mutex w = false →
  sql_select_settings (c_str user_id) (disk (provisioned c user_id (tick w)))
  = Some (u, s) →
  no_null_text u s →
  ∃ settings_json w',
    export_user_data (fault_free Proceeds c) user_id w
    = Ret (JObj [("exported_at", JStr (c (ticks w)));
                 ("settings", settings_json);
                 ("chat_history",
                    JArr (chat_json
                            <$> sql_select_chat (c_str user_id) (disk w)))]) w'.
Proof.
  intros Hm Hrow (Hn & He & Ha & Hth & Hl & Hv & Hup).
  destruct Hn as [n Hn], He as [e He], Ha as [a Ha], Hth as [th Hth],
    Hl as [l Hl], Hv as [v Hv], Hup as [up Hup].
  unfold export_user_data. unfold bind at 1. cbn [iso_now fault_free clock].
  unfold bind at 1. unfold get_user_settings.
  rewrite lock_guard_ensure_fault_free by done.
  pose proof (sql_select_chat_ext (c_str user_id) _ _
                (proj1 (chat_history_provisioned c user_id (tick w)))) as Hsel.
  generalize dependent (provisioned c user_id (tick w)). intros w1 Hrow Hsel.
  repeat (unfold bind at 1; run_ok). unfold bind at 1.
  unfold sqlite3_step_row, bind at 1.
  cbn [sqlite_ok fault_free fails negb view disk count]. rewrite Hrow.
  rewrite Hn, He, Ha, Hth, Hl, Hv, Hup. cbn [column_text bind ret].
  cbn [sqlite3_close bind ret].
  unfold lock_guard, lock. cbn [db_mutex set_mutex].
  repeat (unfold bind at 1; run_ok). unfold bind at 1.
  unfold sqlite3_step_rows. cbn [view disk count set_mutex].
  lazymatch goal with
  | |- context [sqlite3_fetch _ ?rows ?w2] =>
      destruct (sqlite3_fetch_fault_free Proceeds c rows w2)
        as (w3 & -> & _ & _)
  end.
  cbn [bind ret sqlite3_close members_set bool_decide decide_rel]. rewrite Hsel.
  eexists _, _. reflexivity.
Qed.

(** ** The foreign key of the chat history

    The declared foreign key is not enforced by SQLite here, but the write
    operations keep it on a platform without errors: they provision the user
    before they insert. *)

Lemma referential_mono d d' :
  (∀ u, is_Some (users d !! u) → is_Some (users d' !! u)) →
  chat_history d' = chat_history d →
  referential d → referential d'.
Proof.
  intros Hu Hc Hr r Hin. rewrite Hc in Hin. by apply Hu, Hr.
Qed.

Lemma users_insert_or_ignore_users u u' r d :
  is_Some (users d !! u) →
  is_Some (users (sql_insert_or_ignore_users u' r d) !! u).
Proof.
  unfold sql_insert_or_ignore_users. destruct (users d !! u') eqn:E; [done|].
  simpl. intros H. destruct (decide (u' = u)) as [->|];
    [rewrite lookup_insert_eq; eauto|by rewrite lookup_insert_ne].
Qed.

Lemma users_update_users u u' n e a d :
  is_Some (users d !! u) → is_Some (users (sql_update_users n e a u' d) !! u).
Proof.
  unfold sql_update_users. destruct (users d !! u') eqn:E; [|done].
  simpl. intros H. destruct (decide (u' = u)) as [->|];
    [rewrite lookup_insert_eq; eauto|by rewrite lookup_insert_ne].
Qed.

Lemma referential_insert_or_ignore_users u r d :
  referential d → referential (sql_insert_or_ignore_users u r d).
Proof.
  apply referential_mono; [intros u'; apply users_insert_or_ignore_users|].
  unfold sql_insert_or_ignore_users. by destruct (users d !! u).
Qed.

Lemma referential_insert_or_ignore_settings u t d :
  referential d → referential (sql_insert_or_ignore_settings u t d).
Proof.
  unfold sql_insert_or_ignore_settings. by destruct (settings d !! u).
Qed.

Lemma referential_update_users u n e a d :
  referential d → referential (sql_update_users n e a u d).
Proof.
  apply referential_mono; [intros u'; apply users_update_users|].
  unfold sql_update_users. by destruct (users d !! u).
Qed.

Lemma referential_upsert_settings u x d :
  referential d → referential (sql_upsert_settings u x d).
Proof. unfold sql_upsert_settings. by destruct (settings d !! u). Qed.

Lemma referential_delete_chat u d :
  referential d → referential (sql_delete_chat u d).
Proof.
  intros Hr r [_ Hin]%list_elem_of_filter. by apply Hr.
Qed.

Lemma referential_insert_chat u r m t d :
  is_Some (users d !! u) → referential d →
  referential (sql_insert_chat u r m t d).
Proof.
  intros Hu Hr x. unfold sql_insert_chat. destruct (chat_history_full d); [by apply Hr|].
  simpl. intros [Hin|Hin%list_elem_of_singleton]%elem_of_app;
    [by apply Hr|by subst].
Qed.

(** X21. On a platform without errors whose mutex lets its owner through,
    every write operation keeps the foreign key of the chat history: when
    every stored message belongs to a user of table [users] before the call,
    so it does after it. *)
Theorem run_write_referential c op w :
  db_mutex w = false → referential (disk w) →
  referential (disk (world_of (run_write (fault_free Proceeds c) op w))).
Proof.
  intros Hm Hr. set (p := fault_free Proceeds c).
  destruct (provisions op) eqn:Hop.
  - set (I := λ d, referential d ∧ has_rows (c_str (op_user op)) d).
    assert (I (disk (provisioned c (op_user op) w))) as Hw.
    { split; [|apply has_rows_provision].
      by apply referential_insert_or_ignore_settings,
        referential_insert_or_ignore_users. }
    assert (∀ u r d, I d → I (sql_insert_or_ignore_users u r d)) as HU0.
    { intros u r d [??]. split; [by apply referential_insert_or_ignore_users
                               |by apply has_rows_insert_or_ignore_users]. }
    assert (∀ u t d, I d → I (sql_insert_or_ignore_settings u t d)) as HS0.
    { intros u t d [??]. split; [by apply referential_insert_or_ignore_settings
                               |by apply has_rows_insert_or_ignore_settings]. }
    assert (∀ u n e a d, I d → I (sql_update_users n e a u d)) as HU.
    { intros u n e a d [??]. split; [by apply referential_update_users
                                   |by apply has_rows_update_users]. }
    assert (∀ u x d, I d → I (sql_upsert_settings u x d)) as HS.
    { intros u x d [??]. split; [by apply referential_upsert_settings
                               |by apply has_rows_upsert_settings]. }
    assert (∀ d, I d → I (sql_delete_chat (c_str (op_user op)) d)) as HD.
    { intros d [??]. split; [by apply referential_delete_chat|done]. }
    assert (∀ r m t d, I d → I (sql_insert_chat (c_str (op_user op)) r m t d)) as HC.
    { intros r m t d [? Hrows]. split; [|by apply has_rows_insert_chat].
      apply referential_insert_chat; [apply Hrows|done]. }
    assert (∀ u j, inv (λ w, I (disk w)) (upsert_settings p u j) (λ _, True))
      as Hup.
    { intros u j.
      apply (@upsert_settings_inv p _ I (disk_stable I) (disk_stable_open I));
        auto. }
    assert (∀ ms db, conn_ok I db →
              inv (λ w, I (disk w)) (import_messages p (op_user op) ms db)
                (conn_ok I)) as Him.
    { intros ms db.
      by apply (@import_messages_inv p _ I (disk_stable I)). }
    cut (I (disk (world_of (run_write p op w)))); [by intros [??]|].
    destruct op as [u j|u r m|u|u j r]; [| |done|]; simpl in *;
      apply (after_provisioning (λ w, I (disk w)) c u _ (λ _, True));
      try done; try blind;
      repeat (inv_step I; eauto); try done.
  - destruct op as [| |u|]; try done. simpl.
    apply (inv_world_of (λ w, referential (disk w)) _ (λ _, True)); [|done].
    apply (@clear_chat_history_inv p _ referential (disk_stable referential)
             (disk_stable_open referential)).
    intros d. apply referential_delete_chat.
Qed.

(** ** Keys that [upsert_settings] does not know *)

Lemma contains_ext j j' k :
  json_find j k = json_find j' k → contains j k = contains j' k.
Proof. unfold contains. by intros ->. Qed.

Lemma json_at_ext j j' k :
  json_find j k = json_find j' k → json_at j k = json_at j' k.
Proof. unfold json_at. by intros ->. Qed.

(** [upsert_settings] reads its update through the twelve recognised keys
    only. *)
Lemma upsert_settings_ext p user_id j j' :
  (∀ f, json_find j (field_name f) = json_find j' (field_name f)) →
  upsert_settings p user_id j = upsert_settings p user_id j'.
Proof.
  intros H. unfold upsert_settings, string_or_empty, int_or_minus_one,
    bind_text_if_contains.
  assert (∀ f, contains j (field_name f) = contains j' (field_name f)
               ∧ json_at j (field_name f) = json_at j' (field_name f)) as Hf
    by (intros f; split; [apply contains_ext|apply json_at_ext]; apply H).
  repeat match goal with
         | |- context [contains j ?k] =>
             let f := lazymatch k with
                      | "name" => F_name | "email" => F_email
                      | "avatar_url" => F_avatar_url
                      | "theme_mode" => F_theme_mode | "dark_mode" => F_dark_mode
                      | "notifications_enabled" => F_notifications_enabled
                      | "chat_notifications" => F_chat_notifications
                      | "update_notifications" => F_update_notifications
                      | "reminder_notifications" => F_reminder_notifications
                      | "language" => F_language
                      | "biometric_lock" => F_biometric_lock
                      | "app_version" => F_app_version
                      end in
             let H1 := fresh in let H2 := fresh in
             destruct (Hf f) as [H1 H2]; cbn [field_name] in H1, H2;
             rewrite H1, H2; clear H1 H2
         end.
  reflexivity.
Qed.

(** X1. [upsert_settings] ignores every key it does not know: two updates
    that agree on the twelve recognised keys have the same outcome, on every
    platform and in every world. *)
Theorem upsert_settings_ignores_unknown_keys p user_id j j' w :
  (∀ f, json_find j (field_name f) = json_find j' (field_name f)) →
  upsert_settings p user_id j w = upsert_settings p user_id j' w.
Proof.
  intros H. pose proof (upsert_settings_ext p user_id j j' H) as E.
  by rewrite E.
Qed.

(** The witness of X1: a key [volume] beside [dark_mode] changes nothing. *)
Lemma upsert_settings_ignores_unknown_keys_witness :
  upsert_settings (fault_free Proceeds example_clock) "u1"
    (JObj [("volume", JNum 11); ("dark_mode", JBool false)])
    (world_with example_db)
  = upsert_settings (fault_free Proceeds example_clock) "u1"
      (JObj [("dark_mode", JBool false)]) (world_with example_db).
Proof.
  apply upsert_settings_ignores_unknown_keys. by intros [].
Defined.

(** ** The body of [POST /settings] *)

Lemma members_find_erase k k' m :
  members_find k' (members_erase k m)
  = if bool_decide (k = k') then None else members_find k' m.
Proof.
  unfold members_erase. induction m as [|[k0 v] m IH]; simpl.
  - by case_bool_decide.
  - destruct (decide (k0 = k)) as [->|Hne].
    + rewrite filter_cons_False by (simpl; auto). rewrite IH.
      by repeat case_bool_decide.
    + rewrite filter_cons_True by done. simpl. rewrite IH.
      repeat case_bool_decide; congruence.
Qed.

(** X2. [POST /settings] takes the update from the member [settings] when the
    body has one, and from the body itself otherwise: a body without
    [settings] is handled as the same body wrapped in [settings], and beside
    a member [settings] every key of the body but [user_id] is ignored. *)
Theorem post_settings_nested_or_inline p j j' user_id s w :
  json_find j "user_id" = Some user_id →
  (json_find j "settings" = None →
   post_settings p j w
   = post_settings p (JObj [("user_id", user_id); ("settings", j)]) w)
  ∧ (json_find j "settings" = Some s →
     json_find j' "user_id" = Some user_id →
     json_find j' "settings" = Some s →
     post_settings p j w = post_settings p j' w).
Proof.
  intros Hu. unfold post_settings. split.
  - intros Hs. rewrite (contains_find _ _ _ Hu), (json_at_find _ _ _ Hu), Hs.
    reflexivity.
  - intros Hs Hu' Hs'.
    rewrite (contains_find _ _ _ Hu), (json_at_find _ _ _ Hu), Hs.
    by rewrite (contains_find _ _ _ Hu'), (json_at_find _ _ _ Hu'), Hs'.
Qed.

(** The witness of X2. *)
Lemma post_settings_nested_or_inline_witness :
  let p := fault_free Proceeds example_clock in
  let j := JObj [("user_id", JStr "u1"); ("language", JStr "German")] in
  post_settings p j (world_with example_db)
  = post_settings p (JObj [("user_id", JStr "u1"); ("settings", j)])
      (world_with example_db).
Proof.
  by apply (post_settings_nested_or_inline (fault_free Proceeds example_clock)
              (JObj [("user_id", JStr "u1"); ("language", JStr "German")])
              JNull (JStr "u1") JNull (world_with example_db) eq_refl).
Defined.

(** ** What an endpoint leaves alone *)

Lemma members_find_set k k' v m :
  members_find k' (members_set k v m)
  = if bool_decide (k = k') then Some v else members_find k' m.
Proof.
  induction m as [|[k0 v0] m IH]; simpl.
  - done.
  - destruct (decide (k0 = k)) as [->|Hne].
    + rewrite bool_decide_eq_true_2 by done. simpl. by case_bool_decide.
    + rewrite (bool_decide_eq_false_2 (k0 = k)) by done. simpl. rewrite IH.
      repeat case_bool_decide; congruence.
Qed.

Lemma only_keys_null ks : only_keys ks JNull.
Proof. by intros k _. Qed.

(** Copying a key adds at most that key. *)
Lemma inv_copy_if_contains J j k payload ks :
  only_keys ks payload →
  inv J (copy_if_contains j k payload) (only_keys (k :: ks)).
Proof.
  intros Hp. unfold copy_if_contains.
  assert (only_keys (k :: ks) payload) as Hp'.
  { intros k' Hk'. apply Hp. intros ?. apply Hk'. by right. }
  destruct (contains j k); [|by apply inv_ret].
  destruct payload as [| | | | |m]; try apply inv_throw; apply inv_ret.
  - intros k' Hk'. simpl. rewrite bool_decide_eq_false_2; [done|].
    intros ->. apply Hk'. by left.
  - intros k' Hk'. simpl. rewrite members_find_set.
    rewrite bool_decide_eq_false_2 by (intros ->; apply Hk'; by left).
    by apply (Hp' k').
Qed.

Lemma bound_only_keys ks j f :
  only_keys ks j → field_name f ∉ ks → bound j f = VNull.
Proof.
  intros Hj Hf. apply bound_absent. unfold contains.
  by rewrite (Hj _ Hf), bool_decide_eq_false_2 by (by intros [??]).
Qed.

(** A field for which [upsert_settings] binds NULL keeps its cell, for the
    user of the call and for every other user. *)
Lemma upsert_settings_frame p u u' j f v :
  bound j f = VNull →
  inv (λ w, stored (disk w) u f = Some v) (upsert_settings p u' j) (λ _, True).
Proof.
  intros Hb. set (I := λ d, stored d u f = Some v).
  apply (@upsert_settings_inv p _ I (disk_stable I) (disk_stable_open I)).
  - intros r d. apply stored_insert_or_ignore_users.
  - intros t d. apply stored_insert_or_ignore_settings.
  - intros d. by apply stored_update_users.
  - intros now d. by apply stored_upsert_settings.
Qed.

(** A key is none of the listed keys. *)
Ltac not_in_keys :=
  let H := fresh in
  intros H; repeat (apply elem_of_cons in H as [H|H]; [discriminate H|]);
  by apply elem_of_nil in H.

(** The common head of the POST handlers: the try block, the test for the
    required keys and the conversion of [user_id]. *)
Ltac handler_head :=
  apply inv_try_catch; [|by apply inv_ret];
  lazymatch goal with
  | |- inv _ (if ?b then _ else _) _ => destruct b; [by apply inv_ret|]
  end;
  eapply (inv_bind _ _ _ (λ _, True)); [by apply inv_get_string|intros ? _].

(** X3. Every endpoint leaves the fields it is not meant to write as they
    are, for every user, on every platform and however the request ends:
    [POST /profile] may change the three profile fields only,
    [POST /notifications] the four notification toggles, [POST /theme]
    [theme_mode] and [dark_mode], [POST /security/biometric]
    [biometric_lock], and the health, history and read endpoints no field at
    all. *)
Theorem handle_keeps_other_fields p r w u f v :
  may_change r f = false →
  stored (disk w) u f = Some v →
  stored (disk (world_of (handle p r w))) u f = Some v.
Proof.
  intros Hr Hv. set (I := λ d, stored d u f = Some v).
  apply (inv_world_of (λ w, I (disk w)) _ (λ _, True)); [|done].
  assert (∀ u', inv (λ w, I (disk w)) (get_user_settings p u') (λ _, True))
    as Hget.
  { intros u'.
    apply (@get_user_settings_inv p _ I (disk_stable I) (disk_stable_open I));
      intros; first [by apply stored_insert_or_ignore_users
                    |by apply stored_insert_or_ignore_settings]. }
  assert (∀ u', inv (λ w, I (disk w)) (export_user_data p u') (λ _, True))
    as Hexp.
  { intros u'.
    apply (@export_user_data_inv p _ I (disk_stable I) (disk_stable_open I));
      intros; first [by apply stored_insert_or_ignore_users
                    |by apply stored_insert_or_ignore_settings]. }
  assert (∀ u' ks j, only_keys ks j → field_name f ∉ ks →
            inv (λ w, I (disk w)) (upsert_settings p u' j) (λ _, True))
    as Hup.
  { intros u' ks j Hj Hf. by apply upsert_settings_frame, (bound_only_keys ks). }
  destruct r as [|u'|j|j|j|j|j|j|j|u'|q j|u']; simpl in Hr; try done; simpl;
    unfold status_of, get_health, get_settings, get_history_export,
      get_history.
  - repeat (inv_step I; eauto).
  - unfold post_profile. handler_head.
    eapply (inv_bind _ _ _ (only_keys ["name"]));
      [by apply inv_copy_if_contains, only_keys_null|intros p1 H1].
    eapply (inv_bind _ _ _ (only_keys ["email"; "name"]));
      [by apply inv_copy_if_contains|intros p2 H2].
    eapply (inv_bind _ _ _ (only_keys ["avatar_url"; "email"; "name"]));
      [by apply inv_copy_if_contains|intros p3 H3].
    inv_step I; [|by inv_step I].
    apply (Hup _ _ _ H3). destruct f; try done; not_in_keys.
  - unfold post_notifications. handler_head.
    eapply (inv_bind _ _ _ (only_keys ["notifications_enabled"]));
      [by apply inv_copy_if_contains, only_keys_null|intros p1 H1].
    eapply (inv_bind _ _ _ (only_keys _));
      [by apply inv_copy_if_contains|intros p2 H2].
    eapply (inv_bind _ _ _ (only_keys _));
      [by apply inv_copy_if_contains|intros p3 H3].
    eapply (inv_bind _ _ _ (only_keys _));
      [by apply inv_copy_if_contains|intros p4 H4].
    inv_step I; [|by inv_step I].
    apply (Hup _ _ _ H4). destruct f; try done; not_in_keys.
  - apply (@post_theme_inv p _ I (disk_stable I) (disk_stable_open I)).
    + intros; by apply stored_insert_or_ignore_users.
    + intros; by apply stored_insert_or_ignore_settings.
    + intros u' m now d. apply stored_upsert_settings. by destruct f.
  - unfold post_security_biometric. handler_head.
    inv_step I; [by apply inv_get_bool|].
    inv_step I; [|by inv_step I].
    apply upsert_settings_frame. by destruct f.
  - unfold post_history.
    assert (∀ u' ro me, inv (λ w, I (disk w)) (append_chat_message p u' ro me)
                          (λ _, True)) as Happ.
    { intros u' ro me.
      apply (@append_chat_message_inv p _ I (disk_stable I)
               (disk_stable_open I));
        intros; first [by apply stored_insert_or_ignore_users
                      |by apply stored_insert_or_ignore_settings
                      |by unfold I; rewrite stored_insert_chat]. }
    repeat (inv_step I; eauto).
  - unfold post_history_clear.
    assert (∀ u', inv (λ w, I (disk w)) (clear_chat_history p u') (λ _, True))
      as Hclr.
    { intros u'.
      apply (@clear_chat_history_inv p _ I (disk_stable I)
               (disk_stable_open I)).
      intros d Hd. unfold I. by rewrite stored_delete_chat. }
    repeat (inv_step I; eauto).
  - repeat (inv_step I; eauto).
  - repeat (inv_step I; eauto).
Qed.

(** The witness of X3: a notification toggle leaves the language alone. *)
Lemma handle_keeps_other_fields_witness :
  stored (disk (world_of
    (handle (fault_free Proceeds example_clock)
       (POST_notifications (JObj [("user_id", JStr "u1");
                                  ("chat_notifications", JBool false)]))
       (world_with example_db)))) "u1" F_language
  = Some (VText "French").
Proof. by apply handle_keeps_other_fields. Defined.

(** ** The data of other users *)

Lemma user_data_insert_or_ignore_users u u' r d :
  u ≠ u' → user_data u (sql_insert_or_ignore_users u' r d) = user_data u d.
Proof.
  intros Hne. unfold user_data, sql_insert_or_ignore_users.
  destruct (users d !! u'); [done|]. simpl. by rewrite lookup_insert_ne.
Qed.

Lemma user_data_insert_or_ignore_settings u u' t d :
  u ≠ u' → user_data u (sql_insert_or_ignore_settings u' t d) = user_data u d.
Proof.
  intros Hne. unfold user_data, sql_insert_or_ignore_settings.
  destruct (settings d !! u'); [done|]. simpl. by rewrite lookup_insert_ne.
Qed.

Lemma user_data_update_users u u' n e a d :
  u ≠ u' → user_data u (sql_update_users n e a u' d) = user_data u d.
Proof.
  intros Hne. unfold user_data, sql_update_users.
  destruct (users d !! u'); [|done]. simpl. by rewrite lookup_insert_ne.
Qed.

Lemma user_data_upsert_settings u u' x d :
  u ≠ u' → user_data u (sql_upsert_settings u' x d) = user_data u d.
Proof.
  intros Hne. unfold user_data, sql_upsert_settings.
  destruct (settings d !! u'); simpl; by rewrite lookup_insert_ne.
Qed.

Lemma user_data_insert_chat u u' r m t d :
  u ≠ u' → user_data u (sql_insert_chat u' r m t d) = user_data u d.
Proof.
  intros Hne. destruct (decide (MAX_ROWID ≤ last_rowid d)) as [Hf|Hf];
    [by rewrite sql_insert_chat_full|].
  unfold user_data. rewrite sql_select_chat_insert by lia.
  rewrite sql_insert_chat_users, sql_insert_chat_settings.
  rewrite bool_decide_eq_false_2 by done. by rewrite app_nil_r.
Qed.

Lemma user_data_delete_chat u u' d :
  u ≠ u' → user_data u (sql_delete_chat u' d) = user_data u d.
Proof.
  intros Hne. unfold user_data, sql_select_chat, sql_delete_chat. simpl.
  f_equal. f_equal. induction (chat_history d) as [|x l IH]; [done|].
  destruct (decide (c_user_id x = u)) as [Hx|Hx].
  - rewrite (filter_cons_True (λ r, c_user_id r ≠ u')) by congruence.
    rewrite !filter_cons_True by done. by rewrite IH.
  - rewrite (filter_cons_False (λ r, c_user_id r = u) x l) by done.
    destruct (decide (c_user_id x = u')) as [Hx'|Hx'].
    + by rewrite (filter_cons_False (λ r, c_user_id r ≠ u')) by (by intros ?).
    + rewrite (filter_cons_True (λ r, c_user_id r ≠ u')) by done.
      by rewrite filter_cons_False.
Qed.

(** X4. No write operation touches the data of another user: the rows in
    [users] and [settings] and the chat history of every user but the one the
    call names, by its [user_id] up to the first NUL byte, are the same after
    [upsert_settings], [append_chat_message], [clear_chat_history] and
    [import_user_data], on every platform and however the call ends. *)
Theorem run_write_keeps_other_users p op w u :
  u ≠ c_str (op_user op) →
  user_data u (disk (world_of (run_write p op w))) = user_data u (disk w).
Proof.
  intros Hne. set (I := λ d, user_data u d = user_data u (disk w)).
  apply (inv_world_of (λ w, I (disk w)) _ (λ _, True)); [|done].
  assert (∀ r d, I d → I (sql_insert_or_ignore_users (c_str (op_user op)) r d)) as HU0
    by (intros r d Hd; unfold I; by rewrite user_data_insert_or_ignore_users).
  assert (∀ t d, I d → I (sql_insert_or_ignore_settings (c_str (op_user op)) t d))
    as HS0
    by (intros t d Hd; unfold I; by rewrite user_data_insert_or_ignore_settings).
  assert (∀ n e a d, I d → I (sql_update_users n e a (c_str (op_user op)) d)) as HU
    by (intros n e a d Hd; unfold I; by rewrite user_data_update_users).
  assert (∀ x d, I d → I (sql_upsert_settings (c_str (op_user op)) x d)) as HS
    by (intros x d Hd; unfold I; by rewrite user_data_upsert_settings).
  assert (∀ d, I d → I (sql_delete_chat (c_str (op_user op)) d)) as HD
    by (intros d Hd; unfold I; by rewrite user_data_delete_chat).
  assert (∀ r m t d, I d → I (sql_insert_chat (c_str (op_user op)) r m t d)) as HC
    by (intros r m t d Hd; unfold I; by rewrite user_data_insert_chat).
  destruct op as [u' j|u' r m|u'|u' j r]; simpl in *.
  - apply (@upsert_settings_inv p _ I (disk_stable I) (disk_stable_open I));
      auto.
  - apply (@append_chat_message_inv p _ I (disk_stable I)
             (disk_stable_open I)); auto.
  - apply (@clear_chat_history_inv p _ I (disk_stable I)
             (disk_stable_open I)); auto.
  - apply (@import_user_data_inv p _ I (disk_stable I) (disk_stable_open I));
      auto.
Qed.

(** The witness of X4: an import for [u2] that replaces the history. *)
Lemma run_write_keeps_other_users_witness :
  user_data "u1" (disk (world_of
    (run_write (fault_free Proceeds example_clock)
       (Import "u2" (JObj [("chat_history", JArr [message_C])]) true)
       (world_with example_db))))
  = user_data "u1" example_db.
Proof.
  by apply (run_write_keeps_other_users (fault_free Proceeds example_clock)
              (Import "u2" (JObj [("chat_history", JArr [message_C])]) true)
              (world_with example_db) "u1").
Defined.

(** ** What a read writes *)

(** X5. [get_user_settings] and [export_user_data] write nothing but the
    default rows of a user that has none: on every platform and however the
    call ends, the table [chat_history] and its AUTOINCREMENT counter are as
    before, and so is every row of [users] and [settings] that existed or
    belongs to another user than the one [user_id] names up to its first NUL
    byte. *)
Theorem reads_only_provision p user_id w :
  only_provisioned (c_str user_id) (disk w)
    (disk (world_of (get_user_settings p user_id w)))
  ∧ only_provisioned (c_str user_id) (disk w)
      (disk (world_of (export_user_data p user_id w))).
Proof.
  set (k := c_str user_id). set (I := only_provisioned k (disk w)).
  assert (∀ r d, I d → I (sql_insert_or_ignore_users k r d)) as HU0.
  { intros r d (Hc & Hq & Hu & Hs). unfold sql_insert_or_ignore_users.
    destruct (users d !! k) eqn:E; [done|].
    split; [done|]. split; [done|]. split; [|done]. simpl.
    intros u Hcase. destruct (decide (u = k)) as [->|Hne].
    - destruct Hcase as [?|Hsome]; [done|].
      rewrite <-(Hu k), E in Hsome by auto. by destruct Hsome.
    - rewrite lookup_insert_ne by done. by apply Hu. }
  assert (∀ t d, I d → I (sql_insert_or_ignore_settings k t d)) as HS0.
  { intros t d (Hc & Hq & Hu & Hs). unfold sql_insert_or_ignore_settings.
    destruct (settings d !! k) eqn:E; [done|].
    split; [done|]. split; [done|]. split; [done|]. simpl.
    intros u Hcase. destruct (decide (u = k)) as [->|Hne].
    - destruct Hcase as [?|Hsome]; [done|].
      rewrite <-(Hs k), E in Hsome by auto. by destruct Hsome.
    - rewrite lookup_insert_ne by done. by apply Hs. }
  assert (I (disk w)) as Hw by done.
  split; apply (inv_world_of (λ w, I (disk w)) _ (λ _, True)); try done.
  - by apply (@get_user_settings_inv p _ I (disk_stable I)
                (disk_stable_open I)).
  - by apply (@export_user_data_inv p _ I (disk_stable I)
                (disk_stable_open I)).
Qed.

(** ** The endpoints where the mutex blocks its owner *)

Section Blocked.

Variable p : platform.
Hypothesis Hp : on_relock p = Blocks.

(** [P] is a property of the world that taking the mutex and reading the
    clock keep. *)
Variable P : world → Prop.
Hypothesis P_mutex : ∀ w, P w → P (set_mutex true w).
Hypothesis P_tick : ∀ w, P w → P (tick w).

Lemma get_string_pure j : hoare P (get_string j) (λ _, P) P.
Proof. intros w Hw. by destruct j. Qed.

Lemma get_bool_pure j : hoare P (get_bool j) (λ _, P) P.
Proof. intros w Hw. by destruct j. Qed.

Lemma json_erase_pure k j : hoare P (json_erase k j) (λ _, P) P.
Proof. intros w Hw. by destruct j. Qed.

Lemma copy_if_contains_pure j k payload :
  hoare P (copy_if_contains j k payload) (λ _, P) P.
Proof.
  intros w Hw. unfold copy_if_contains.
  destruct (contains j k); [|done]. by destruct payload.
Qed.

(** The functions that provision never return there. *)
Lemma upsert_settings_never_returns {A} u j (Q : A → world → Prop) k :
  hoare P (bind (upsert_settings p u j) k) Q P.
Proof.
  intros w Hw. unfold bind. rewrite upsert_settings_blocks by done.
  by apply P_mutex.
Qed.

Lemma append_chat_message_never_returns {A} u r m (Q : A → world → Prop) k :
  hoare P (bind (append_chat_message p u r m) k) Q P.
Proof.
  intros w Hw. unfold bind. rewrite append_chat_message_blocks by done.
  by apply P_mutex.
Qed.

Lemma import_user_data_never_returns {A} u j r (Q : A → world → Prop) k :
  hoare P (bind (import_user_data p u j r) k) Q P.
Proof.
  intros w Hw. unfold bind. rewrite import_user_data_blocks by done.
  by apply P_mutex.
Qed.

Lemma get_user_settings_never_returns {A} u (Q : A → world → Prop) k :
  hoare P (bind (get_user_settings p u) k) Q P.
Proof.
  intros w Hw. unfold bind. rewrite get_user_settings_blocks by done.
  by apply P_mutex.
Qed.

Lemma export_user_data_never_returns {A} u (Q : A → world → Prop) k :
  hoare P (bind (export_user_data p u) k) Q P.
Proof.
  intros w Hw. unfold bind. rewrite export_user_data_blocks by done.
  by apply P_mutex, P_tick.
Qed.

(** [clear_chat_history] does not return either once the mutex is held. *)
Lemma clear_chat_history_never_returns {A} u (Q : A → world → Prop) k :
  (∀ w, P w → db_mutex w = true) →
  hoare P (bind (clear_chat_history p u) k) Q P.
Proof.
  intros Hm w Hw. unfold bind, clear_chat_history, lock_guard, lock.
  by rewrite (Hm w Hw), Hp.
Qed.

(** A request is refused with status 400 or gets no answer, and [P] holds
    on. Only [GET /health] is answered, and [POST /history/clear] while the
    mutex is free. *)
Lemma handle_blocked r :
  (∀ j, r ≠ POST_history_clear j) ∨ (∀ w, P w → db_mutex w = true) →
  hoare P (handle p r) (λ s w, (s = 400 ∨ r = GET_health) ∧ P w) P.
Proof.
  intros Hr.
  destruct r as [|u|j|j|j|j|j|j|j|u|q j|u]; simpl;
    unfold status_of, get_health, get_settings, get_history_export,
      get_history, post_settings, post_profile, post_notifications,
      post_theme, post_security_biometric, post_history, post_history_clear,
      post_history_import;
    try (apply (hoare_try_catch _ _ _ _ _ P); [|by apply hoare_ret; auto|done]);
    try (eapply (hoare_bind _ _ _ (λ r w, (r.1 = 400 ∨ _) ∧ P w));
         [|by intros ?; apply hoare_ret]);
    repeat lazymatch goal with
      | |- hoare _ (ret _) _ _ => by apply hoare_ret; auto
      | |- hoare _ (if ?b then _ else _) _ _ => destruct b
      | |- hoare _ (bind (iso_now _) _) _ _ =>
          eapply (hoare_bind _ _ _ (λ _, P));
            [by intros w Hw; apply P_tick|intros ?]
      | |- hoare _ (bind (get_string _) _) _ _ =>
          eapply hoare_bind; [apply get_string_pure|intros ?]
      | |- hoare _ (bind (get_bool _) _) _ _ =>
          eapply hoare_bind; [apply get_bool_pure|intros ?]
      | |- hoare _ (bind (json_erase _ _) _) _ _ =>
          eapply hoare_bind; [apply json_erase_pure|intros ?]
      | |- hoare _ (bind (copy_if_contains _ _ _) _) _ _ =>
          eapply hoare_bind; [apply copy_if_contains_pure|intros ?]
      | |- hoare _ (bind (upsert_settings _ _ _) _) _ _ =>
          apply upsert_settings_never_returns
      | |- hoare _ (bind (append_chat_message _ _ _ _) _) _ _ =>
          apply append_chat_message_never_returns
      | |- hoare _ (bind (import_user_data _ _ _ _) _) _ _ =>
          apply import_user_data_never_returns
      | |- hoare _ (bind (get_user_settings _ _) _) _ _ =>
          apply get_user_settings_never_returns
      | |- hoare _ (bind (export_user_data _ _) _) _ _ =>
          apply export_user_data_never_returns
      | |- hoare _ (bind (clear_chat_history _ _) _) _ _ =>
          destruct Hr as [Hr|Hr];
            [by destruct (Hr j)|by apply clear_chat_history_never_returns]
      end.
Qed.

End Blocked.

(** X6. On a platform whose mutex blocks its owner, as on the documented
    build, no request but [POST /history/clear] ever changes the database,
    and no request but that one and [GET /health] is answered with anything
    but status 400: a request for settings, an export or a history is never
    answered and leaves the mutex locked. Once the mutex is locked in this
    way, [POST /history/clear] changes nothing either. *)
Theorem handle_on_blocking_mutex p r w :
  on_relock p = Blocks →
  ((∀ j, r ≠ POST_history_clear j) →
   disk (world_of (handle p r w)) = disk w
   ∧ (r ≠ GET_health → ∀ s w', handle p r w = Ret s w' → s = 400))
  ∧ (∀ u, u ≠ "" → handle p (GET_settings u) w = Hang (set_mutex true w))
  ∧ (db_mutex w = true →
     disk (world_of (handle p r w)) = disk w
     ∧ db_mutex (world_of (handle p r w)) = true).
Proof.
  intros Hp. split; [|split].
  - intros Hr.
    pose proof (handle_blocked p Hp (λ w', disk w' = disk w)
                  (λ _ H, H) (λ _ H, H) r (or_introl Hr) w eq_refl) as H.
    destruct (handle p r w) as [s w'|w'|w']; simpl in *; [|done..].
    destruct H as [Hs Hd]. split; [done|]. intros Hne s' w'' [= <- <-].
    by destruct Hs.
  - intros u Hu. simpl. unfold status_of, get_settings.
    rewrite bool_decide_eq_false_2 by done. unfold bind at 1, bind at 1.
    by rewrite get_user_settings_blocks.
  - intros Hm.
    pose proof (handle_blocked p Hp
                  (λ w', disk w' = disk w ∧ db_mutex w' = true)
                  (λ _ H, conj (proj1 H) eq_refl) (λ _ H, H) r
                  (or_intror (λ _ H, proj2 H)) w (conj eq_refl Hm)) as H.
    destruct (handle p r w) as [s w'|w'|w']; simpl in *; tauto.
Qed.

(** The witness of X6: a request for the settings of the stored user. *)
Lemma handle_on_blocking_mutex_witness :
  disk (world_of (handle (fault_free Blocks example_clock) (GET_settings "u1")
                    (world_with example_db)))
  = example_db.
Proof.
  destruct (handle_on_blocking_mutex (fault_free Blocks example_clock)
              (GET_settings "u1") (world_with example_db) eq_refl) as [H _].
  by apply H.
Defined.

(** ** What [get_user_settings] returns *)

Lemma settings_json_columns user_id u s o :
  settings_json user_id u s = Some o →
  ∃ name email avatar_url theme_mode language app_version updated_at,
    u_name u = Some name ∧ u_email u = Some email
    ∧ u_avatar_url u = Some avatar_url ∧ s_theme_mode s = Some theme_mode
    ∧ s_language s = Some language ∧ s_app_version s = Some app_version
    ∧ s_updated_at s = Some updated_at.
Proof.
  unfold settings_json. intros H.
  destruct (u_name u), (u_email u), (u_avatar_url u), (s_theme_mode s),
    (s_language s), (s_app_version s), (s_updated_at s); try done.
  by eexists _, _, _, _, _, _, _.
Qed.

(** Where the call gets through the lock and no SQLite call fails,
    [get_user_settings] returns the object of the joined row. *)
Lemma get_user_settings_run c user_id w u s o :
  db_mutex w = false →
  sql_select_settings (c_str user_id) (disk (provisioned c user_id w))
  = Some (u, s) →
  settings_json (c_str user_id) u s = Some o →
  get_user_settings (fault_free Proceeds c) user_id w
  = Ret o (set_mutex false
             (count Step (count Prepare (count Open (provisioned c user_id w))))).
Proof.
  intros Hm Hrow Ho.
  destruct (settings_json_columns _ _ _ _ Ho)
    as (n & e & a & th & l & v & up & Hn & He & Ha & Hth & Hl & Hv & Hup).
  unfold settings_json in Ho. rewrite Hn, He, Ha, Hth, Hl, Hv, Hup in Ho.
  injection Ho as <-.
  unfold get_user_settings. rewrite lock_guard_ensure_fault_free by done.
  generalize dependent (provisioned c user_id w). intros w1 Hrow.
  repeat (unfold bind at 1; run_ok). unfold bind at 1.
  unfold sqlite3_step_row, bind at 1.
  cbn [sqlite_ok fault_free fails negb view disk count]. rewrite Hrow.
  rewrite Hn, He, Ha, Hth, Hl, Hv, Hup. reflexivity.
Qed.

Lemma select_settings_rows user_id d u s :
  sql_select_settings user_id d = Some (u, s) →
  users d !! user_id = Some u ∧ settings d !! user_id = Some s.
Proof.
  unfold sql_select_settings.
  destruct (users d !! user_id), (settings d !! user_id); try done.
  by intros [= -> ->].
Qed.

Lemma no_null_text_json user_id u s :
  no_null_text u s → is_Some (settings_json user_id u s).
Proof.
  intros ([? Hn] & [? He] & [? Ha] & [? Hth] & [? Hl] & [? Hv] & [? Hup]).
  unfold settings_json. by rewrite Hn, He, Ha, Hth, Hl, Hv, Hup.
Qed.

(** Member by member, the object shows the stored cells. *)
Lemma settings_json_shows user_id d u s o :
  users d !! user_id = Some u → settings d !! user_id = Some s →
  settings_json user_id u s = Some o →
  ∀ f, json_find o (field_name f) = shown <$> stored d user_id f.
Proof.
  intros Hu Hs Ho.
  destruct (settings_json_columns _ _ _ _ Ho)
    as (n & e & a & th & l & v & up & Hn & He & Ha & Hth & Hl & Hv & Hup).
  unfold settings_json in Ho. rewrite Hn, He, Ha, Hth, Hl, Hv, Hup in Ho.
  injection Ho as <-.
  intros f; destruct f; unfold stored; rewrite ?Hu, ?Hs; simpl;
    rewrite ?Hn, ?He, ?Ha, ?Hth, ?Hl, ?Hv; try reflexivity;
    unfold column_bool;
    lazymatch goal with
    | |- context [default 0 ?x] => by destruct x
    end.
Qed.

Lemma dumps_default_json user_id updated_at :
  dumps (default_json user_id updated_at)
  = valid_utf8 user_id && valid_utf8 updated_at.
Proof.
  unfold default_json. cbn [dumps forallb].
  change (valid_utf8 "user_id") with true. change (valid_utf8 "name") with true.
  change (valid_utf8 "User Name") with true.
  change (valid_utf8 "email") with true.
  change (valid_utf8 "user@example.com") with true.
  change (valid_utf8 "avatar_url") with true. change (valid_utf8 "") with true.
  change (valid_utf8 "theme_mode") with true.
  change (valid_utf8 "System") with true.
  change (valid_utf8 "dark_mode") with true.
  change (valid_utf8 "notifications_enabled") with true.
  change (valid_utf8 "chat_notifications") with true.
  change (valid_utf8 "update_notifications") with true.
  change (valid_utf8 "reminder_notifications") with true.
  change (valid_utf8 "language") with true.
  change (valid_utf8 "English") with true.
  change (valid_utf8 "biometric_lock") with true.
  change (valid_utf8 "app_version") with true.
  change (valid_utf8 "1.0.0") with true.
  change (valid_utf8 "updated_at") with true.
  cbn [andb]. by rewrite !andb_true_r.
Qed.

Lemma get_user_settings_new_user c user_id w :
  db_mutex w = false →
  users (disk w) !! c_str user_id = None →
  settings (disk w) !! c_str user_id = None →
  get_user_settings (fault_free Proceeds c) user_id w
  = Ret (default_json (c_str user_id) (c_str (c (S (ticks w)))))
      (set_mutex false
         (count Step (count Prepare (count Open (provisioned c user_id w))))).
Proof.
  intros Hm Hu Hs.
  assert (sql_select_settings (c_str user_id) (disk (provisioned c user_id w))
          = Some (default_user (Some (c_str (c (ticks w)))),
                  default_settings (Some (c_str (c (S (ticks w))))))) as Hrow.
  { unfold sql_select_settings. cbn [provisioned disk].
    unfold provision, sql_insert_or_ignore_users. rewrite Hu.
    unfold sql_insert_or_ignore_settings. cbn [set_users settings users].
    rewrite Hs. cbn [set_settings settings users].
    unfold set_users. cbn [users settings]. by rewrite !lookup_insert_eq. }
  rewrite (get_user_settings_run c user_id w _ _ _ Hm Hrow eq_refl).
  unfold default_json. by rewrite !c_str_idemp.
Qed.

(** X7. Where the call gets through the lock and no SQLite call fails,
    [GET /settings] for a user that has no rows yet creates them, and, when
    the name of the user and the text of the clock are well-formed UTF-8,
    answers with the defaults: name [User Name], theme [System], language
    [English], version [1.0.0], notifications on except reminders, dark mode
    and biometric lock off, and the time of the insertion as [updated_at].
    The user is the one [user_id] names up to its first NUL byte. When that
    name is not well-formed UTF-8 the rows are created all the same, and the
    handler ends by the exception of [dump()] instead of an answer. *)
Theorem get_settings_new_user c user_id w :
  db_mutex w = false → user_id ≠ "" →
  users (disk w) !! c_str user_id = None →
  settings (disk w) !! c_str user_id = None →
  ∃ w', has_rows (c_str user_id) (disk w') ∧ db_mutex w' = false
        ∧ (valid_utf8 (c_str user_id) = true →
           valid_utf8 (c_str (c (S (ticks w)))) = true →
           get_settings (fault_free Proceeds c) user_id w
           = Ret (200, default_json (c_str user_id) (c_str (c (S (ticks w)))))
               w')
        ∧ (valid_utf8 (c_str user_id) = false →
           get_settings (fault_free Proceeds c) user_id w = Throw w').
Proof.
  intros Hm Hne Hu Hs.
  pose proof (get_user_settings_new_user c user_id w Hm Hu Hs) as Hg.
  exists (set_mutex false
            (count Step (count Prepare (count Open (provisioned c user_id w))))).
  split; [apply has_rows_provision|]. split; [done|].
  unfold get_settings. rewrite bool_decide_eq_false_2 by done.
  unfold bind, dump. rewrite Hg, dumps_default_json.
  split.
  - intros -> ->. reflexivity.
  - intros ->. reflexivity.
Qed.

(** The witness of X7: user [u2] is not in the example database. *)
Lemma get_settings_new_user_witness :
  ∃ w', get_settings (fault_free Proceeds example_clock) "u2"
          (world_with example_db)
        = Ret (200, default_json "u2" "2025-01-01T00:00:00Z") w'
        ∧ has_rows "u2" (disk w') ∧ db_mutex w' = false.
Proof.
  destruct (get_settings_new_user example_clock "u2" (world_with example_db))
    as (w' & Hr & Hm & H200 & _); [done..|].
  exists w'. split; [by apply H200|done].
Defined.

(** X8. Where the call gets through the lock and no SQLite call fails, and
    no text column of the rows of the user is NULL, [get_user_settings]
    returns an object that shows every stored field of the user: a text up
    to its first NUL byte, an integer as the boolean "not zero" of its low
    32 bits. The user is the one [user_id] names up to its first NUL byte,
    and the database is the one [ensure_user_exists] leaves. *)
Theorem get_user_settings_shows_stored c user_id w u s :
  db_mutex w = false →
  sql_select_settings (c_str user_id) (disk (provisioned c user_id w))
  = Some (u, s) →
  no_null_text u s →
  ∃ o w', get_user_settings (fault_free Proceeds c) user_id w = Ret o w'
          ∧ disk w' = disk (provisioned c user_id w)
          ∧ json_find o "user_id" = Some (JStr (c_str user_id))
          ∧ ∀ f, json_find o (field_name f)
                 = shown <$> stored (disk w') (c_str user_id) f.
Proof.
  intros Hm Hrow Hnn.
  destruct (no_null_text_json (c_str user_id) u s Hnn) as [o Ho].
  destruct (select_settings_rows _ _ _ _ Hrow) as [Hu Hs].
  exists o. eexists. split; [by apply (get_user_settings_run c user_id w u s)|].
  split; [done|]. split.
  - destruct (settings_json_columns _ _ _ _ Ho)
      as (n & e & a & th & l & v & up & Hn & He & Ha & Hth & Hl & Hv & Hup).
    unfold settings_json in Ho. rewrite Hn, He, Ha, Hth, Hl, Hv, Hup in Ho.
    injection Ho as <-. cbn. by rewrite c_str_idemp.
  - by apply (settings_json_shows (c_str user_id) _ u s).
Qed.

(** The witness of X8: the stored user of the example. *)
Lemma get_user_settings_shows_stored_witness :
  ∃ o w', get_user_settings (fault_free Proceeds example_clock) "u1"
            (world_with example_db) = Ret o w'
          ∧ disk w' = disk (provisioned example_clock "u1"
                              (world_with example_db))
          ∧ json_find o "user_id" = Some (JStr "u1")
          ∧ ∀ f, json_find o (field_name f)
                 = shown <$> stored (disk w') "u1" f.
Proof.
  eapply (get_user_settings_shows_stored example_clock "u1");
    [done|by vm_compute|].
  repeat split; by eexists.
Defined.

(** ** An update and the settings read after it *)





(** ** An export and the import of it *)







(** ** The history endpoints *)







(** X13. [POST /history/clear] works on every build: whether the mutex
    blocks its owner or not, where no SQLite call fails the request is
    answered 200, the history of the user is empty afterwards, the tables
    [users] and [settings] are as they were, and the mutex is free again.
    The user is the one [user_id] names up to its first NUL byte, which for
    a [user_id] without a NUL byte is the [user_id] itself. *)
Theorem post_history_clear_clears r c j user_id w :
  db_mutex w = false →
  json_find j "user_id" = Some (JStr user_id) →
  ∃ w', post_history_clear (fault_free r c) j w = Ret 200 w'
        ∧ sql_select_chat (c_str user_id) (disk w') = []
        ∧ users (disk w') = users (disk w)
        ∧ settings (disk w') = settings (disk w)
        ∧ db_mutex w' = false.
Proof.
  intros Hm Hu. unfold post_history_clear, try_catch.
  rewrite (contains_find _ _ _ Hu), (json_at_find _ _ _ Hu).
  cbn [negb get_string]. unfold bind at 1. cbn [ret]. unfold bind at 1.
  unfold clear_chat_history, lock_guard, lock. rewrite Hm.
  repeat (unfold bind at 1; run_ok).
  eexists. split; [reflexivity|].
  cbn [disk set_disk set_mutex count db_mutex].
  by rewrite sql_select_chat_delete.
Qed.

(** The witness of X13: on the documented build. *)
Lemma post_history_clear_clears_witness :
  ∃ w', post_history_clear (fault_free Blocks example_clock)
          (JObj [("user_id", JStr "u1")]) (world_with example_db) = Ret 200 w'
        ∧ sql_select_chat "u1" (disk w') = []
        ∧ users (disk w') = users example_db
        ∧ settings (disk w') = settings example_db
        ∧ db_mutex w' = false.
Proof.
  by apply (post_history_clear_clears Blocks example_clock
              (JObj [("user_id", JStr "u1")]) "u1" (world_with example_db)).
Defined.

(** ** The endpoints that update settings *)



Lemma well_typed_ext j j' :
  (∀ f, json_find j (field_name f) = json_find j' (field_name f)) →
  well_typed j' → well_typed j.
Proof.
  intros H Hj f. specialize (Hj f). unfold well_typed_at in *. by rewrite H.
Qed.

Lemma json_find_erase_user_id m f :
  json_find (JObj (members_erase "user_id" m)) (field_name f)
  = json_find (JObj m) (field_name f).
Proof.
  simpl. rewrite members_find_erase.
  rewrite bool_decide_eq_false_2; [done|]. by destruct f.
Qed.









(** ** The theorems above on the stored user *)




(** The witness of X20. *)
Lemma export_user_data_history_witness :
  ∃ settings_json w',
    export_user_data (fault_free Proceeds example_clock) "u1"
      (world_with example_db)
    = Ret (JObj [("exported_at", JStr "2025-01-01T00:00:00Z");
                 ("settings", settings_json);
                 ("chat_history",
                    JArr (chat_json <$> sql_select_chat "u1" example_db))]) w'.
Proof.
  eapply (export_user_data_history example_clock "u1" (world_with example_db));
    [done|by vm_compute|].
  repeat split; by eexists.
Defined.

(** The witness of X21: a first message for a user that has no rows. *)
Lemma run_write_referential_witness :
  referential (disk (world_of
    (run_write (fault_free Proceeds example_clock)
       (Append "ghost" "user" "hello") (world_with example_db)))).
Proof.
  by apply (run_write_referential example_clock
              (Append "ghost" "user" "hello") (world_with example_db) eq_refl
              referential_example_db).
Defined.

(** ** An update with a member of the wrong type *)

Lemma bind_text_if_contains_untyped j f w :
  well_typed_at j f = false → is_boolean f = false →
  bind_text_if_contains j (field_name f) w = Throw w.
Proof.
  unfold well_typed_at, bind_text_if_contains, contains, json_at.
  intros Ht Hf. rewrite Hf in Ht.
  by destruct (json_find j (field_name f)) as [[]|].
Qed.

Lemma string_or_empty_untyped j f w :
  well_typed_at j f = false → is_boolean f = false →
  string_or_empty j (field_name f) w = Throw w.
Proof.
  unfold well_typed_at, string_or_empty, contains, json_at.
  intros Ht Hf. rewrite Hf in Ht.
  by destruct (json_find j (field_name f)) as [[]|].
Qed.

Lemma int_or_minus_one_untyped j f w :
  well_typed_at j f = false → is_boolean f = true →
  int_or_minus_one j (field_name f) w = Throw w.
Proof.
  unfold well_typed_at, int_or_minus_one, contains, json_at.
  intros Ht Hf. rewrite Hf in Ht.
  by destruct (json_find j (field_name f)) as [[]|].
Qed.

(** A profile key of the wrong type is present, so the profile UPDATE is
    prepared. *)
Lemma untyped_contains j f :
  well_typed_at j f = false → contains j (field_name f) = true.
Proof.
  unfold well_typed_at. intros Ht.
  destruct (json_find j (field_name f)) as [v|] eqn:E; [|done].
  by apply (contains_find _ _ v).
Qed.

(** The next reader of [upsert_settings]: it returns the parameter when its
    key is well typed and throws when it is not. *)
Ltac read_or_throw j :=
  unfold bind at 1;
  lazymatch goal with
  | |- context [string_or_empty j ?k ?w] =>
      let f := lazymatch k with
               | "theme_mode" => constr:(F_theme_mode)
               | "language" => constr:(F_language)
               | "app_version" => constr:(F_app_version)
               end in
      let s := fresh "s" in let E := fresh "E" in let H := fresh "Hp" in
      let Ht := fresh "Ht" in
      destruct (well_typed_at j f) eqn:Ht;
        [destruct (string_or_empty_typed j f w Ht eq_refl) as (s & E & H);
         cbn [field_name] in E; rewrite E; clear E
        |pose proof (string_or_empty_untyped j f w Ht eq_refl) as E;
         cbn [field_name] in E; rewrite E; clear E]
  | |- context [int_or_minus_one j ?k ?w] =>
      let f := lazymatch k with
               | "dark_mode" => constr:(F_dark_mode)
               | "notifications_enabled" => constr:(F_notifications_enabled)
               | "chat_notifications" => constr:(F_chat_notifications)
               | "update_notifications" => constr:(F_update_notifications)
               | "reminder_notifications" => constr:(F_reminder_notifications)
               | "biometric_lock" => constr:(F_biometric_lock)
               end in
      let s := fresh "n" in let E := fresh "E" in let H := fresh "Hp" in
      let Ht := fresh "Ht" in
      destruct (well_typed_at j f) eqn:Ht;
        [destruct (int_or_minus_one_typed j f w Ht eq_refl) as (s & E & H);
         cbn [field_name] in E; rewrite E; clear E
        |pose proof (int_or_minus_one_untyped j f w Ht eq_refl) as E;
         cbn [field_name] in E; rewrite E; clear E]
  | |- context [bind_text_if_contains j ?k ?w] =>
      let f := lazymatch k with
               | "name" => constr:(F_name)
               | "email" => constr:(F_email)
               | "avatar_url" => constr:(F_avatar_url)
               end in
      let E := fresh "E" in let Ht := fresh "Ht" in
      destruct (well_typed_at j f) eqn:Ht;
        [pose proof (bind_text_if_contains_typed j f w Ht eq_refl) as E
        |pose proof (bind_text_if_contains_untyped j f w Ht eq_refl) as E];
      cbn [field_name] in E; rewrite E; clear E
  end.

(** Where the call gets through the lock and no SQLite call fails, an update
    with a recognised key of the wrong type makes [upsert_settings] throw,
    before its COMMIT: nothing of the update is stored. *)
Lemma upsert_settings_rejects c user_id j w :
  db_mutex w = false → ¬ well_typed j →
  ∃ w', upsert_settings (fault_free Proceeds c) user_id j w = Throw w'
        ∧ disk w' = disk (provisioned c user_id w) ∧ db_mutex w' = false.
Proof.
  intros Hm Hj. unfold upsert_settings.
  rewrite lock_guard_ensure_fault_free by done.
  generalize (provisioned c user_id w). intros w1.
  repeat (unfold bind at 1; run_ok).
  assert (∀ w2 : world, disk w2 = disk w1 →
            ∃ w', Throw (A := bool) (set_mutex false w2) = Throw w'
                  ∧ disk w' = disk w1 ∧ db_mutex w' = false) as Hthrow
    by (intros w2 Hw2; by exists (set_mutex false w2)).
  destruct (contains j "name" || contains j "email" || contains j "avatar_url")
    eqn:Hprofile.
  - repeat (unfold bind at 1; run_ok).
    repeat first [run_ok | read_or_throw j; [|by apply Hthrow]
                 | unfold bind at 1].
    destruct Hj. by intros [].
  - repeat first [run_ok | read_or_throw j; [|by apply Hthrow]
                 | unfold bind at 1].
    destruct Hj. intros []; try done.
    + destruct (well_typed_at j F_name) eqn:E; [done|].
      apply untyped_contains in E. cbn [field_name] in E.
      by rewrite E in Hprofile.
    + destruct (well_typed_at j F_email) eqn:E; [done|].
      apply untyped_contains in E. cbn [field_name] in E.
      rewrite E in Hprofile. by rewrite orb_true_r in Hprofile.
    + destruct (well_typed_at j F_avatar_url) eqn:E; [done|].
      apply untyped_contains in E. cbn [field_name] in E.
      rewrite E in Hprofile. by rewrite orb_true_r in Hprofile.
Qed.

(** X22. An update is stored whole or not at all: where the call gets
    through the lock and no SQLite call fails, [POST /settings] with an
    update in which a recognised key has the wrong type (a string for a
    toggle, a boolean or a number for a text) answers 400, and the database
    is the one [ensure_user_exists] leaves, with the default rows of the
    user that [user_id] names up to its first NUL byte: no member of the
    update is stored, the well-typed ones that come first included. *)
Theorem post_settings_rejects c j user_id m w :
  db_mutex w = false →
  json_find j "user_id" = Some (JStr user_id) →
  default j (json_find j "settings") = JObj m →
  ¬ well_typed (JObj m) →
  ∃ w', post_settings (fault_free Proceeds c) j w = Ret 400 w'
        ∧ disk w' = disk (provisioned c user_id w) ∧ db_mutex w' = false.
Proof.
  intros Hm Hu Hs Hj. unfold post_settings, try_catch.
  rewrite (contains_find _ _ _ Hu), (json_at_find _ _ _ Hu), Hs.
  cbn [negb get_string json_erase]. unfold bind at 1. cbn [ret].
  unfold bind at 1. cbn [ret].
  destruct (upsert_settings_rejects c user_id
              (JObj (members_erase "user_id" m)) w Hm)
    as (w' & Hr & Hd & Hm').
  { intros Hj'. apply Hj. apply (well_typed_ext _ _ (λ f, eq_sym
      (json_find_erase_user_id m f)) Hj'). }
  unfold bind at 1. rewrite Hr. by exists w'.
Qed.

(** The witness of X22: the name is well typed, the toggle is not, and the
    name is not stored. *)
Lemma post_settings_rejects_witness :
  ∃ w', post_settings (fault_free Proceeds example_clock)
          (JObj [("user_id", JStr "u1"); ("name", JStr "Ann");
                 ("dark_mode", JStr "yes")]) (world_with example_db)
        = Ret 400 w'
        ∧ disk w' = disk (provisioned example_clock "u1"
                            (world_with example_db))
        ∧ db_mutex w' = false.
Proof.
  apply (post_settings_rejects example_clock
           (JObj [("user_id", JStr "u1"); ("name", JStr "Ann");
                  ("dark_mode", JStr "yes")]) "u1"
           [("user_id", JStr "u1"); ("name", JStr "Ann");
            ("dark_mode", JStr "yes")] (world_with example_db)); try done.
  intros H. by specialize (H F_dark_mode).
Defined.

(** ** A write operation that reports a failure *)

Lemma only_provisioned_refl user_id d : only_provisioned user_id d d.
Proof. done. Qed.

Lemma only_provisioned_users user_id d0 r d :
  only_provisioned user_id d0 d →
  only_provisioned user_id d0 (sql_insert_or_ignore_users user_id r d).
Proof.
  intros (Hc & Hq & Hu & Hs). unfold sql_insert_or_ignore_users.
  destruct (users d !! user_id) eqn:E; [done|].
  split; [done|]. split; [done|]. split; [|done]. simpl.
  intros u Hcase. destruct (decide (u = user_id)) as [->|Hne].
  - destruct Hcase as [?|Hsome]; [done|].
    rewrite <-(Hu user_id), E in Hsome by auto. by destruct Hsome.
  - rewrite lookup_insert_ne by done. by apply Hu.
Qed.

Lemma only_provisioned_settings user_id d0 t d :
  only_provisioned user_id d0 d →
  only_provisioned user_id d0 (sql_insert_or_ignore_settings user_id t d).
Proof.
  intros (Hc & Hq & Hu & Hs). unfold sql_insert_or_ignore_settings.
  destruct (settings d !! user_id) eqn:E; [done|].
  split; [done|]. split; [done|]. split; [done|]. simpl.
  intros u Hcase. destruct (decide (u = user_id)) as [->|Hne].
  - destruct Hcase as [?|Hsome]; [done|].
    rewrite <-(Hs user_id), E in Hsome by auto. by destruct Hsome.
  - rewrite lookup_insert_ne by done. by apply Hs.
Qed.

(** X23. A write operation that returns false has written nothing of its
    own: on every platform, when [upsert_settings], [append_chat_message],
    [clear_chat_history] or [import_user_data] returns false, the database
    is the one before the call with, at most, the default rows of the user
    added: the chat history, and every row of [users] and [settings] that
    existed or belongs to another user, are as before. The user is the one
    the [user_id] of the call names up to its first NUL byte. *)
Theorem write_failure_changes_nothing p op w w' :
  run_write p op w = Ret false w' →
  only_provisioned (c_str (op_user op)) (disk w) (disk w').
Proof.
  intros Hrun. set (I := only_provisioned (c_str (op_user op)) (disk w)).
  assert (hoare (λ w, I (disk w)) (run_write p op)
            (λ b w, b = false → I (disk w)) (λ _, True)) as Hh.
  { assert (∀ u j, inv (λ _, True) (upsert_settings p u j) (λ _, True)) as Hup.
    { intros u j. apply (upsert_settings_inv p (λ _, True) (λ _, True)); auto. }
    assert (∀ u ms db, inv (λ _, True) (import_messages p u ms db)
                         (conn_ok (λ _, True))) as Him.
    { intros u ms db.
      apply (import_messages_inv p (λ _, True) (λ _, True));
        [auto|by destruct db]. }
    assert (inv (λ w, I (disk w)) (ensure_user_exists p (op_user op))
              (λ _, True)) as Hens.
    { apply (@ensure_user_exists_inv p _ I (disk_stable I)
               (disk_stable_open I)).
      - intros r d. apply only_provisioned_users.
      - intros t d. apply only_provisioned_settings. }
    destruct op as [u j|u r m|u|u j r]; simpl in *;
      unfold upsert_settings, append_chat_message, clear_chat_history,
        import_user_data;
      (apply hoare_lock_guard; [blind..|]);
      try (eapply hoare_bind;
           [eapply (inv_hoare _ _ _ _ (λ _ w, I (disk w)));
            [exact Hens|done|by intros ?? []|done]
           |intros []]);
      (eapply hoare_bind;
       [eapply (inv_hoare _ _ _ _ (λ _ w, I (disk w)));
        [apply (@inv_sqlite3_open p _ I (disk_stable_open I))|done
        |by intros ?? []|done]
       |intros [db|]]);
      try (by apply hoare_ret);
      assert (conn_ok (λ _ : database, True) db) by (by destruct db);
      (apply (inv_hoare (λ _, True) _ (λ b, b = true)); [|done| |done]);
      try (by intros b ? _ -> [=]);
      repeat (inv_step (λ _ : database, True); eauto);
      by simpl. }
  specialize (Hh w (only_provisioned_refl _ _)). rewrite Hrun in Hh.
  by apply Hh.
Qed.

(** The witness of X23: the connection of [clear_chat_history] cannot be
    opened. *)
Lemma write_failure_changes_nothing_witness :
  only_provisioned "u1" example_db
    (disk (world_of (clear_chat_history (one_failure Blocks Open 0) "u1"
                       (world_with example_db)))).
Proof.
  by apply (write_failure_changes_nothing (one_failure Blocks Open 0)
              (Clear "u1") (world_with example_db)).
Defined.

(** ** One update after another *)




(** ** The import endpoint *)




(** The loop of [import_user_data] throws at the first message that is not
    an object with string members; as long as the table has room for the
    messages before it, the transaction is still open then, and the view of
    the connection is lost. *)
Lemma import_messages_throws r c user_id ms :
  ∀ db w,
    imported c (ticks w) ms = None → db ≠ Autocommit →
    room (length ms) (view db w) →
    ∃ w', import_messages (fault_free r c) user_id ms db w = Throw w'
          ∧ disk w' = disk w ∧ db_mutex w' = db_mutex w.
Proof.
  induction ms as [|m ms IH]; intros db w Hnone Hdb Hroom; simpl in *; [done|].
  destruct (message_fields m (c (ticks w))) as [[[ro me] cr]|] eqn:Hm.
  - destruct (imported c (S (ticks w)) ms) as [fs|] eqn:Hfs; [done|].
    destruct m as [| | | | |o]; try done. simpl in Hm.
    destruct (member_or o "role" "user") as [ro'|] eqn:E1; [|done].
    destruct (member_or o "message" "") as [me'|] eqn:E2; [|done].
    destruct (member_or o "created_at" (c (ticks w))) as [cr'|] eqn:E3; [|done].
    unfold bind at 1. rewrite json_value_member, E1.
    unfold bind at 1. rewrite json_value_member, E2.
    unfold bind at 1. cbn [iso_now fault_free clock].
    unfold bind at 1. rewrite json_value_member, E3.
    unfold bind at 1.
    pose proof (chat_history_full_room _ _ Hroom) as Hfull.
    destruct db as [| |d]; [done| |];
      cbn [sqlite3_step_insert bind sqlite_ok fault_free fails negb ret];
      lazymatch goal with
      | |- context [chat_history_full ?x] =>
          replace (chat_history_full x) with false by (symmetry; exact Hfull)
      end;
      lazymatch goal with
      | |- context [import_messages _ _ ms ?db1 ?w1] =>
          destruct (IH db1 w1) as (w' & -> & Hd & Hmx);
            [done|done|by apply room_insert|]
      end;
      by exists w'.
  - destruct m as [| | | | |o]; try (by eexists).
    simpl in Hm. unfold bind at 1. rewrite json_value_member.
    destruct (member_or o "role" "user") as [ro'|] eqn:E1; [|by eexists].
    unfold bind at 1. rewrite json_value_member.
    destruct (member_or o "message" "") as [me'|] eqn:E2; [|by eexists].
    unfold bind at 1. cbn [iso_now fault_free clock].
    unfold bind at 1. rewrite json_value_member.
    destruct (member_or o "created_at" (c (ticks w))) as [cr'|] eqn:E3;
      [done|by eexists].
Qed.

(** Where the call gets through the lock and no SQLite call fails, an import
    with a message that is not an object with string members throws before
    its COMMIT. *)
Lemma import_user_data_throws c user_id payload ms replace w :
  db_mutex w = false →
  well_typed (json_at payload "settings") →
  json_find payload "chat_history" = Some (JArr ms) →
  imported c (import_start payload w) ms = None →
  room (length ms) (disk w) →
  ∃ w', import_user_data (fault_free Proceeds c) user_id payload replace w
        = Throw w'
        ∧ chat_history (disk w') = chat_history (disk w)
        ∧ sqlite_sequence (disk w') = sqlite_sequence (disk w)
        ∧ db_mutex w' = false.
Proof.
  intros Hm Hj Hch Hrows Hroom.
  unfold import_user_data. rewrite lock_guard_ensure_fault_free by done.
  pose proof (chat_history_provisioned c user_id w) as Hsel.
  generalize dependent (eq_refl : ticks (provisioned c user_id w) = S (S (ticks w))).
  generalize dependent (eq_refl : db_mutex (provisioned c user_id w) = false).
  generalize dependent (provisioned c user_id w). intros w1 Hsel Hm1 Ht1.
  repeat (unfold bind at 1; run_ok). unfold bind at 1.
  unfold import_start in Hrows.
  rewrite (contains_find _ _ _ Hch), (json_at_find _ _ _ Hch).
  cbn [json_items].
  assert (∃ w2, (if contains payload "settings"
                 then upsert_settings (fault_free Proceeds c) user_id
                        (json_at payload "settings")
                 else ret true) (count Exec (count Open w1)) = Ret true w2
                ∧ (chat_history (disk w2) = chat_history (disk w)
                   ∧ sqlite_sequence (disk w2) = sqlite_sequence (disk w))
                ∧ db_mutex w2 = false
                ∧ imported c (ticks w2) ms = None)
    as (w2 & -> & Hsel2 & Hm2 & Hrows2).
  { destruct (contains payload "settings").
    - destruct (upsert_settings_merges c user_id (json_at payload "settings")
                  (count Exec (count Open w1)) Hm1 Hj)
        as (w2 & -> & Hd2 & Ht2 & Hm2).
      exists w2. split; [done|]. split; [|split; [done|]].
      + rewrite Hd2.
        rewrite (proj1 (chat_history_merge _ _ _ _)),
          (proj2 (chat_history_merge _ _ _ _)).
        cbn [provisioned disk count].
        by rewrite (proj1 (chat_history_provision _ _ _ _)),
          (proj2 (chat_history_provision _ _ _ _)).
      + rewrite Ht2. cbn [ticks count]. by rewrite Ht1.
    - eexists. split; [reflexivity|]. cbn [disk db_mutex ticks count].
      split; [done|]. split; [done|]. by rewrite Ht1. }
  assert (room (length ms) (disk w2)) as Hroom2
    by (eapply room_ext; [apply Hsel2|apply Hsel2|done]).
  unfold bind at 1.
  destruct replace; cbn [ret]; repeat (unfold bind at 1; run_ok);
    lazymatch goal with
    | |- context [import_messages _ _ ms ?db1 ?w3] =>
        destruct (import_messages_throws Proceeds c user_id ms db1 w3)
          as (w' & -> & Hd & Hmx);
          [exact Hrows2|done
          |cbn [view disk count]; first [by apply room_delete|done]|]
    end;
    cbn [disk count db_mutex] in Hd, Hmx;
    (eexists; split; [reflexivity|]);
    cbn [disk set_mutex db_mutex]; rewrite Hd; by destruct Hsel2.
Qed.

(** X26. The messages of an import are stored all or not at all: where the
    call gets through the lock and no SQLite call fails, and the table has
    room for the messages, [POST /history/import] with a [chat_history]
    array in which a message is not an object with string members answers
    400, and the table [chat_history] is as before the request: no message
    of the array is stored, and with [replace] nothing has been deleted.
    The room is needed: an INSERT into the full table ends the transaction
    of the import, and the messages after it are committed one by one
    ([import_user_data_table_full]). *)
Theorem post_history_import_rejects c q j user_id ms w :
  db_mutex w = false →
  json_find j "user_id" = Some (JStr user_id) →
  well_typed (json_at j "settings") →
  json_find j "chat_history" = Some (JArr ms) →
  imported c (import_start j w) ms = None →
  room (length ms) (disk w) →
  ∃ w', post_history_import (fault_free Proceeds c) q j w = Ret 400 w'
        ∧ chat_history (disk w') = chat_history (disk w)
        ∧ sqlite_sequence (disk w') = sqlite_sequence (disk w)
        ∧ db_mutex w' = false.
Proof.
  intros Hm Hu Hj Hch Hrows Hroom. unfold post_history_import, try_catch.
  rewrite (contains_find _ _ _ Hu), (json_at_find _ _ _ Hu).
  cbn [negb get_string]. unfold bind at 1. cbn [ret]. unfold bind at 1.
  destruct (import_user_data_throws c user_id j ms (replace_param q) w
              Hm Hj Hch Hrows Hroom) as (w' & -> & Hc & Hq & Hm').
  by exists w'.
Qed.

(** The witness of X26: the second message has a number as its text, and
    the history is to be replaced. *)
Lemma post_history_import_rejects_witness :
  ∃ w', post_history_import (fault_free Proceeds example_clock) "true"
          (JObj [("user_id", JStr "u1");
                 ("chat_history",
                    JArr [message_C; JObj [("message", JNum 7)]])])
          (world_with example_db) = Ret 400 w'
        ∧ chat_history (disk w') = chat_history example_db
        ∧ sqlite_sequence (disk w') = sqlite_sequence example_db
        ∧ db_mutex w' = false.
Proof.
  apply (post_history_import_rejects example_clock "true"
           (JObj [("user_id", JStr "u1");
                  ("chat_history",
                     JArr [message_C; JObj [("message", JNum 7)]])])
           "u1" [message_C; JObj [("message", JNum 7)]]
           (world_with example_db)); done.
Defined.

(** ** Requests that name no user *)

(** X27. A request that names no user is refused before anything happens:
    on every platform, a GET request for settings, an export or a history
    with an empty [user_id], and a POST request whose body has no [user_id]
    or one that is not a string, are answered 400 and leave the world as it
    is: no lock is taken, the clock is not read and no SQLite call is
    made. *)
Theorem handle_requires_user p r w :
  names_user r = false → handle p r w = Ret 400 w.
Proof.
  intros Hr.
  destruct r as [|u|j|j|j|j|j|j|j|u|q j|u]; simpl in *; try done;
    unfold status_of, get_settings, get_history_export, get_history,
      post_settings, post_profile, post_notifications, post_theme,
      post_security_biometric, post_history, post_history_clear,
      post_history_import, try_catch;
    try (apply negb_false_iff in Hr; unfold bind; by rewrite Hr);
    unfold has_user_id in Hr;
    (destruct (json_find j "user_id") as [v|] eqn:Hu;
     [rewrite (json_at_find _ _ _ Hu), (contains_find _ _ _ Hu)
     |unfold contains; rewrite Hu; by rewrite bool_decide_eq_false_2
        by (by intros [??])]);
    repeat lazymatch goal with
      | |- context [contains j ?k] => destruct (contains j k)
      end;
    cbn [negb orb]; try done;
    unfold bind at 1; by destruct v.
Qed.

(** The witness of X27: a number as [user_id]. *)
Lemma handle_requires_user_witness :
  handle (fault_free Proceeds example_clock)
    (POST_theme (JObj [("user_id", JNum 1); ("theme_mode", JStr "Dark")]))
    (world_with example_db)
  = Ret 400 (world_with example_db).
Proof. by apply handle_requires_user. Defined.

(** ** Every request is answered where the mutex lets its owner through *)

Lemma answers_ret {A} (a : A) (Q : A → Prop) T : Q a → answers (ret a) Q T.
Proof. by intros H w. Qed.

Lemma answers_throw {A} (Q : A → Prop) (T : Prop) : T → answers throw Q T.
Proof. by intros H w. Qed.

Lemma answers_bind {A B} (m : M A) (f : A → M B) (Q : B → Prop) (T : Prop) :
  answers m (λ _, True) T → (∀ a, answers (f a) Q T) →
  answers (bind m f) Q T.
Proof.
  intros Hm Hf w. unfold bind. specialize (Hm w).
  destruct (m w) as [a w'| |]; [apply Hf|done..].
Qed.

Lemma answers_weaken {A} (m : M A) (Q : A → Prop) :
  answers m Q False → answers m Q True.
Proof. intros Hm w. specialize (Hm w). by destruct (m w). Qed.

Lemma answers_try_catch {A} (body handler : M A) (Q : A → Prop) (T : Prop) :
  answers body Q True → answers handler Q T →
  answers (try_catch body handler) Q T.
Proof.
  intros Hb Hh w. unfold try_catch. specialize (Hb w).
  destruct (body w); [done|apply Hh|done].
Qed.

Section Proceeds.

Variable p : platform.
Hypothesis Hp : on_relock p = Proceeds.

Lemma answers_lock_guard {A} (body : M A) (Q : A → Prop) (T : Prop) :
  answers body Q T → answers (lock_guard p body) Q T.
Proof.
  intros Hb w. unfold lock_guard, lock. rewrite Hp.
  destruct (db_mutex w);
    [specialize (Hb w)|specialize (Hb (set_mutex true w))];
    by destruct (body _).
Qed.

(** The SQLite calls and the clock always return. *)
Lemma answers_sqlite a T : answers (sqlite_ok p a) (λ _, True) T.
Proof. by intros w. Qed.

Lemma answers_iso_now T : answers (iso_now p) (λ _, True) T.
Proof. by intros w. Qed.

Lemma answers_sqlite3_open T : answers (sqlite3_open p) (λ _, True) T.
Proof. by intros w. Qed.

Lemma answers_exec_begin db T : answers (exec_begin p db) (λ _, True) T.
Proof. by intros w. Qed.

Lemma answers_exec_commit db T : answers (exec_commit p db) (λ _, True) T.
Proof.
  intros w. unfold exec_commit, bind, sqlite_ok.
  destruct (negb _); [|done]. by destruct db.
Qed.

Lemma answers_sqlite3_step stmt db T :
  answers (sqlite3_step p stmt db) (λ _, True) T.
Proof.
  intros w. unfold sqlite3_step, bind, sqlite_ok.
  destruct (negb _); [|done]. by destruct db.
Qed.

Lemma answers_sqlite3_step_insert stmt db T :
  answers (sqlite3_step_insert p stmt db) (λ _, True) T.
Proof.
  intros w. unfold sqlite3_step_insert, bind, sqlite_ok.
  destruct (negb _); [|done]. by destruct db.
Qed.

Lemma answers_sqlite3_step_row {R} (q : database → option R) db T :
  answers (sqlite3_step_row p q db) (λ _, True) T.
Proof.
  intros w. unfold sqlite3_step_row, bind, sqlite_ok. by destruct (negb _).
Qed.

Lemma answers_sqlite3_fetch {R} (rows : list R) T :
  answers (sqlite3_fetch p rows) (λ _, True) T.
Proof.
  induction rows as [|r rows IH]; intros w; cbn [sqlite3_fetch];
    unfold bind, sqlite_ok; [done|].
  destruct (negb _); [|done]. specialize (IH (count Step w)).
  by destruct (sqlite3_fetch p rows _).
Qed.

Lemma answers_sqlite3_step_rows {R} (q : database → list R) db T :
  answers (sqlite3_step_rows p q db) (λ _, True) T.
Proof. intros w. unfold sqlite3_step_rows. apply answers_sqlite3_fetch. Qed.

(** The JSON readers return or throw. *)
Lemma answers_reader {A} (m : M A) :
  (∀ w, m w = Throw w ∨ ∃ a, m w = Ret a w) → answers m (λ _, True) True.
Proof. intros H w. by destruct (H w) as [->|[a ->]]. Qed.

Lemma get_string_reads j w :
  get_string j w = Throw w ∨ ∃ a, get_string j w = Ret a w.
Proof. destruct j; eauto. Qed.

Lemma get_bool_reads j w :
  get_bool j w = Throw w ∨ ∃ a, get_bool j w = Ret a w.
Proof. destruct j; eauto. Qed.

Lemma json_reader_answers :
  (∀ j, answers (get_string j) (λ _, True) True)
  ∧ (∀ j, answers (get_bool j) (λ _, True) True)
  ∧ (∀ j k d, answers (json_value j k d) (λ _, True) True)
  ∧ (∀ c, answers (column_text c) (λ _, True) True)
  ∧ (∀ k j, answers (json_erase k j) (λ _, True) True)
  ∧ (∀ j k x, answers (copy_if_contains j k x) (λ _, True) True)
  ∧ (∀ j k, answers (string_or_empty j k) (λ _, True) True)
  ∧ (∀ j k, answers (int_or_minus_one j k) (λ _, True) True)
  ∧ (∀ j k, answers (bind_text_if_contains j k) (λ _, True) True)
  ∧ (∀ j, answers (dump j) (λ _, True) True).
Proof.
  repeat split; intros; intros w;
    unfold json_value, column_text, json_erase, copy_if_contains, json_set,
      string_or_empty, int_or_minus_one, bind_text_if_contains, dump, bind;
    repeat case_match; try done;
    repeat match goal with
           | H : get_string ?j ?w = _ |- _ =>
               destruct (get_string_reads j w) as [?|[? ?]]; congruence
           | H : get_bool ?j ?w = _ |- _ =>
               destruct (get_bool_reads j w) as [?|[? ?]]; congruence
           | |- context [get_string ?j ?w] => by destruct j
           | |- context [get_bool ?j ?w] => by destruct j
           end.
Qed.

End Proceeds.

(** One step of a proof of [answers m Q T] along the structure of [m]. *)
Ltac answers_leaf :=
  first [ apply answers_sqlite | apply answers_iso_now
        | apply answers_sqlite3_open | apply answers_exec_begin
        | apply answers_exec_commit | apply answers_sqlite3_step
        | apply answers_sqlite3_step_insert
        | apply answers_sqlite3_step_row | apply answers_sqlite3_step_rows
        | by apply answers_ret
        | apply json_reader_answers ].

Ltac answers_step Hp :=
  lazymatch goal with
  | |- answers (ret _) _ _ => apply answers_ret; auto
  | |- answers (lock_guard _ _) _ _ => apply (answers_lock_guard _ Hp)
  | |- answers (try_catch _ _) _ _ => apply answers_try_catch
  | |- answers (if ?b then _ else _) _ _ => destruct b
  | |- answers (match ?o with Some _ => _ | None => _ end) _ _ => destruct o
  | |- answers (match ?x with (_, _) => _ end) _ _ => destruct x
  | |- answers (bind _ _) _ _ => apply answers_bind; [|intros ?]
  | |- _ => answers_leaf
  end.

Section Answers.

Variable p : platform.
Hypothesis Hp : on_relock p = Proceeds.

Lemma ensure_user_exists_answers u T :
  answers (ensure_user_exists p u) (λ _, True) T.
Proof. unfold ensure_user_exists. repeat answers_step Hp. Qed.








End Answers.





(** ** Rows that exist *)

(** A property of the database that every SQL statement of the program
    keeps, whatever its parameters, is kept by every request, on every
    platform and however the request ends. *)
Lemma handle_inv p (I : database → Prop) r :
  (∀ u x d, I d → I (sql_insert_or_ignore_users u x d)) →
  (∀ u t d, I d → I (sql_insert_or_ignore_settings u t d)) →
  (∀ u n e a d, I d → I (sql_update_users n e a u d)) →
  (∀ u x d, I d → I (sql_upsert_settings u x d)) →
  (∀ u d, I d → I (sql_delete_chat u d)) →
  (∀ u ro m t d, I d → I (sql_insert_chat u ro m t d)) →
  inv (λ w, I (disk w)) (handle p r) (λ _, True).
Proof.
  intros HU0 HS0 HU HS HD HC.
  assert (∀ u, inv (λ w, I (disk w)) (get_user_settings p u) (λ _, True))
    as Hget
    by (intros u; apply (@get_user_settings_inv p _ I (disk_stable I)
                           (disk_stable_open I)); auto).
  assert (∀ u, inv (λ w, I (disk w)) (export_user_data p u) (λ _, True))
    as Hexp
    by (intros u; apply (@export_user_data_inv p _ I (disk_stable I)
                           (disk_stable_open I)); auto).
  assert (∀ u j, inv (λ w, I (disk w)) (upsert_settings p u j) (λ _, True))
    as Hup
    by (intros u j; apply (@upsert_settings_inv p _ I (disk_stable I)
                             (disk_stable_open I)); auto).
  assert (∀ u ro m, inv (λ w, I (disk w)) (append_chat_message p u ro m)
                      (λ _, True)) as Happ
    by (intros u ro m; apply (@append_chat_message_inv p _ I (disk_stable I)
                                (disk_stable_open I)); auto).
  assert (∀ u, inv (λ w, I (disk w)) (clear_chat_history p u) (λ _, True))
    as Hclr
    by (intros u; apply (@clear_chat_history_inv p _ I (disk_stable I)
                           (disk_stable_open I)); auto).
  assert (∀ u j b, inv (λ w, I (disk w)) (import_user_data p u j b)
                     (λ _, True)) as Himp
    by (intros u j b; apply (@import_user_data_inv p _ I (disk_stable I)
                               (disk_stable_open I)); auto).
  assert (∀ j k x, inv (λ w, I (disk w)) (copy_if_contains j k x)
                     (λ _, True)) as Hcopy.
  { intros j k x. unfold copy_if_contains, json_set.
    destruct (contains j k); [|by apply inv_ret].
    destruct x; first [by apply inv_ret|apply inv_throw]. }
  assert (∀ k x, inv (λ w, I (disk w)) (json_erase k x) (λ _, True))
    as Herase
    by (intros k x; destruct x; first [by apply inv_ret|apply inv_throw]).
  assert (∀ x, inv (λ w, I (disk w)) (get_bool x) (λ _, True)) as Hbool
    by (intros x; by apply inv_get_bool).
  destruct r as [|u|j|j|j|j|j|j|j|u|q j|u]; simpl;
    unfold status_of, get_health, get_settings, get_history_export,
      get_history, post_settings, post_profile, post_notifications,
      post_theme, post_security_biometric, post_history, post_history_clear,
      post_history_import;
    repeat (inv_step I; eauto).
Qed.

(** X29. Nothing removes a user: on every platform and however a request
    ends, a row of [users] that exists before the request exists after it
    with the same [created_at], and a row of [settings] that exists before
    it exists after it. *)
Theorem handle_keeps_rows p r w u row :
  users (disk w) !! u = Some row →
  (∃ row', users (disk (world_of (handle p r w))) !! u = Some row'
           ∧ u_created_at row' = u_created_at row)
  ∧ (is_Some (settings (disk w) !! u) →
     is_Some (settings (disk (world_of (handle p r w))) !! u)).
Proof.
  intros Hrow. split.
  - set (I := λ d, ∃ row', users d !! u = Some row'
                           ∧ u_created_at row' = u_created_at row).
    apply (inv_world_of (λ w, I (disk w)) _ (λ _, True)); [|by exists row].
    apply handle_inv; unfold I; try done.
    + intros u' x d (row' & Hr & Hc). unfold sql_insert_or_ignore_users.
      destruct (users d !! u') eqn:E; [by eauto|]. simpl.
      rewrite lookup_insert_ne by congruence. eauto.
    + intros u' t d H. unfold sql_insert_or_ignore_settings.
      by destruct (settings d !! u').
    + intros u' n e a d (row' & Hr & Hc). unfold sql_update_users.
      destruct (users d !! u') as [x|] eqn:E; [|by eauto]. simpl.
      destruct (decide (u' = u)) as [->|Hne].
      * rewrite lookup_insert_eq. eexists. split; [done|]. simpl. congruence.
      * rewrite lookup_insert_ne by done. eauto.
    + intros u' x d H. unfold sql_upsert_settings.
      by destruct (settings d !! u').
    + intros u' ro m t d H. by rewrite sql_insert_chat_users.
  - intros Hs. set (I := λ d, is_Some (settings d !! u)).
    apply (inv_world_of (λ w, I (disk w)) _ (λ _, True)); [|done].
    apply handle_inv; unfold I; try done.
    + intros u' x d H. unfold sql_insert_or_ignore_users.
      by destruct (users d !! u').
    + intros u' t d H. unfold sql_insert_or_ignore_settings.
      destruct (settings d !! u') eqn:E; [done|]. simpl.
      destruct (decide (u' = u)) as [->|Hne];
        [by rewrite lookup_insert_eq|by rewrite lookup_insert_ne].
    + intros u' n e a d H. unfold sql_update_users.
      by destruct (users d !! u').
    + intros u' x d H. unfold sql_upsert_settings.
      destruct (settings d !! u'); simpl;
        (destruct (decide (u' = u)) as [->|Hne];
         [by rewrite lookup_insert_eq|by rewrite lookup_insert_ne]).
    + intros u' ro m t d H. by rewrite sql_insert_chat_settings.
Qed.

(** The witness of X29: an import that replaces the history. *)
Lemma handle_keeps_rows_witness :
  ∃ row', users (disk (world_of
            (handle (fault_free Proceeds example_clock)
               (POST_history_import "1"
                  (JObj [("user_id", JStr "u1");
                         ("chat_history", JArr [message_C])]))
               (world_with example_db)))) !! "u1" = Some row'
          ∧ u_created_at row' = Some "2024-12-31T22:00:00Z".
Proof.
  by destruct (handle_keeps_rows (fault_free Proceeds example_clock)
                 (POST_history_import "1"
                    (JObj [("user_id", JStr "u1");
                           ("chat_history", JArr [message_C])]))
                 (world_with example_db) "u1"
                 (default_user (Some "2024-12-31T22:00:00Z")) eq_refl)
    as [H _].
Defined.

(** ** A read that cannot open the database *)

(** Where the mutex lets its owner through, [ensure_user_exists] returns
    whatever fails, after exactly one call of [sqlite3_open]. *)
Lemma ensure_user_exists_returns p u w :
  on_relock p = Proceeds →
  ∃ w', ensure_user_exists p u w = Ret () w' ∧ opens w' = S (opens w).
Proof.
  intros Hp.
  pose proof (ensure_user_exists_answers p Hp u False w) as Ha.
  pose proof (ensure_user_exists_opens p u (opens w) w eq_refl) as Ho.
  destruct (ensure_user_exists p u w) as [[] w'| |]; [|done..].
  by exists w'.
Qed.

(** X30. A read that cannot open the database is answered as a success:
    where the mutex lets its owner through, when the call of [sqlite3_open]
    for the connection of [get_user_settings] itself fails, the second of
    the request, [GET /settings] answers 200 with the JSON value null, not
    an error. *)
Theorem get_settings_open_failure p user_id w :
  on_relock p = Proceeds → user_id ≠ "" →
  fails p Open (S (opens w)) = true →
  ∃ w', get_settings p user_id w = Ret (200, JNull) w'.
Proof.
  intros Hp Hne Hf. unfold get_settings.
  rewrite bool_decide_eq_false_2 by done. unfold bind at 1.
  unfold get_user_settings, lock_guard, lock. rewrite Hp.
  destruct (db_mutex w); unfold bind at 1;
    [destruct (ensure_user_exists_returns p user_id w Hp) as (w2 & -> & Ho)
    |destruct (ensure_user_exists_returns p user_id (set_mutex true w) Hp)
       as (w2 & -> & Ho)];
    unfold bind at 1, sqlite3_open, bind at 1, sqlite_ok; cbn [calls ret];
    rewrite Ho; cbn [opens set_mutex]; rewrite Hf; by eexists.
Qed.

(** The witness of X30. *)
Lemma get_settings_open_failure_witness :
  ∃ w', get_settings (one_failure Proceeds Open 1) "u1" (world_with example_db)
        = Ret (200, JNull) w'.
Proof. by apply get_settings_open_failure. Defined.

(** ** The code at the edges of its input

    Strings with a NUL byte, strings that are not UTF-8, integers beyond 32
    bits, and a table whose ids are used up. *)

(** An update for the [user_id] [u1], NUL, [x] changes the row of [u1], and
    no row has that [user_id] as its key. *)
Example upsert_settings_nul_user_id :
  let o := upsert_settings (fault_free Proceeds example_clock) nul_id
             (JObj [("language", JStr "German")]) (world_with example_db) in
  result_of o = Some true
  ∧ stored (disk (world_of o)) "u1" F_language = Some (VText "German")
  ∧ users (disk (world_of o)) !! nul_id = None
  ∧ settings (disk (world_of o)) !! nul_id = None.
Proof. vm_compute. done. Qed.

(** A name with a NUL byte is stored up to that byte, and a theme that
    starts with a NUL byte, which is not the empty string, is stored as the
    empty text. *)
Example upsert_settings_nul_text :
  let j := JObj [("name", JStr ("a" +:+ String Ascii.zero "b"));
                 ("theme_mode", JStr (String Ascii.zero "x"))] in
  let o := upsert_settings (fault_free Proceeds example_clock) "u1" j
             (world_with example_db) in
  stored (disk (world_of o)) "u1" F_name = Some (VText "a")
  ∧ stored (disk (world_of o)) "u1" F_theme_mode = Some (VText "").
Proof. vm_compute. done. Qed.

(** A message with a NUL byte is stored up to that byte. *)
Example append_chat_message_nul_text :
  row_fields <$> sql_select_chat "u1" (disk (world_of
    (append_chat_message (fault_free Proceeds example_clock) "u1" "user"
       ("hi" +:+ String Ascii.zero "there") (world_with example_db))))
  = [("user", "A", "2024-12-31T23:00:00Z"); ("bot", "B", "2024-12-31T23:00:01Z");
     ("user", "hi", "2025-01-01T00:00:00Z")].
Proof. vm_compute. done. Qed.

(** An export for the [user_id] [u1], NUL, [x] is the export of [u1]. *)
Example export_user_data_nul_user_id :
  result_of (export_user_data (fault_free Proceeds example_clock) nul_id
               (world_with example_db))
  = result_of (export_user_data (fault_free Proceeds example_clock) "u1"
                 (world_with example_db)).
Proof. vm_compute. done. Qed.

(** [sqlite3_column_int] keeps the low 32 bits: a stored 2^32 reads as
    false. *)
Example column_bool_low_bits :
  column_bool (Some (2 ^ 32)) = JBool false
  ∧ column_bool (Some (2 ^ 32 + 1)) = JBool true
  ∧ column_bool (Some (-1)) = JBool true
  ∧ column_bool None = JBool false.
Proof. vm_compute. done. Qed.

(** Once the id [MAX_ROWID] has been used, a message is answered 200 and is
    not stored. *)
Example post_history_table_full :
  let d := {| users := users example_db; settings := settings example_db;
              chat_history := chat_history example_db;
              sqlite_sequence := MAX_ROWID |} in
  let o := post_history (fault_free Proceeds example_clock)
             (JObj [("user_id", JStr "u1"); ("role", JStr "user");
                    ("message", JStr "C")]) (world_with d) in
  result_of o = Some 200
  ∧ chat_history (disk (world_of o)) = chat_history example_db
  ∧ sqlite_sequence (disk (world_of o)) = MAX_ROWID.
Proof. vm_compute. done. Qed.

(** An import into a table with room for one message: the second INSERT
    fails with SQLITE_FULL, which rolls back the transaction, the deletion
    of the old history and the first message with it, and leaves the
    connection in autocommit mode. The third message is then stored at once,
    and stays stored when the fourth message makes the import throw. *)
Example import_user_data_table_full :
  let d := {| users := users example_db; settings := settings example_db;
              chat_history := chat_history example_db;
              sqlite_sequence := MAX_ROWID - 1 |} in
  let message_E := JObj [("message", JStr "E")] in
  let o := post_history_import (fault_free Proceeds example_clock) "true"
             (JObj [("user_id", JStr "u1");
                    ("chat_history",
                       JArr [message_C; message_D; message_E;
                             JObj [("message", JNum 7)]])])
             (world_with d) in
  result_of o = Some 400
  ∧ (c_id <$> chat_history (disk (world_of o))) = [1; 2; MAX_ROWID]
  ∧ (c_message <$> chat_history (disk (world_of o))) = ["A"; "B"; "E"]
  ∧ sqlite_sequence (disk (world_of o)) = MAX_ROWID.
Proof. vm_compute. done. Qed.

(** The bytes C3 A9 are well-formed UTF-8; an overlong form (C0 80), a
    surrogate (ED A0 80), a code point above U+10FFFF (F4 90 80 80), a
    sequence cut short (E2 82) and a lone byte FF are not. *)
Example valid_utf8_bytes :
  let s (l : list N) := foldr (λ b t, String (Ascii.ascii_of_N b) t) "" l in
  valid_utf8 (s [0xC3; 0xA9]%N) = true
  ∧ valid_utf8 (s [0xC0; 0x80]%N) = false
  ∧ valid_utf8 (s [0xED; 0xA0; 0x80]%N) = false
  ∧ valid_utf8 (s [0xF4; 0x90; 0x80; 0x80]%N) = false
  ∧ valid_utf8 (s [0xE2; 0x82]%N) = false
  ∧ valid_utf8 (s [0xFF]%N) = false
  ∧ valid_utf8 (s [0x61; 0x00; 0x62]%N) = true.
Proof. vm_compute. done. Qed.

(** [GET /settings] for a [user_id] that is not UTF-8 creates the rows of the
    user and ends by the exception of [dump()]. *)
Example get_settings_not_utf8 :
  let u := String (Ascii.ascii_of_N 255) "" in
  let o := get_settings (fault_free Proceeds example_clock) u
             (world_with example_db) in
  result_of o = None
  ∧ o = Throw (world_of o)
  ∧ is_Some (users (disk (world_of o)) !! u).
Proof. vm_compute. split; [done|]. split; [done|]. by eexists. Qed.

(** A range-for over an object visits the values in the order of the keys,
    one per key. *)
Example json_items_by_key :
  json_items (JObj [("b", JNum 2); ("a", JNum 1); ("b", JNum 3)])
  = [JNum 1; JNum 2].
Proof. vm_compute. done. Qed.
